(** * FollowUp AI: request/task lifecycle, reminders, approvals, schema

    A shallow embedding of the parts of the repository that carry logic:

    - [Schema]: the SQL migrations (table constraints of [users],
      [client_folders], [tasks], [task_occurrences] and the trigger
      function [create_default_client_folders]);
    - [Dashboard]: [loadStats] of [src/pages/Dashboard.tsx];
    - [Approvals]: [handleApprove], [handleReject] and the rendering gate
      [isPending] of [src/pages/Approvals.tsx];
    - [RemindersPage]: the retry column and the Retry gate of the
      reminders page;
    - [Schedule], [Generator], [Items], [Requests], [Reminders] and
      [Lifecycle]: the schedule calculator, occurrence generator,
      checklist-item and request state machines and reminder engine.  The
      repository holds no implementation of these; they are modelled from
      the specification and every such definition says so.

    Dates are day numbers and timestamps are instants, both in [Z]; the
    ISO strings the pages pass around are kept as strings. *)

From Stdlib Require Import List Ascii String ZArith Bool Lia Permutation PeanoNat.
Import ListNotations.
Local Open Scope string_scope.

(** ** Results of fallible operations *)

Inductive result (E A : Type) : Type :=
| Ok (a : A)
| Err (e : E).
Arguments Ok {E A} a.
Arguments Err {E A} e.

Definition bind {E A B} (r : result E A) (k : A -> result E B) : result E B :=
  match r with
  | Ok a => k a
  | Err e => Err e
  end.

Notation "'do' x <- r ;; k" := (bind r (fun x => k))
  (at level 10, x name, r at level 100, k at level 200).

Definition guard {E} (b : bool) (e : E) : result E unit :=
  if b then Ok tt else Err e.

Definition is_some {A} (o : option A) : bool :=
  match o with Some _ => true | None => false end.

Definition opt_eqb {A} (eqb : A -> A -> bool) (a b : option A) : bool :=
  match a, b with
  | Some x, Some y => eqb x y
  | None, None => true
  | _, _ => false
  end.

(** SQL [x IN (v1, ..., vn)] on a non-null text value. *)
Definition text_in (x : string) (vs : list string) : bool :=
  existsb (String.eqb x) vs.

(** A [CHECK (col IN (...))] constraint: a NULL passes the check. *)
Definition check_in (x : option string) (vs : list string) : bool :=
  match x with
  | None => true
  | Some v => text_in v vs
  end.

(** * The database schema (SQL migrations) *)

Module Schema.

Definition uuid := string.
Definition date := Z.

Inductive sql_error : Type :=
| not_null_violation (column : string)
| check_violation (column : string)
| unique_violation (constraint : string)
| foreign_key_violation (column : string).

Definition sql A := result sql_error A.

(** [users]: the columns with constraints.  [last_login], [preferences],
    [created_at] and [updated_at] carry no constraint and are read by
    nothing below. *)
Record users_row : Type := {
  u_id : uuid;
  u_organization_id : option uuid;
  u_email : string;
  u_full_name : string;
  u_phone : option string;
  u_role : string;
  u_is_active : bool
}.

(** [client_folders]: [id], [created_at] and [updated_at] are filled by the
    database ([uuid_generate_v4()], [now()]).  [cf_name] is NOT NULL; the
    value offered by an INSERT may still be NULL, so it is an option that
    the insert checks. *)
Record client_folders_row : Type := {
  cf_organization_id : option uuid;
  cf_client_id : option uuid;
  cf_parent_folder_id : option uuid;
  cf_name : option string;
  cf_folder_type : option string;
  cf_description : option string;
  cf_sort_order : option Z;
  cf_created_by : option uuid
}.

(** [tasks]: a row as it is stored and as the VALUES of an INSERT write it,
    NULL being [None].  A column without DEFAULT that the INSERT leaves out
    is NULL as well; for [priority] and [status], which have a DEFAULT, the
    column list of the INSERT says whether the column is named
    ([tasks_columns]). *)
Record tasks_row : Type := {
  t_id : uuid;
  t_organization_id : option uuid;
  t_template_id : option uuid;
  t_client_id : option uuid;
  t_name : option string;
  t_description : option string;
  t_task_type : option string;
  t_schedule_frequency : option string;
  t_schedule_day_rule : option string;
  t_schedule_start_date : option date;
  t_schedule_end_date : option date;
  t_next_run_date : option date;
  t_task_manager_id : option uuid;
  t_priority : option string;
  t_status : option string;
  t_due_date : option date
}.

(** [task_occurrences]: [id] and [created_at] are filled by the database. *)
Record task_occurrences_row : Type := {
  o_task_id : option uuid;
  o_occurrence_date : option date;
  o_due_date : option date;
  o_status : option string;
  o_completed_at : option Z;
  o_notes : option string
}.

Record db : Type := {
  auth_users : list uuid;
  organizations : list uuid;
  users : list users_row;
  client_folders : list client_folders_row
}.

Definition set_users (d : db) (us : list users_row) : db :=
  {| auth_users := auth_users d; organizations := organizations d;
     users := us; client_folders := client_folders d |}.

Definition set_client_folders (d : db) (cf : list client_folders_row) : db :=
  {| auth_users := auth_users d; organizations := organizations d;
     users := users d; client_folders := cf |}.

Definition uuid_in (x : uuid) (xs : list uuid) : bool := existsb (String.eqb x) xs.

(** A nullable [REFERENCES] column: NULL references nothing. *)
Definition fk_ok (x : option uuid) (keys : list uuid) : bool :=
  match x with
  | None => true
  | Some v => uuid_in v keys
  end.

Definition user_roles : list string :=
  ["super_admin"; "admin"; "manager"; "team_member"; "client"].

Definition folder_type_values : list string :=
  ["kyc"; "legal"; "finance"; "hr"; "project"; "custom"].

(** [INSERT INTO client_folders (...) VALUES (...)]: NOT NULL on [name], the
    CHECK on [folder_type], the three foreign keys; the row goes to the end
    of the table. *)
Definition insert_client_folder (row : client_folders_row) (d : db) : sql db :=
  do _ <- guard (is_some (cf_name row)) (not_null_violation "name") ;;
  do _ <- guard (check_in (cf_folder_type row) folder_type_values)
                (check_violation "folder_type") ;;
  do _ <- guard (fk_ok (cf_organization_id row) (organizations d))
                (foreign_key_violation "organization_id") ;;
  do _ <- guard (fk_ok (cf_client_id row) (map u_id (users d)))
                (foreign_key_violation "client_id") ;;
  do _ <- guard (fk_ok (cf_created_by row) (map u_id (users d)))
                (foreign_key_violation "created_by") ;;
  Ok (set_client_folders d (client_folders d ++ [row])%list).

(** PL/pgSQL arrays are indexed from 1; a subscript out of range is NULL. *)
Definition array_get (a : list string) (i : nat) : option string :=
  match i with
  | O => None
  | S k => nth_error a k
  end.

(** [array_length(a, 1)]. *)
Definition array_length (a : list string) : nat := List.length a.

(** SQL [||]: NULL if either side is NULL. *)
Definition concat_null (a b : option string) : option string :=
  match a, b with
  | Some x, Some y => Some (x ++ y)
  | _, _ => None
  end.

(** [FOR i IN lo..hi LOOP body END LOOP], the indices given as a list; an
    error in the body aborts the loop. *)
Fixpoint for_loop {S : Type} (body : nat -> S -> sql S) (idxs : list nat) (s : S)
  : sql S :=
  match idxs with
  | [] => Ok s
  | i :: rest =>
      match body i s with
      | Ok s' => for_loop body rest s'
      | Err e => Err e
      end
  end.

Definition folder_types : list string := ["kyc"; "legal"; "finance"; "hr"].

Definition folder_names : list string :=
  ["KYC Documents"; "Legal Documents"; "Finance Documents"; "HR Documents"].

(** The VALUES list of the trigger's INSERT, at loop index [i]. *)
Definition default_folder (NEW : users_row) (i : nat) : client_folders_row :=
  {| cf_organization_id := u_organization_id NEW;
     cf_client_id := Some (u_id NEW);
     cf_parent_folder_id := None;
     cf_name := array_get folder_names i;
     cf_folder_type := array_get folder_types i;
     cf_description :=
       concat_null (concat_null (Some "Default ") (array_get folder_names i))
                   (Some " folder");
     cf_sort_order := Some (Z.of_nat i);
     cf_created_by := Some (u_id NEW) |}.

(** The trigger function [create_default_client_folders()].  It is declared
    SECURITY DEFINER, so its INSERTs are checked against the table
    constraints and not against the row-level policies of the caller. *)
Definition create_default_client_folders (NEW : users_row) (d : db) : sql db :=
  if (u_role NEW =? "client") && is_some (u_organization_id NEW) then
    for_loop (fun i d' => insert_client_folder (default_folder NEW i) d')
             (seq 1 (array_length folder_types)) d
  else Ok d.

(** The constraints an INSERT INTO users meets: primary key and its
    reference to [auth.users], the foreign key to [organizations], UNIQUE on
    [email], the CHECK on [role].  The row-level policies, which decide who
    may insert, depend on the session and are not part of it. *)
Definition users_insert_ok (NEW : users_row) (d : db) : sql unit :=
  do _ <- guard (negb (uuid_in (u_id NEW) (map u_id (users d))))
                (unique_violation "users_pkey") ;;
  do _ <- guard (uuid_in (u_id NEW) (auth_users d)) (foreign_key_violation "id") ;;
  do _ <- guard (fk_ok (u_organization_id NEW) (organizations d))
                (foreign_key_violation "organization_id") ;;
  do _ <- guard (negb (existsb (String.eqb (u_email NEW)) (map u_email (users d))))
                (unique_violation "users_email_key") ;;
  guard (text_in (u_role NEW) user_roles) (check_violation "role").

(** [INSERT INTO users]: the constraints, the row, then the AFTER INSERT FOR
    EACH ROW trigger.  A failure anywhere leaves the database as it was (the
    result is [Err]). *)
Definition insert_user (NEW : users_row) (d : db) : sql db :=
  do _ <- users_insert_ok NEW d ;;
  create_default_client_folders NEW (set_users d (users d ++ [NEW])%list).

(** *** [tasks] *)

Definition task_type_values : list string := ["one_time"; "recurring"].

Definition schedule_frequency_values : list string :=
  ["daily"; "weekly"; "monthly"; "quarterly"; "yearly"; "custom"].

Definition priority_values : list string := ["low"; "medium"; "high"].

Definition task_status_values : list string :=
  ["not_started"; "in_progress"; "waiting_on_client"; "completed"; "overdue";
   "cancelled"].

(** A column with a DEFAULT, as an INSERT treats it: left out of the column
    list (or written DEFAULT) it takes the default; named, it takes the value
    written for it, and a NULL written there is stored as NULL. *)
Definition column_default (named : bool) (written : option string) (dflt : string)
  : option string :=
  if named then written else Some dflt.

(** Which of the two columns of [tasks] with a DEFAULT the column list of an
    INSERT names. *)
Record tasks_columns : Type := {
  names_priority : bool;
  names_status : bool
}.

(** The column DEFAULTs of [tasks]: [priority] and [status] have one, which
    applies when the INSERT leaves the column out; the scheduler columns
    ([next_run_date] among them) have none and stay NULL when the INSERT
    leaves them out. *)
Definition tasks_defaults (cols : tasks_columns) (row : tasks_row) : tasks_row :=
  {| t_id := t_id row;
     t_organization_id := t_organization_id row;
     t_template_id := t_template_id row;
     t_client_id := t_client_id row;
     t_name := t_name row;
     t_description := t_description row;
     t_task_type := t_task_type row;
     t_schedule_frequency := t_schedule_frequency row;
     t_schedule_day_rule := t_schedule_day_rule row;
     t_schedule_start_date := t_schedule_start_date row;
     t_schedule_end_date := t_schedule_end_date row;
     t_next_run_date := t_next_run_date row;
     t_task_manager_id := t_task_manager_id row;
     t_priority := column_default (names_priority cols) (t_priority row) "medium";
     t_status := column_default (names_status cols) (t_status row) "not_started";
     t_due_date := t_due_date row |}.

(** The row constraints of [tasks]: NOT NULL on [name] and [task_type], the
    four CHECKs, each of which passes on NULL.  No constraint reads
    [next_run_date]. *)
Definition tasks_row_ok (row : tasks_row) : sql unit :=
  do _ <- guard (is_some (t_name row)) (not_null_violation "name") ;;
  do _ <- guard (is_some (t_task_type row)) (not_null_violation "task_type") ;;
  do _ <- guard (check_in (t_task_type row) task_type_values)
                (check_violation "task_type") ;;
  do _ <- guard (check_in (t_schedule_frequency row) schedule_frequency_values)
                (check_violation "schedule_frequency") ;;
  do _ <- guard (check_in (t_priority row) priority_values)
                (check_violation "priority") ;;
  guard (check_in (t_status row) task_status_values) (check_violation "status").

(** [INSERT INTO tasks]: defaults, row constraints, primary key.  The foreign
    keys point into other tables and are left to them. *)
Definition insert_task (cols : tasks_columns) (row : tasks_row)
    (tbl : list tasks_row) : sql (list tasks_row) :=
  let row' := tasks_defaults cols row in
  do _ <- tasks_row_ok row' ;;
  do _ <- guard (negb (uuid_in (t_id row') (map t_id tbl)))
                (unique_violation "tasks_pkey") ;;
  Ok (tbl ++ [row'])%list.

(** [UPDATE tasks SET next_run_date = v WHERE id = k]. *)
Definition set_next_run_date (v : option date) (row : tasks_row) : tasks_row :=
  {| t_id := t_id row;
     t_organization_id := t_organization_id row;
     t_template_id := t_template_id row;
     t_client_id := t_client_id row;
     t_name := t_name row;
     t_description := t_description row;
     t_task_type := t_task_type row;
     t_schedule_frequency := t_schedule_frequency row;
     t_schedule_day_rule := t_schedule_day_rule row;
     t_schedule_start_date := t_schedule_start_date row;
     t_schedule_end_date := t_schedule_end_date row;
     t_next_run_date := v;
     t_task_manager_id := t_task_manager_id row;
     t_priority := t_priority row;
     t_status := t_status row;
     t_due_date := t_due_date row |}.

Fixpoint tasks_rows_ok (rows : list tasks_row) : sql unit :=
  match rows with
  | [] => Ok tt
  | r :: rest => do _ <- tasks_row_ok r ;; tasks_rows_ok rest
  end.

Definition update_task_next_run_date (k : uuid) (v : option date)
    (tbl : list tasks_row) : sql (list tasks_row) :=
  let tbl' := map (fun r => if (t_id r =? k) then set_next_run_date v r else r) tbl in
  do _ <- tasks_rows_ok (filter (fun r => t_id r =? k) tbl') ;;
  Ok tbl'.

(** *** [task_occurrences] *)

Definition occurrence_status_values : list string :=
  ["pending"; "in_progress"; "completed"; "overdue"; "skipped"].

(** The DEFAULT of [status]; [named] says whether the column list of the
    INSERT names the column. *)
Definition occurrence_defaults (named : bool) (row : task_occurrences_row)
  : task_occurrences_row :=
  {| o_task_id := o_task_id row;
     o_occurrence_date := o_occurrence_date row;
     o_due_date := o_due_date row;
     o_status := column_default named (o_status row) "pending";
     o_completed_at := o_completed_at row;
     o_notes := o_notes row |}.

(** [UNIQUE(task_id, occurrence_date)]: two rows collide when both columns
    are equal and not NULL (a NULL never equals anything). *)
Definition same_occurrence_key (a b : task_occurrences_row) : bool :=
  match o_task_id a, o_task_id b, o_occurrence_date a, o_occurrence_date b with
  | Some x, Some y, Some d, Some e => (x =? y) && (d =? e)%Z
  | _, _, _, _ => false
  end.

(** [INSERT INTO task_occurrences]: the default of [status] when the column
    is not [named], NOT NULL on the two dates, the CHECK on [status], the
    UNIQUE constraint.  The foreign key of [task_id] points into [tasks] and
    is left to it. *)
Definition insert_task_occurrence (named : bool) (row : task_occurrences_row)
    (tbl : list task_occurrences_row) : sql (list task_occurrences_row) :=
  let row' := occurrence_defaults named row in
  do _ <- guard (is_some (o_occurrence_date row')) (not_null_violation "occurrence_date") ;;
  do _ <- guard (is_some (o_due_date row')) (not_null_violation "due_date") ;;
  do _ <- guard (check_in (o_status row') occurrence_status_values)
                (check_violation "status") ;;
  do _ <- guard (negb (existsb (same_occurrence_key row') tbl))
                (unique_violation "task_occurrences_task_id_occurrence_date_key") ;;
  Ok (tbl ++ [row'])%list.

(** The rows of the table that hold occurrence [d] of task [k]. *)
Definition holds (k : uuid) (d : date) (r : task_occurrences_row) : bool :=
  opt_eqb String.eqb (o_task_id r) (Some k) && opt_eqb Z.eqb (o_occurrence_date r) (Some d).

Definition occurrences_of (k : uuid) (d : date) (tbl : list task_occurrences_row)
  : list task_occurrences_row :=
  filter (holds k d) tbl.

End Schema.

(** * JavaScript values as the pages use them *)

(** Truthiness of a [string | null | undefined]: only a non-empty string is
    truthy. *)
Definition truthy (s : option string) : bool :=
  match s with
  | Some v => negb (v =? "")
  | None => false
  end.

(** [a || b] on numbers: [0] is falsy. *)
Definition num_or (a b : nat) : nat :=
  match a with
  | O => b
  | S _ => a
  end.

(** A numeric field as a page reads it off a row: [undefined] when the row
    has no such column, [null] when the column is NULL, or a number. *)
Inductive js_number : Type :=
| js_undefined
| js_null
| js_num (n : Z).

(** [a || b] with [b] a number: [undefined], [null] and [0] are falsy. *)
Definition number_or (a : js_number) (b : Z) : Z :=
  match a with
  | js_num n => if (n =? 0)%Z then b else n
  | _ => b
  end.

(** [a < b] with [b] a number: [undefined] converts to NaN, and no
    comparison with NaN holds; [null] converts to 0. *)
Definition less_than (a : js_number) (b : Z) : bool :=
  match a with
  | js_undefined => false
  | js_null => (0 <? b)%Z
  | js_num n => (n <? b)%Z
  end.

(** * The dashboard ([src/pages/Dashboard.tsx]) *)

Module Dashboard.

Record Profile : Type := {
  id : string;
  role : string;
  organization_id : option string
}.

Record Stats : Type := {
  pendingRequests : nat;
  completedRequests : nat;
  overdueItems : nat;
  activeTasks : nat
}.

(** A row of [.select('status')]: the query loads the status column and
    nothing else, so no due date reaches the page. *)
Record status_row : Type := { status : string }.

(** What a query resolves to; [data] is null when the backend reports an
    error. *)
Record query_result : Type := { data : option (list status_row) }.

Record state : Type := {
  stats : Stats;
  loading : bool;
  console : list string
}.

Definition initial_state : state :=
  {| stats := {| pendingRequests := 0; completedRequests := 0;
                 overdueItems := 0; activeTasks := 0 |};
     loading := true;
     console := [] |}.

(** [q.data?.filter(p).length || 0]. *)
Definition count_where (p : status_row -> bool) (q : query_result) : nat :=
  match data q with
  | Some rows => num_or (List.length (filter p rows)) 0
  | None => 0
  end.

(** [loadStats], with the pair of responses of [Promise.all] as input;
    [None] for the pair is a rejected promise, which lands in [catch]. *)
Definition loadStats (profile : option Profile)
    (responses : option (query_result * query_result)) (st : state) : state :=
  match profile with
  | None => {| stats := stats st; loading := false; console := console st |}
  | Some p =>
      match responses with
      | None =>
          {| stats := stats st; loading := false;
             console := (console st ++ ["Error loading stats:"])%list |}
      | Some (requestsData, tasksData) =>
          let isClient := role p =? "client" in
          if isClient then
            let pending := count_where (fun r => (status r =? "sent")
                                        || (status r =? "in_progress")) requestsData in
            let completed := count_where (fun r => status r =? "completed") requestsData in
            let overdue := count_where (fun r => status r =? "in_progress") requestsData in
            let active := count_where (fun t => status t =? "in_progress") tasksData in
            {| stats := {| pendingRequests := pending; completedRequests := completed;
                           overdueItems := overdue; activeTasks := active |};
               loading := false; console := console st |}
          else
            let pending := count_where (fun r => (status r =? "sent")
                                        || (status r =? "in_progress")) requestsData in
            let completed := count_where (fun r => status r =? "completed") requestsData in
            let overdue := count_where (fun r => status r =? "in_progress") requestsData in
            let active := count_where (fun t => (status t =? "in_progress")
                                       || (status t =? "not_started")) tasksData in
            {| stats := {| pendingRequests := pending; completedRequests := completed;
                           overdueItems := overdue; activeTasks := active |};
               loading := false; console := console st |}
      end
  end.

(** The number of loaded requests whose status is [in_progress]. *)
Definition in_progress_requests (q : query_result) : nat :=
  match data q with
  | Some rows => count_occ string_dec (map status rows) "in_progress"
  | None => 0
  end.

End Dashboard.

(** * The approvals page ([src/pages/Approvals.tsx]) *)

Module Approvals.

Record Profile : Type := {
  p_id : string;
  p_role : string;
  p_organization_id : option string
}.

(** A row of [approvals]. *)
Record Approval : Type := {
  id : string;
  organization_id : string;
  approval_type : string;
  related_id : string;
  submitted_by : option string;
  submitted_at : string;
  reviewer_id : option string;
  reviewed_at : option string;
  action : option string;
  remarks : option string
}.

(** The page: the [approvals] table behind the backend, and the component's
    state. *)
Record page : Type := {
  table : list Approval;
  approvals : list Approval;
  loading : bool;
  filter_ : string;
  processingId : option string;
  alerts : list string;
  console : list string
}.

(** [.update({...}).eq('id', k)]: the patch goes to every row whose id is
    [k]. *)
Definition update_eq_id (k : string) (patch : Approval -> Approval)
    (tbl : list Approval) : list Approval :=
  map (fun a => if id a =? k then patch a else a) tbl.

Definition approve_patch (now reviewer : string) (a : Approval) : Approval :=
  {| id := id a; organization_id := organization_id a;
     approval_type := approval_type a; related_id := related_id a;
     submitted_by := submitted_by a; submitted_at := submitted_at a;
     reviewer_id := Some reviewer;
     reviewed_at := Some now;
     action := Some "approved";
     remarks := remarks a |}.

Definition reject_patch (now reviewer rejectionRemarks : string) (a : Approval)
  : Approval :=
  {| id := id a; organization_id := organization_id a;
     approval_type := approval_type a; related_id := related_id a;
     submitted_by := submitted_by a; submitted_at := submitted_at a;
     reviewer_id := Some reviewer;
     reviewed_at := Some now;
     action := Some "rejected";
     remarks := Some rejectionRemarks |}.

(** [loadApprovals]: without a profile or an organization id nothing is
    loaded; otherwise the query takes the rows of the profile's
    organization, narrowed by the filter ([pending] is [action IS NULL],
    [all] is everything, anything else is [action = filter]); when the
    backend reports [error] the page throws into its [catch], logs, and
    keeps the list it had.  The order by [created_at] is not kept: the rows
    stay in table order. *)
Definition loadApprovals (profile : option Profile) (error : option string)
    (pg : page) : page :=
  let org :=
    match profile with
    | Some p => if truthy (p_organization_id p) then p_organization_id p else None
    | None => None
    end in
  match org with
  | Some org =>
      match error with
      | Some _ =>
          {| table := table pg; approvals := approvals pg; loading := false;
             filter_ := filter_ pg; processingId := processingId pg;
             alerts := alerts pg;
             console := (console pg ++ ["Error loading approvals:"])%list |}
      | None =>
          let mine := filter (fun a => organization_id a =? org) (table pg) in
          let rows :=
            if filter_ pg =? "pending" then
              filter (fun a => negb (is_some (action a))) mine
            else if negb (filter_ pg =? "all") then
              filter (fun a => opt_eqb String.eqb (action a) (Some (filter_ pg))) mine
            else mine in
          {| table := table pg; approvals := rows; loading := false;
             filter_ := filter_ pg; processingId := processingId pg;
             alerts := alerts pg; console := console pg |}
      end
  | None =>
      {| table := table pg; approvals := approvals pg; loading := false;
         filter_ := filter_ pg; processingId := processingId pg;
         alerts := alerts pg; console := console pg |}
  end.

(** The outcome of one update: the backend either applies the patch, after
    which the page calls [loadApprovals] (whose own query the backend
    answers with [reload]), or reports [error], in which case the page
    throws into its [catch]. *)
Definition run_update (profile : Profile) (error reload : option string)
    (k : string) (patch : Approval -> Approval)
    (log alert : string) (pg : page) : page :=
  match error with
  | None =>
      loadApprovals (Some profile) reload
        {| table := update_eq_id k patch (table pg); approvals := approvals pg;
           loading := loading pg; filter_ := filter_ pg; processingId := None;
           alerts := alerts pg; console := console pg |}
  | Some _ =>
      {| table := table pg; approvals := approvals pg; loading := loading pg;
         filter_ := filter_ pg; processingId := None;
         alerts := (alerts pg ++ [alert])%list;
         console := (console pg ++ [log])%list |}
  end.

(** [handleApprove(id)]; [now] is [new Date().toISOString()], [error] is the
    [error] field of the backend's answer to the update, [reload] that of
    its answer to the query of the [loadApprovals] that follows. *)
Definition handleApprove (profile : option Profile) (now : string)
    (error reload : option string) (k : string) (pg : page) : page :=
  match profile with
  | None => pg
  | Some p =>
      run_update p error reload k (approve_patch now (p_id p))
        "Error approving:" "Failed to approve. Please try again." pg
  end.

(** [handleReject(id, remarks?)]; [prompted] is what [prompt(...)] returns
    when it is called (null on Cancel); [error] and [reload] as for
    [handleApprove]. *)
Definition handleReject (profile : option Profile) (now : string)
    (error reload : option string) (prompted : option string)
    (k : string) (remarks : option string) (pg : page) : page :=
  match profile with
  | None => pg
  | Some p =>
      let rejectionRemarks := if truthy remarks then remarks else prompted in
      match rejectionRemarks with
      | Some text =>
          if truthy (Some text) then
            run_update p error reload k (reject_patch now (p_id p) text)
              "Error rejecting:" "Failed to reject. Please try again." pg
          else pg
      | None => pg
      end
  end.

(** [const isPending = !approval.action]: the Approve and Reject buttons are
    rendered for these rows of the loaded list only. *)
Definition isPending (a : Approval) : bool := negb (truthy (action a)).

(** The row with id [k], as stored. *)
Definition stored (k : string) (pg : page) : option Approval :=
  find (fun a => id a =? k) (table pg).

End Approvals.

(** * The reminders page *)

Module RemindersPage.

(** The fields of a [reminders] row that the Retries column reads.  The
    page selects every column of the table; the [reminders] table of the
    migration has a [status] and neither a [retry_count] nor a
    [max_retries] column, so both read [undefined] on its rows
    ([of_migration]); the type declaration the page imports does not list
    the table. *)
Record Reminder : Type := {
  status : string;
  retry_count : js_number;
  max_retries : js_number
}.

(** A row of the [reminders] table as the migration declares it. *)
Definition of_migration (st : string) : Reminder :=
  {| status := st; retry_count := js_undefined; max_retries := js_undefined |}.

(** The Retries cell: [{retry_count || 0} / {max_retries || 3}]. *)
Definition retries_cell (r : Reminder) : Z * Z :=
  (number_or (retry_count r) 0, number_or (max_retries r) 3).

(** The Retry button is rendered when
    [status === 'failed' && retry_count < (max_retries || 3)]. *)
Definition showRetry (r : Reminder) : bool :=
  (status r =? "failed") && less_than (retry_count r) (number_or (max_retries r) 3).

End RemindersPage.

(** * The lifecycle core

    The repository holds pages and migrations only: the schedule
    calculator, the two state machines, the occurrence generator and the
    reminder engine exist in the specification alone.  The modules below
    follow its sections 3 to 7. *)

(** Modelled from the spec: the error taxonomy of section 7 (no error type
    exists in the repository); [StorageError] carries a constraint failure
    of the storage collaborator. *)
Inductive core_error : Type :=
| InvalidTransitionError
| InvalidScheduleError
| RequestClosedError
| ConcurrentModificationError
| AlreadyReviewedError
| MissingRemarksError
| StorageError (e : Schema.sql_error).

Definition core A := result core_error A.

Module Schedule.

Definition date := Z.

(** Modelled from the spec: the task type of a template or task. *)
Inductive task_type : Type := one_time | recurring.

(** Modelled from the spec: the frequencies of section 4.1. *)
Inductive frequency : Type :=
| daily | weekly | monthly | quarterly | yearly | custom.

(** Modelled from the spec: the recurrence descriptor of section 4.1 (no
    schedule calculator exists in the repository): frequency, optional
    day-rule string, start date, optional end date, and whether the rule
    belongs to a one-time or a recurring template. *)
Record rule : Type := {
  r_task_type : task_type;
  r_frequency : option frequency;
  r_day_rule : option string;
  r_start_date : date;
  r_end_date : option date
}.

(** Modelled from the spec: the date arithmetic of the calculator, which
    the spec leaves open: for [custom] it is the pluggable rule evaluator,
    a black box; for the other frequencies the spec names the inputs
    (frequency, day-rule, start date, reference date) and not the
    computation.  It maps them to the computed next date. *)
Definition evaluator : Type := frequency -> option string -> date -> date -> date.

Definition start_after_end (r : rule) : bool :=
  match r_end_date r with
  | Some e => (e <? r_start_date r)%Z
  | None => false
  end.

Definition after_end (r : rule) (d : date) : bool :=
  match r_end_date r with
  | Some e => (e <? d)%Z
  | None => false
  end.

(** Modelled from the spec: [next_occurrence(rule, after)] of section 4.1,
    absent from the repository.  It returns None when the computed next
    date would fall after the rule's end date, or when frequency is absent
    for a rule marked one_time; it fails with [InvalidScheduleError] when
    the start date is after the end date or another non-recurring rule is
    passed; a recurring rule must carry a frequency; the end-date boundary
    is enforced first, then monotonicity: a computed date that is not
    strictly after [after] is not returned. *)
Definition next_occurrence (ev : evaluator) (r : rule) (after : date)
  : core (option date) :=
  match r_task_type r, r_frequency r with
  | one_time, None => Ok None
  | one_time, Some _ => Err InvalidScheduleError
  | recurring, None => Err InvalidScheduleError
  | recurring, Some f =>
      if start_after_end r then Err InvalidScheduleError
      else
        let next := ev f (r_day_rule r) (r_start_date r) after in
        if after_end r next then Ok None
        else if (next <=? after)%Z then Err InvalidScheduleError
        else Ok (Some next)
  end.

(** The computed next date of a recurring rule with a frequency. *)
Definition computed_next (ev : evaluator) (r : rule) (after : date) : option date :=
  match r_frequency r with
  | Some f => Some (ev f (r_day_rule r) (r_start_date r) after)
  | None => None
  end.

(** A rule the calculator accepts: recurring, with a frequency, and a start
    date that is not after the end date. *)
Definition well_formed (r : rule) : Prop :=
  r_task_type r = recurring /\ r_frequency r <> None /\ start_after_end r = false.

(** An evaluator for the examples: a day, a week, thirty days, ninety days
    and a year of 365 days after the reference date; [custom] a fortnight. *)
Definition fixed_steps : evaluator :=
  fun f _ _ after =>
    match f with
    | daily => (after + 1)%Z
    | weekly => (after + 7)%Z
    | monthly => (after + 30)%Z
    | quarterly => (after + 90)%Z
    | yearly => (after + 365)%Z
    | custom => (after + 14)%Z
    end.

End Schedule.

Module Generator.

Import Schedule.

(** Modelled from the spec: the Task of section 3 as the generator of
    section 4.4 reads it (the repository has the table and no generator):
    identity, schedule rule, next run date, and the SLA in days from which
    an occurrence's due date derives. *)
Record task : Type := {
  task_id : Schema.uuid;
  task_rule : rule;
  next_run_date : option date;
  sla_days : Z
}.

Definition set_next_run (t : task) (d : option date) : task :=
  {| task_id := task_id t; task_rule := task_rule t;
     next_run_date := d; sla_days := sla_days t |}.

(** Modelled from the spec: the occurrence the generator creates, with
    occurrence_date = next_run_date and due_date = occurrence_date + SLA
    days; the row type is the migration's, and status is left to the
    column's default. *)
Definition occurrence_row (t : task) (d : date) : Schema.task_occurrences_row :=
  {| Schema.o_task_id := Some (task_id t);
     Schema.o_occurrence_date := Some d;
     Schema.o_due_date := Some (d + sla_days t)%Z;
     Schema.o_status := None;
     Schema.o_completed_at := None;
     Schema.o_notes := None |}.

(** Modelled from the spec: creating the occurrence (section 4.4).  The
    insert is the migration's; a duplicate attempt, which the UNIQUE
    constraint refuses, is treated as a no-op, not an error. *)
Definition create_occurrence (t : task) (d : date)
    (occs : list Schema.task_occurrences_row)
  : core (list Schema.task_occurrences_row) :=
  match Schema.insert_task_occurrence false (occurrence_row t d) occs with
  | Ok occs' => Ok occs'
  | Err (Schema.unique_violation _) => Ok occs
  | Err e => Err (StorageError e)
  end.

(** Modelled from the spec: one run of the occurrence generator on a task
    (section 4.4, absent from the repository).  For a recurring task with
    next_run_date <= the evaluation time it creates the occurrence, then
    advances next_run_date with the schedule calculator; a schedule error
    rejects the operation without mutating anything.  Any other task is
    left alone. *)
Definition generate (ev : evaluator) (now : date) (t : task)
    (occs : list Schema.task_occurrences_row)
  : core (task * list Schema.task_occurrences_row) :=
  match r_task_type (task_rule t), next_run_date t with
  | recurring, Some d =>
      if (d <=? now)%Z then
        do occs' <- create_occurrence t d occs ;;
        do next <- next_occurrence ev (task_rule t) d ;;
        Ok (set_next_run t next, occs')
      else Ok (t, occs)
  | _, _ => Ok (t, occs)
  end.

(** The UNIQUE constraint as a property of a table: no key is held by two
    rows. *)
Definition unique_occurrences (occs : list Schema.task_occurrences_row) : Prop :=
  forall k d, (List.length (Schema.occurrences_of k d occs) <= 1)%nat.

End Generator.

Module Items.

Definition time := Z.

(** Modelled from the spec: the states of a checklist item (section 4.2). *)
Inductive status : Type :=
| not_received | received | under_review | approved | rejected | re_requested.

Definition status_eqb (a b : status) : bool :=
  match a, b with
  | not_received, not_received | received, received
  | under_review, under_review | approved, approved
  | rejected, rejected | re_requested, re_requested => true
  | _, _ => false
  end.

(** Modelled from the spec: the Request Checklist Item of section 3 (the
    repository has the table and no state machine), with the internal
    request-cycle counter of section 4.2. *)
Record item : Type := {
  item_id : string;
  is_mandatory : bool;
  state : status;
  submitted_at : option time;
  reviewed_at : option time;
  reviewed_by : option string;
  request_cycle : nat
}.

(** Modelled from the spec: what the two actors of section 4.2 do: the
    client submits a document; a reviewer takes an item under review,
    approves, rejects or re-requests it. *)
Inductive action : Type :=
| submit (now : time)
| start_review
| approve (reviewer : string) (now : time)
| reject (reviewer : string) (now : time)
| re_request (reviewer : string) (now : time).

(** Modelled from the spec: the change event (old_state, new_state,
    item_id) the state machine emits. *)
Record change_event : Type := {
  old_state : status;
  new_state : status;
  changed_item : string
}.

Definition awaiting_review (s : status) : bool :=
  match s with
  | received | under_review => true
  | _ => false
  end.

Definition reviewed (it : item) (s : status) (reviewer : string) (now : time) : item :=
  {| item_id := item_id it; is_mandatory := is_mandatory it; state := s;
     submitted_at := submitted_at it;
     reviewed_at := Some now; reviewed_by := Some reviewer;
     request_cycle := request_cycle it |}.

(** Modelled from the spec: the transitions of section 4.2, absent from the
    repository.  The client moves not_received or re_requested to received;
    a reviewer moves received or under_review to approved, rejected or
    re_requested; approved and rejected set reviewed_by and reviewed_at;
    re_requested clears submitted_at and increments the request cycle;
    every other move, not_received to approved among them, fails with
    [InvalidTransitionError]. *)
Definition step (it : item) (a : action) : core item :=
  match a with
  | submit now =>
      match state it with
      | not_received | re_requested =>
          Ok {| item_id := item_id it; is_mandatory := is_mandatory it;
                state := received; submitted_at := Some now;
                reviewed_at := reviewed_at it; reviewed_by := reviewed_by it;
                request_cycle := request_cycle it |}
      | _ => Err InvalidTransitionError
      end
  | start_review =>
      match state it with
      | received =>
          Ok {| item_id := item_id it; is_mandatory := is_mandatory it;
                state := under_review; submitted_at := submitted_at it;
                reviewed_at := reviewed_at it; reviewed_by := reviewed_by it;
                request_cycle := request_cycle it |}
      | _ => Err InvalidTransitionError
      end
  | approve reviewer now =>
      if awaiting_review (state it) then Ok (reviewed it approved reviewer now)
      else Err InvalidTransitionError
  | reject reviewer now =>
      if awaiting_review (state it) then Ok (reviewed it rejected reviewer now)
      else Err InvalidTransitionError
  | re_request reviewer now =>
      if awaiting_review (state it) then
        Ok {| item_id := item_id it; is_mandatory := is_mandatory it;
              state := re_requested; submitted_at := None;
              reviewed_at := Some now; reviewed_by := Some reviewer;
              request_cycle := S (request_cycle it) |}
      else Err InvalidTransitionError
  end.

(** The item carries id [k]. *)
Definition has_id (k : string) (it : item) : bool := item_id it =? k.

End Items.

Module Requests.

Import Items.

(** Modelled from the spec: the statuses of a Data Request (section 3). *)
Inductive status : Type := draft | sent | in_progress | completed | cancelled.

(** Modelled from the spec: the Data Request of section 3 as its state
    machine reads it (the repository creates drafts and has no state
    machine): the explicit facts (sent or not, cancelled or not, the three
    channel switches) and the checklist items; the status is derived. *)
Record request : Type := {
  request_id : string;
  client_id : string;
  sent_at : option time;
  is_cancelled : bool;
  enable_email : bool;
  enable_whatsapp : bool;
  enable_voice : bool;
  items : list item
}.

(** Modelled from the spec: the completion condition of section 4.3: every
    mandatory item is approved; the other items are not looked at. *)
Definition mandatory_approved (its : list item) : bool :=
  forallb (fun it => implb (is_mandatory it) (status_eqb (state it) approved)) its.

(** Modelled from the spec: no item has progressed past not_received
    (section 4.3, the condition of sent). *)
Definition none_received (its : list item) : bool :=
  forallb (fun it => status_eqb (state it) not_received) its.

(** Modelled from the spec: the derivation over the items of a request that
    has been sent and not cancelled (section 4.3): completed when every
    mandatory item is approved, sent while no item is received yet,
    in_progress otherwise. *)
Definition derive (its : list item) : status :=
  if mandatory_approved its then completed
  else if none_received its then sent
  else in_progress.

(** Modelled from the spec: the status of a request (section 4.3).
    cancelled is an explicit terminal action and draft lasts until the
    request is explicitly sent; in between the status is derived from the
    items whenever it is read. *)
Definition derive_status (r : request) : status :=
  if is_cancelled r then cancelled
  else
    match sent_at r with
    | None => draft
    | Some _ => derive (items r)
    end.

Definition with_items (r : request) (its : list item) : request :=
  {| request_id := request_id r; client_id := client_id r; sent_at := sent_at r;
     is_cancelled := is_cancelled r; enable_email := enable_email r;
     enable_whatsapp := enable_whatsapp r; enable_voice := enable_voice r;
     items := its |}.

Definition any_channel (r : request) : bool :=
  enable_email r || enable_whatsapp r || enable_voice r.

(** Modelled from the spec: the transition to sent, permitted from draft
    only and with at least one channel enabled. *)
Definition send (now : time) (r : request) : core request :=
  match derive_status r with
  | draft =>
      if any_channel r then
        Ok {| request_id := request_id r; client_id := client_id r;
              sent_at := Some now; is_cancelled := is_cancelled r;
              enable_email := enable_email r; enable_whatsapp := enable_whatsapp r;
              enable_voice := enable_voice r; items := items r |}
      else Err InvalidTransitionError
  | _ => Err InvalidTransitionError
  end.

(** Modelled from the spec: a cancelled or completed request is closed:
    mutating it fails with [RequestClosedError]. *)
Definition closed (r : request) : bool :=
  match derive_status r with
  | cancelled | completed => true
  | _ => false
  end.

(** Modelled from the spec: manual cancellation. *)
Definition cancel (r : request) : core request :=
  if closed r then Err RequestClosedError
  else
    Ok {| request_id := request_id r; client_id := client_id r;
          sent_at := sent_at r; is_cancelled := true;
          enable_email := enable_email r; enable_whatsapp := enable_whatsapp r;
          enable_voice := enable_voice r; items := items r |}.

(** Modelled from the spec: the step of one item of a request (section
    4.2): the first item with id [k] takes the step; no such item is an
    invalid transition. *)
Fixpoint step_item (k : string) (a : action) (its : list item)
  : core (list item * change_event) :=
  match its with
  | [] => Err InvalidTransitionError
  | it :: rest =>
      if item_id it =? k then
        do it' <- step it a ;;
        Ok (it' :: rest,
            {| old_state := state it; new_state := state it'; changed_item := k |})
      else
        do res <- step_item k a rest ;;
        Ok (it :: fst res, snd res)
  end.

(** Modelled from the spec: an item transition under its request (sections
    4.2 and 4.3): refused with [RequestClosedError] on a closed request,
    otherwise the item's own step; the request's status is derived anew
    from the changed items. *)
Definition item_transition (r : request) (k : string) (a : action)
  : core (request * change_event) :=
  if closed r then Err RequestClosedError
  else
    do res <- step_item k a (items r) ;;
    Ok (with_items r (fst res), snd res).

(** Modelled from the spec: a transition attempt (section 7): an error is
    surfaced to the caller and the request is not mutated. *)
Definition attempt (r : request) (ka : string * action) : request :=
  match item_transition r (fst ka) (snd ka) with
  | Ok res => fst res
  | Err _ => r
  end.

(** Modelled from the spec: a sequence of transition attempts, the
    "sequence of item transitions" of section 8. *)
Definition run (r : request) (kas : list (string * action)) : request :=
  fold_left attempt kas r.

(** The approvals of the listed items by one reviewer, in list order. *)
Definition approvals (reviewer : string) (now : time) (ks : list string)
  : list (string * action) :=
  map (fun k => (k, approve reviewer now)) ks.

(** An item after an attempt on it: stepped if the step is valid, the same
    otherwise. *)
Definition step_or_same (it : item) (a : action) : item :=
  match step it a with
  | Ok it' => it'
  | Err _ => it
  end.

(** The items after an attempt on an open request: the first item with id
    [k] takes the step if it can, and nothing changes otherwise. *)
Fixpoint apply_in (k : string) (a : action) (its : list item) : list item :=
  match its with
  | [] => []
  | it :: rest =>
      if item_id it =? k then
        match step it a with
        | Ok it' => it' :: rest
        | Err _ => it :: rest
        end
      else it :: apply_in k a rest
  end.

(** Two requests that are the same, or both closed with the same status:
    what two orders of the same attempts lead to. *)
Definition same_outcome (r1 r2 : request) : Prop :=
  r1 = r2
  \/ (closed r1 = true /\ closed r2 = true /\ derive_status r1 = derive_status r2).

End Requests.

Module Reminders.

Definition time := Z.

(** Modelled from the spec: the channels of a Reminder (section 3). *)
Inductive channel : Type := email | whatsapp | sms | voice | in_app.

(** Modelled from the spec: the reminder types task, request,
    document_expiry and custom. *)
Inductive reminder_type : Type :=
| task_reminder | request_reminder | document_expiry | custom_reminder.

(** Modelled from the spec: the statuses of a Reminder (section 3). *)
Inductive status : Type := pending | sent | failed | cancelled.

Definition status_eqb (a b : status) : bool :=
  match a, b with
  | pending, pending | sent, sent | failed, failed | cancelled, cancelled => true
  | _, _ => false
  end.

(** Modelled from the spec: the Reminder of section 3 (the repository's
    migration has the table without the retry columns, and no engine). *)
Record reminder : Type := {
  reminder_id : nat;
  kind : reminder_type;
  related_id : string;
  recipient : string;
  via : channel;
  scheduled_at : time;
  sent_at : option time;
  state : status;
  retry_count : nat;
  max_retries : nat
}.

(** Modelled from the spec: the answer of a channel sender,
    [Result<Sent, DispatchFailure>]. *)
Inductive dispatch_result : Type := Sent | DispatchFailure.

(** Modelled from the spec: the escalation event raised when the retries
    are exhausted. *)
Inductive event : Type := Escalation (reminder_id : nat).

(** Modelled from the spec: the backoff policy, a configuration parameter:
    the delay before the retry that follows the given number of failures. *)
Definition backoff_policy : Type := nat -> time.

Definition mark_sent (now : time) (r : reminder) : reminder :=
  {| reminder_id := reminder_id r; kind := kind r; related_id := related_id r;
     recipient := recipient r; via := via r; scheduled_at := scheduled_at r;
     sent_at := Some now; state := sent;
     retry_count := retry_count r; max_retries := max_retries r |}.

Definition retried (r : reminder) (n : nat) (at_ : time) (s : status) : reminder :=
  {| reminder_id := reminder_id r; kind := kind r; related_id := related_id r;
     recipient := recipient r; via := via r; scheduled_at := at_;
     sent_at := sent_at r; state := s;
     retry_count := n; max_retries := max_retries r |}.

(** Modelled from the spec: the failure branch of the dispatch contract
    (section 4.5), read with the invariant of section 3 that retry_count
    never exceeds max_retries: increment retry_count, unless no retry is
    left (retry_count has reached max_retries already); if retry_count <
    max_retries, reschedule after the backoff, status remaining pending;
    if retry_count = max_retries, set status failed and emit an escalation
    event. *)
Definition on_failure (backoff : backoff_policy) (now : time) (r : reminder)
  : reminder * list event :=
  let n := if (retry_count r <? max_retries r)%nat
           then S (retry_count r) else retry_count r in
  if (n <? max_retries r)%nat then
    (retried r n (now + backoff n)%Z (state r), [])
  else
    (retried r n (scheduled_at r) failed, [Escalation (reminder_id r)]).

(** Modelled from the spec: what a sweep picks up (section 5): reminders
    with scheduled_at <= now and status pending; the status is read right
    before dispatch, so a cancelled reminder is dropped. *)
Definition due (now : time) (r : reminder) : bool :=
  status_eqb (state r) pending && (scheduled_at r <=? now)%Z.

(** Modelled from the spec: one visit of the periodic sweep (section 5) to
    a reminder: the time of the visit and what the channel sender answers
    if it is called. *)
Record visit : Type := {
  at_time : time;
  answer : dispatch_result
}.

(** What a visit leaves: the reminder, whether the sender was called, and
    the events emitted. *)
Record outcome : Type := {
  after : reminder;
  dispatched : bool;
  emitted : list event
}.

(** Modelled from the spec: one dispatch attempt of the sweep (sections 4.5
    and 5), absent from the repository: a reminder that is not due is left
    alone without calling the sender; on success status is sent and sent_at
    is now; on failure [on_failure]. *)
Definition dispatch (backoff : backoff_policy) (v : visit) (r : reminder) : outcome :=
  if due (at_time v) r then
    match answer v with
    | Sent => {| after := mark_sent (at_time v) r; dispatched := true; emitted := [] |}
    | DispatchFailure =>
        let res := on_failure backoff (at_time v) r in
        {| after := fst res; dispatched := true; emitted := snd res |}
    end
  else {| after := r; dispatched := false; emitted := [] |}.

(** Modelled from the spec: a sequence of dispatch attempts, as successive
    sweeps make them: the final reminder, the number of calls to the
    sender, the events in order. *)
Fixpoint run (backoff : backoff_policy) (vs : list visit) (r : reminder)
  : reminder * nat * list event :=
  match vs with
  | [] => (r, 0%nat, [])
  | v :: rest =>
      let o := dispatch backoff v r in
      let '(r', n, es) := run backoff rest (after o) in
      (r', ((if dispatched o then 1 else 0) + n)%nat, (emitted o ++ es)%list)
  end.

(** Modelled from the spec: the states that end dispatching (section 3):
    cancelled, or failed with retry_count equal to max_retries. *)
Definition exhausted (r : reminder) : bool :=
  status_eqb (state r) cancelled
  || (status_eqb (state r) failed && (retry_count r =? max_retries r)%nat).

(** Modelled from the spec: the reminders held by the storage
    collaborator, with the next free id. *)
Record store : Type := {
  reminders : list reminder;
  next_id : nat
}.

(** Modelled from the spec: a newly scheduled reminder: pending, not sent,
    retry_count 0. *)
Definition fresh (n : nat) (related to : string) (ch : channel) (now : time)
    (limit : nat) : reminder :=
  {| reminder_id := n; kind := request_reminder; related_id := related;
     recipient := to; via := ch; scheduled_at := now; sent_at := None;
     state := pending; retry_count := 0; max_retries := limit |}.

(** Modelled from the spec: scheduling a reminder cycle (section 4.5): one
    fresh reminder per channel, ids taken from the store. *)
Fixpoint schedule_on (chs : list channel) (related to : string) (now : time)
    (limit : nat) (s : store) : store :=
  match chs with
  | [] => s
  | ch :: rest =>
      schedule_on rest related to now limit
        {| reminders := (reminders s ++ [fresh (next_id s) related to ch now limit])%list;
           next_id := S (next_id s) |}
  end.

Definition cancel_one (r : reminder) : reminder :=
  {| reminder_id := reminder_id r; kind := kind r; related_id := related_id r;
     recipient := recipient r; via := via r; scheduled_at := scheduled_at r;
     sent_at := sent_at r; state := cancelled;
     retry_count := retry_count r; max_retries := max_retries r |}.

(** Modelled from the spec: cancelling the pending reminders of an item
    that reached approved or rejected. *)
Definition cancel_for (related : string) (s : store) : store :=
  {| reminders :=
       map (fun r => if (related_id r =? related) && status_eqb (state r) pending
                     then cancel_one r else r) (reminders s);
     next_id := next_id s |}.

(** The reminder after a sequence of visits, and the number of calls to
    the sender the sequence made. *)
Definition final (backoff : backoff_policy) (vs : list visit) (r : reminder)
  : reminder := fst (fst (run backoff vs r)).

Definition attempts (backoff : backoff_policy) (vs : list visit) (r : reminder)
  : nat := snd (fst (run backoff vs r)).

(** Modelled from the spec: the invariant of section 3: retry_count never
    exceeds max_retries. *)
Definition within_limit (r : reminder) : Prop :=
  (retry_count r <= max_retries r)%nat.

End Reminders.

Module Lifecycle.

(** Modelled from the spec: the channels a request has enabled, in the
    order email, whatsapp, voice. *)
Definition enabled_channels (r : Requests.request) : list Reminders.channel :=
  ((if Requests.enable_email r then [Reminders.email] else [])
   ++ (if Requests.enable_whatsapp r then [Reminders.whatsapp] else [])
   ++ (if Requests.enable_voice r then [Reminders.voice] else []))%list.

(** Modelled from the spec: the reminder engine's reaction to an item's
    change event (sections 4.2 and 4.5): an item that becomes re_requested
    gets a fresh reminder cycle, one reminder per enabled channel with
    retry_count 0, new reminders and not retries of old ones; an item that
    becomes approved or rejected has its pending reminders cancelled. *)
Definition on_item_event (limit : nat) (now : Reminders.time)
    (r : Requests.request) (e : Items.change_event) (s : Reminders.store)
  : Reminders.store :=
  match Items.new_state e with
  | Items.re_requested =>
      Reminders.schedule_on (enabled_channels r) (Items.changed_item e)
        (Requests.client_id r) now limit s
  | Items.approved | Items.rejected =>
      Reminders.cancel_for (Items.changed_item e) s
  | _ => s
  end.

(** Modelled from the spec: an item transition with the reminder engine
    consuming its change event. *)
Definition transition (limit : nat) (now : Reminders.time)
    (r : Requests.request) (k : string) (a : Items.action) (s : Reminders.store)
  : core (Requests.request * Reminders.store) :=
  do res <- Requests.item_transition r k a ;;
  Ok (fst res, on_item_event limit now (fst res) (snd res) s).

End Lifecycle.

(** * More of the pages and of the schema *)

Module SchemaInvariants.

Import Schema.

(** What the constraints of [users] say of a stored row: its id is known
    to [auth.users], its organization (if any) exists, its role is one of
    the five. *)
Definition user_ok (d : db) (u : users_row) : Prop :=
  uuid_in (u_id u) (auth_users d) = true
  /\ fk_ok (u_organization_id u) (organizations d) = true
  /\ text_in (u_role u) user_roles = true.

(** What the constraints of [client_folders] say of a stored row: a name,
    a folder type of the CHECK list (or none), and the three references
    resolved. *)
Definition folder_ok (d : db) (f : client_folders_row) : Prop :=
  is_some (cf_name f) = true
  /\ check_in (cf_folder_type f) folder_type_values = true
  /\ fk_ok (cf_organization_id f) (organizations d) = true
  /\ fk_ok (cf_client_id f) (map u_id (users d)) = true
  /\ fk_ok (cf_created_by f) (map u_id (users d)) = true.

(** A database in which the constraints of the two tables hold. *)
Definition consistent (d : db) : Prop :=
  NoDup (map u_id (users d))
  /\ NoDup (map u_email (users d))
  /\ Forall (user_ok d) (users d)
  /\ Forall (folder_ok d) (client_folders d).

(** The row constraints of [tasks] hold of every row. *)
Definition tasks_valid (tbl : list tasks_row) : Prop :=
  Forall (fun r => tasks_row_ok r = Ok tt) tbl.

End SchemaInvariants.

Module DashboardView.

Import Dashboard.

(** The rows a response carries, none when [data] is null. *)
Definition rows (q : query_result) : list status_row :=
  match data q with
  | Some rs => rs
  | None => []
  end.

(** How many of the loaded rows have the given status. *)
Definition with_status (s : string) (q : query_result) : nat :=
  count_occ string_dec (map status (rows q)) s.

(** [profile?.role && ['super_admin', 'admin', 'manager',
    'team_member'].includes(profile.role)], as the condition of the
    subtitle. *)
Definition isAdmin (profile : option Profile) : bool :=
  match profile with
  | Some p =>
      truthy (Some (role p))
      && text_in (role p) ["super_admin"; "admin"; "manager"; "team_member"]
  | None => false
  end.

(** The two fields of the profile the greeting reads. *)
Record Person : Type := {
  full_name : option string;
  email : option string
}.

(** [s.split('@')[0]]: the part of [s] before its first [@], all of [s]
    when it has none. *)
Fixpoint before_at (s : string) : string :=
  match s with
  | EmptyString => EmptyString
  | String c rest =>
      if Ascii.eqb c "@"%char then EmptyString else String c (before_at rest)
  end.

(** No character of [s] is [@]. *)
Fixpoint before_at_free (s : string) : Prop :=
  match s with
  | EmptyString => True
  | String c rest => c <> "@"%char /\ before_at_free rest
  end.

(** [profile?.full_name || profile?.email?.split('@')[0] || 'there']. *)
Definition welcome_name (profile : option Person) : string :=
  let name := match profile with Some x => full_name x | None => None end in
  let local :=
    match profile with
    | Some x => option_map before_at (email x)
    | None => None
    end in
  match name with
  | Some n =>
      if truthy (Some n) then n
      else match local with
           | Some l => if truthy (Some l) then l else "there"
           | None => "there"
           end
  | None =>
      match local with
      | Some l => if truthy (Some l) then l else "there"
      | None => "there"
      end
  end.

End DashboardView.

Module ApprovalsView.

Import Approvals.

(** [const pendingCount = approvals.filter((a) => !a.action).length]. *)
Definition pendingCount (pg : page) : nat :=
  List.length (filter (fun a => negb (truthy (action a))) (approvals pg)).

End ApprovalsView.

(** * The reminders page, its list *)

Module RemindersList.

(** A row of [.select('id, full_name, email')] on [users]. *)
Record User : Type := {
  id : string;
  full_name : string;
  email : string
}.

(** A row of [reminders] as the page lists it; the three fields of the
    retry column are [RemindersPage.Reminder]. *)
Record row : Type := {
  r_id : string;
  organization_id : string;
  reminder_type : string;
  recipient_id : option string;
  channel : string;
  scheduled_at : string;
  message_subject : option string;
  retry : RemindersPage.Reminder
}.

Definition status (r : row) : string := RemindersPage.status (retry r).

(** The page: the two tables behind the backend and the component's state. *)
Record page : Type := {
  reminders_table : list row;
  users_table : list Schema.users_row;
  reminders : list row;
  users : list User;
  loading : bool;
  statusFilter : string;
  channelFilter : string;
  console : list string
}.

Definition set_loaded (pg : page) (rs : list row) : page :=
  {| reminders_table := reminders_table pg; users_table := users_table pg;
     reminders := rs; users := users pg; loading := false;
     statusFilter := statusFilter pg; channelFilter := channelFilter pg;
     console := console pg |}.

Definition stop_loading (pg : page) (log : list string) : page :=
  {| reminders_table := reminders_table pg; users_table := users_table pg;
     reminders := reminders pg; users := users pg; loading := false;
     statusFilter := statusFilter pg; channelFilter := channelFilter pg;
     console := (console pg ++ log)%list |}.

(** [loadReminders]: without a profile or an organization id nothing is
    loaded; the query takes the rows of the organization, narrowed by the
    status filter and by the channel filter unless they are [all]; when the
    backend reports [error] the page throws into its [catch] and keeps the
    list it had.  The order by [scheduled_at] is not kept: the rows stay in
    table order. *)
Definition loadReminders (profile : option Approvals.Profile)
    (error : option string) (pg : page) : page :=
  let org :=
    match profile with
    | Some p =>
        if truthy (Approvals.p_organization_id p)
        then Approvals.p_organization_id p else None
    | None => None
    end in
  match org with
  | None => stop_loading pg []
  | Some org =>
      match error with
      | Some _ => stop_loading pg ["Error loading reminders:"]
      | None =>
          let q0 := filter (fun r => organization_id r =? org) (reminders_table pg) in
          let q1 :=
            if negb (statusFilter pg =? "all")
            then filter (fun r => status r =? statusFilter pg) q0 else q0 in
          let q2 :=
            if negb (channelFilter pg =? "all")
            then filter (fun r => channel r =? channelFilter pg) q1 else q1 in
          set_loaded pg q2
      end
  end.

(** [loadUsers]: the active users of the profile's organization, with the
    three selected columns; [data] null (the backend's failure) keeps the
    list the page had. *)
Definition loadUsers (profile : option Approvals.Profile) (failed : bool)
    (pg : page) : page :=
  let org :=
    match profile with
    | Some p =>
        if truthy (Approvals.p_organization_id p)
        then Approvals.p_organization_id p else None
    | None => None
    end in
  match org with
  | None => pg
  | Some org =>
      if failed then pg
      else
        {| reminders_table := reminders_table pg; users_table := users_table pg;
           reminders := reminders pg;
           users :=
             map (fun u => {| id := Schema.u_id u; full_name := Schema.u_full_name u;
                              email := Schema.u_email u |})
                 (filter (fun u => opt_eqb String.eqb (Schema.u_organization_id u) (Some org)
                                   && Schema.u_is_active u)
                         (users_table pg));
           loading := loading pg; statusFilter := statusFilter pg;
           channelFilter := channelFilter pg; console := console pg |}
  end.

(** [getUserName(userId)]. *)
Definition getUserName (us : list User) (userId : option string) : string :=
  if negb (truthy userId) then "Unknown"
  else
    match userId with
    | None => "Unknown"
    | Some k =>
        match find (fun u => id u =? k) us with
        | Some u => if truthy (Some (full_name u)) then full_name u else "Unknown"
        | None => "Unknown"
        end
    end.

(** The three counters above the list, computed from the loaded list:
    [reminders.filter((r) => r.status === s).length]. *)
Record Stats : Type := {
  pending : nat;
  sent : nat;
  failed : nat
}.

Definition stats (pg : page) : Stats :=
  {| pending := List.length (filter (fun r => status r =? "pending") (reminders pg));
     sent := List.length (filter (fun r => status r =? "sent") (reminders pg));
     failed := List.length (filter (fun r => status r =? "failed") (reminders pg)) |}.

End RemindersList.

(** * Concrete data for the examples *)

Module Examples.

Definition example_db : Schema.db :=
  {| Schema.auth_users := ["u-1"; "u-2"];
     Schema.organizations := ["org-1"];
     Schema.users :=
       [{| Schema.u_id := "u-1"; Schema.u_organization_id := Some "org-1";
           Schema.u_email := "admin@firm.example"; Schema.u_full_name := "Admin";
           Schema.u_phone := None; Schema.u_role := "admin";
           Schema.u_is_active := true |}];
     Schema.client_folders := [] |}.

Definition example_client : Schema.users_row :=
  {| Schema.u_id := "u-2"; Schema.u_organization_id := Some "org-1";
     Schema.u_email := "client@firm.example"; Schema.u_full_name := "Client";
     Schema.u_phone := None; Schema.u_role := "client";
     Schema.u_is_active := true |}.

Definition reviewer_one : Approvals.Profile :=
  {| Approvals.p_id := "rev-1"; Approvals.p_role := "manager";
     Approvals.p_organization_id := Some "org-1" |}.

Definition reviewer_two : Approvals.Profile :=
  {| Approvals.p_id := "rev-2"; Approvals.p_role := "admin";
     Approvals.p_organization_id := Some "org-1" |}.

Definition pending_approval : Approvals.Approval :=
  {| Approvals.id := "a-1"; Approvals.organization_id := "org-1";
     Approvals.approval_type := "document"; Approvals.related_id := "doc-1";
     Approvals.submitted_by := Some "u-2";
     Approvals.submitted_at := "2024-02-01T09:00:00.000Z";
     Approvals.reviewer_id := None; Approvals.reviewed_at := None;
     Approvals.action := None; Approvals.remarks := None |}.

Definition rejected_approval : Approvals.Approval :=
  {| Approvals.id := "a-1"; Approvals.organization_id := "org-1";
     Approvals.approval_type := "document"; Approvals.related_id := "doc-1";
     Approvals.submitted_by := Some "u-2";
     Approvals.submitted_at := "2024-02-01T09:00:00.000Z";
     Approvals.reviewer_id := Some "rev-1";
     Approvals.reviewed_at := Some "2024-02-01T10:00:00.000Z";
     Approvals.action := Some "rejected";
     Approvals.remarks := Some "illegible" |}.

Definition page_with (rows : list Approvals.Approval) : Approvals.page :=
  {| Approvals.table := rows; Approvals.approvals := rows;
     Approvals.loading := false; Approvals.filter_ := "all";
     Approvals.processingId := None; Approvals.alerts := [];
     Approvals.console := [] |}.

Definition one_time_task_with_run_date : Schema.tasks_row :=
  {| Schema.t_id := "t-1"; Schema.t_organization_id := Some "org-1";
     Schema.t_template_id := None; Schema.t_client_id := None;
     Schema.t_name := Some "Collect KYC"; Schema.t_description := None;
     Schema.t_task_type := Some "one_time";
     Schema.t_schedule_frequency := None; Schema.t_schedule_day_rule := None;
     Schema.t_schedule_start_date := None; Schema.t_schedule_end_date := None;
     Schema.t_next_run_date := Some 19754%Z;
     Schema.t_task_manager_id := None; Schema.t_priority := None;
     Schema.t_status := None; Schema.t_due_date := None |}.

Definition one_time_task : Schema.tasks_row :=
  Schema.set_next_run_date None one_time_task_with_run_date.

(** An INSERT that leaves [priority] and [status] to their defaults, and one
    that names both columns. *)
Definition defaults_left_out : Schema.tasks_columns :=
  {| Schema.names_priority := false; Schema.names_status := false |}.

Definition defaults_named : Schema.tasks_columns :=
  {| Schema.names_priority := true; Schema.names_status := true |}.

(** Daily from day 19723 (2024-01-01) to day 19730. *)
Definition daily_week : Schedule.rule :=
  {| Schedule.r_task_type := Schedule.recurring;
     Schedule.r_frequency := Some Schedule.daily;
     Schedule.r_day_rule := None;
     Schedule.r_start_date := 19723%Z;
     Schedule.r_end_date := Some 19730%Z |}.

Definition daily_task : Generator.task :=
  {| Generator.task_id := "t-9"; Generator.task_rule := daily_week;
     Generator.next_run_date := Some 19725%Z; Generator.sla_days := 7%Z |}.

(** A fresh email reminder with three retries, and three visits at which
    the sender fails, followed by one at which it would succeed. *)
Definition email_reminder : Reminders.reminder :=
  Reminders.fresh 1 "item-1" "u-2" Reminders.email 100%Z 3.

(** A fresh reminder that is given no retry at all. *)
Definition single_shot_reminder : Reminders.reminder :=
  Reminders.fresh 2 "item-1" "u-2" Reminders.sms 100%Z 0.

Definition no_backoff : Reminders.backoff_policy := fun _ => 0%Z.

Definition failing_visits : list Reminders.visit :=
  [ {| Reminders.at_time := 100%Z; Reminders.answer := Reminders.DispatchFailure |};
    {| Reminders.at_time := 101%Z; Reminders.answer := Reminders.DispatchFailure |};
    {| Reminders.at_time := 102%Z; Reminders.answer := Reminders.DispatchFailure |} ].

Definition late_visit : Reminders.visit :=
  {| Reminders.at_time := 103%Z; Reminders.answer := Reminders.Sent |}.

(** A sent request over email and voice with one mandatory item under
    review and one optional item not yet received; a store whose earlier
    reminder for the item has used up its retries. *)
Definition item_a : Items.item :=
  {| Items.item_id := "item-a"; Items.is_mandatory := true;
     Items.state := Items.under_review; Items.submitted_at := Some 90%Z;
     Items.reviewed_at := None; Items.reviewed_by := None;
     Items.request_cycle := 0 |}.

Definition item_b : Items.item :=
  {| Items.item_id := "item-b"; Items.is_mandatory := false;
     Items.state := Items.not_received; Items.submitted_at := None;
     Items.reviewed_at := None; Items.reviewed_by := None;
     Items.request_cycle := 0 |}.

Definition sent_request : Requests.request :=
  {| Requests.request_id := "REQ-1"; Requests.client_id := "u-2";
     Requests.sent_at := Some 80%Z; Requests.is_cancelled := false;
     Requests.enable_email := true; Requests.enable_whatsapp := false;
     Requests.enable_voice := true; Requests.items := [item_a; item_b] |}.

(** A request that has not been sent, with one mandatory item; the
    client's submission of that item and a reviewer's approval of it. *)
Definition unsent_item : Items.item :=
  {| Items.item_id := "item-c"; Items.is_mandatory := true;
     Items.state := Items.not_received; Items.submitted_at := None;
     Items.reviewed_at := None; Items.reviewed_by := None;
     Items.request_cycle := 0 |}.

Definition draft_request : Requests.request :=
  {| Requests.request_id := "REQ-2"; Requests.client_id := "u-2";
     Requests.sent_at := None; Requests.is_cancelled := false;
     Requests.enable_email := true; Requests.enable_whatsapp := false;
     Requests.enable_voice := false; Requests.items := [unsent_item] |}.

Definition submit_and_approve : list (string * Items.action) :=
  [("item-c", Items.submit 100%Z); ("item-c", Items.approve "rev-1" 130%Z)].

Definition worn_out_store : Reminders.store :=
  {| Reminders.reminders :=
       [Reminders.retried
          (Reminders.fresh 0 "item-a" "u-2" Reminders.email 80%Z 3) 3 80%Z
          Reminders.failed];
     Reminders.next_id := 1 |}.


End Examples.

(** More concrete data. *)

Module MoreExamples.

Definition bare_occurrence : Schema.task_occurrences_row :=
  {| Schema.o_task_id := None; Schema.o_occurrence_date := Some 19725%Z;
     Schema.o_due_date := Some 19732%Z; Schema.o_status := None;
     Schema.o_completed_at := None; Schema.o_notes := None |}.

Definition first_occurrence : Schema.task_occurrences_row :=
  {| Schema.o_task_id := Some "t-9"; Schema.o_occurrence_date := Some 19725%Z;
     Schema.o_due_date := Some 19732%Z; Schema.o_status := None;
     Schema.o_completed_at := None; Schema.o_notes := None |}.

(** The same occurrence offered again, with another due date and note. *)
Definition repeated_occurrence : Schema.task_occurrences_row :=
  {| Schema.o_task_id := Some "t-9"; Schema.o_occurrence_date := Some 19725%Z;
     Schema.o_due_date := Some 19740%Z; Schema.o_status := Some "in_progress";
     Schema.o_completed_at := None; Schema.o_notes := Some "again" |}.

Definition recurring_task_row : Schema.tasks_row :=
  {| Schema.t_id := "t-9"; Schema.t_organization_id := Some "org-1";
     Schema.t_template_id := None; Schema.t_client_id := None;
     Schema.t_name := Some "Monthly GST"; Schema.t_description := None;
     Schema.t_task_type := Some "recurring";
     Schema.t_schedule_frequency := Some "monthly"; Schema.t_schedule_day_rule := None;
     Schema.t_schedule_start_date := Some 19723%Z; Schema.t_schedule_end_date := None;
     Schema.t_next_run_date := Some 19754%Z;
     Schema.t_task_manager_id := None; Schema.t_priority := None;
     Schema.t_status := None; Schema.t_due_date := None |}.

Definition client_profile : Dashboard.Profile :=
  {| Dashboard.id := "u-2"; Dashboard.role := "client";
     Dashboard.organization_id := Some "org-1" |}.

Definition manager_profile : Dashboard.Profile :=
  {| Dashboard.id := "rev-1"; Dashboard.role := "manager";
     Dashboard.organization_id := Some "org-1" |}.

Definition loaded_tasks : Dashboard.query_result :=
  {| Dashboard.data :=
       Some [ {| Dashboard.status := "in_progress" |};
              {| Dashboard.status := "not_started" |};
              {| Dashboard.status := "completed" |};
              {| Dashboard.status := "not_started" |} ] |}.

Definition loaded_requests : Dashboard.query_result :=
  {| Dashboard.data :=
       Some [ {| Dashboard.status := "sent" |};
              {| Dashboard.status := "in_progress" |};
              {| Dashboard.status := "draft" |};
              {| Dashboard.status := "completed" |} ] |}.

Definition other_pending_approval : Approvals.Approval :=
  {| Approvals.id := "a-2"; Approvals.organization_id := "org-1";
     Approvals.approval_type := "request_item"; Approvals.related_id := "item-7";
     Approvals.submitted_by := Some "u-2";
     Approvals.submitted_at := "2024-02-01T09:30:00.000Z";
     Approvals.reviewer_id := None; Approvals.reviewed_at := None;
     Approvals.action := None; Approvals.remarks := None |}.

Definition pending_page : Approvals.page :=
  {| Approvals.table := [Examples.pending_approval; other_pending_approval];
     Approvals.approvals := [Examples.pending_approval; other_pending_approval];
     Approvals.loading := false; Approvals.filter_ := "pending";
     Approvals.processingId := None; Approvals.alerts := [];
     Approvals.console := [] |}.

Definition reminder_row (k status channel : string) : RemindersList.row :=
  {| RemindersList.r_id := k; RemindersList.organization_id := "org-1";
     RemindersList.reminder_type := "request";
     RemindersList.recipient_id := Some "u-2";
     RemindersList.channel := channel;
     RemindersList.scheduled_at := "2024-02-01T09:00:00.000Z";
     RemindersList.message_subject := None;
     RemindersList.retry := RemindersPage.of_migration status |}.

Definition inactive_client : Schema.users_row :=
  {| Schema.u_id := "u-3"; Schema.u_organization_id := Some "org-1";
     Schema.u_email := "gone@firm.example"; Schema.u_full_name := "Gone Client";
     Schema.u_phone := None; Schema.u_role := "client";
     Schema.u_is_active := false |}.

Definition reminders_page : RemindersList.page :=
  {| RemindersList.reminders_table :=
       [ reminder_row "r-1" "failed" "email";
         reminder_row "r-2" "pending" "email";
         reminder_row "r-3" "failed" "voice";
         reminder_row "r-4" "sent" "whatsapp" ];
     RemindersList.users_table := [Examples.example_client; inactive_client];
     RemindersList.reminders := [];
     RemindersList.users := [];
     RemindersList.loading := true;
     RemindersList.statusFilter := "failed";
     RemindersList.channelFilter := "all";
     RemindersList.console := [] |}.

(** A page whose list still shows an approval as pending that has been
    reviewed in the table meanwhile. *)
Definition stale_page : Approvals.page :=
  {| Approvals.table := [Examples.rejected_approval];
     Approvals.approvals := [Examples.pending_approval];
     Approvals.loading := true; Approvals.filter_ := "pending";
     Approvals.processingId := None; Approvals.alerts := [];
     Approvals.console := [] |}.

End MoreExamples.

(** * Theorems *)

(** ** Shared facts *)

Lemma guard_ok {E} (b : bool) (e : E) : guard b e = Ok tt -> b = true.
Proof. destruct b; simpl; [reflexivity | discriminate]. Qed.

Lemma bind_ok {E A B} (r : result E A) (k : A -> result E B) (b : B) :
  bind r k = Ok b -> exists a, r = Ok a /\ k a = Ok b.
Proof.
  destruct r as [a | e]; simpl; intros H; [| discriminate].
  exists a. split; [reflexivity | exact H].
Qed.

(** ** The default folders of a new client *)

Section DefaultClientFolders.

Import Schema.

Variable NEW : users_row.
Variable d : db.

Hypothesis accepted : users_insert_ok NEW d = Ok tt.

Lemma accepted_organization : fk_ok (u_organization_id NEW) (organizations d) = true.
Proof.
  unfold users_insert_ok in accepted.
  apply bind_ok in accepted as [[] [_ H]].
  apply bind_ok in H as [[] [_ H]].
  apply bind_ok in H as [[] [H _]].
  exact (guard_ok _ _ H).
Qed.

Lemma new_user_listed : uuid_in (u_id NEW) (map u_id (users d ++ [NEW])) = true.
Proof.
  unfold uuid_in. rewrite map_app, existsb_app. simpl.
  rewrite String.eqb_refl. rewrite orb_true_r. reflexivity.
Qed.

(** One INSERT of the trigger's loop goes through, on any state of
    [client_folders]. *)
Lemma default_folder_inserted (i : nat) (cf : list client_folders_row) :
  is_some (array_get folder_names i) = true ->
  check_in (array_get folder_types i) folder_type_values = true ->
  insert_client_folder (default_folder NEW i)
    (set_client_folders (set_users d (users d ++ [NEW])) cf)
  = Ok (set_client_folders (set_users d (users d ++ [NEW]))
          (cf ++ [default_folder NEW i])).
Proof.
  intros Hname Htype. unfold insert_client_folder. simpl.
  rewrite Hname, Htype. simpl.
  rewrite accepted_organization. simpl.
  pose proof new_user_listed as Hin. unfold uuid_in in Hin. unfold uuid_in.
  rewrite Hin. simpl. reflexivity.
Qed.

Lemma trigger_for_client :
  u_role NEW = "client" -> is_some (u_organization_id NEW) = true ->
  create_default_client_folders NEW (set_users d (users d ++ [NEW]))
  = Ok (set_client_folders (set_users d (users d ++ [NEW]))
          (client_folders d
           ++ [default_folder NEW 1; default_folder NEW 2;
               default_folder NEW 3; default_folder NEW 4])).
Proof.
  intros Hrole Horg. unfold create_default_client_folders.
  rewrite Hrole, Horg. simpl andb. cbv iota.
  change (seq 1 (array_length folder_types)) with [1; 2; 3; 4]%nat.
  change (set_users d (users d ++ [NEW]))
    with (set_client_folders (set_users d (users d ++ [NEW])) (client_folders d)) at 1.
  cbn [for_loop].
  rewrite default_folder_inserted by reflexivity.
  rewrite default_folder_inserted by reflexivity.
  rewrite default_folder_inserted by reflexivity.
  rewrite default_folder_inserted by reflexivity.
  repeat rewrite <- app_assoc. reflexivity.
Qed.

Lemma trigger_for_others :
  u_role NEW <> "client" \/ u_organization_id NEW = None ->
  create_default_client_folders NEW (set_users d (users d ++ [NEW]))
  = Ok (set_users d (users d ++ [NEW])).
Proof.
  intros H. unfold create_default_client_folders.
  destruct H as [H | H].
  - apply String.eqb_neq in H. rewrite H. reflexivity.
  - rewrite H. simpl. rewrite andb_false_r. reflexivity.
Qed.

End DefaultClientFolders.

(** C10.  An INSERT of a user row that the [users] table accepts goes
    through with its trigger.  When the row has role client and an
    organization, the trigger adds exactly four rows to [client_folders]:
    folder types kyc, legal, finance, hr in that order, sort_order 1 to 4,
    each with the new user as client and as creator and with the user's
    organization.  For any other role, or without an organization, no folder
    is added. *)
Theorem create_default_client_folders_on_insert :
  forall (NEW : Schema.users_row) (d : Schema.db),
    Schema.users_insert_ok NEW d = Ok tt ->
    exists d',
      Schema.insert_user NEW d = Ok d' /\
      Schema.users d' = (Schema.users d ++ [NEW])%list /\
      (Schema.u_role NEW = "client" ->
       forall o, Schema.u_organization_id NEW = Some o ->
       exists f1 f2 f3 f4,
         Schema.client_folders d' = (Schema.client_folders d ++ [f1; f2; f3; f4])%list /\
         map Schema.cf_folder_type [f1; f2; f3; f4]
           = [Some "kyc"; Some "legal"; Some "finance"; Some "hr"] /\
         map Schema.cf_sort_order [f1; f2; f3; f4] = [Some 1; Some 2; Some 3; Some 4]%Z /\
         map Schema.cf_name [f1; f2; f3; f4]
           = [Some "KYC Documents"; Some "Legal Documents";
              Some "Finance Documents"; Some "HR Documents"] /\
         Forall (fun f => Schema.cf_created_by f = Some (Schema.u_id NEW)
                          /\ Schema.cf_client_id f = Some (Schema.u_id NEW)
                          /\ Schema.cf_organization_id f = Some o)
                [f1; f2; f3; f4]) /\
      (Schema.u_role NEW <> "client" \/ Schema.u_organization_id NEW = None ->
       Schema.client_folders d' = Schema.client_folders d).
Proof.
  intros NEW d Hok.
  destruct (String.eqb (Schema.u_role NEW) "client") eqn:Hrole.
  - apply String.eqb_eq in Hrole.
    destruct (Schema.u_organization_id NEW) as [o |] eqn:Horg.
    + eexists. split; [| split; [| split]].
      * unfold Schema.insert_user. rewrite Hok. simpl.
        apply trigger_for_client; [exact Hok | exact Hrole |].
        rewrite Horg. reflexivity.
      * reflexivity.
      * intros _ o' Ho'. injection Ho' as <-.
        exists (Schema.default_folder NEW 1), (Schema.default_folder NEW 2),
               (Schema.default_folder NEW 3), (Schema.default_folder NEW 4).
        unfold Schema.default_folder. cbn. rewrite Horg.
        repeat split; repeat constructor; reflexivity.
      * intros [Hne | Hnone]; [contradiction | discriminate].
    + eexists. split; [| split; [| split]].
      * unfold Schema.insert_user. rewrite Hok. simpl.
        apply trigger_for_others. right. exact Horg.
      * reflexivity.
      * intros _ o' Ho'. discriminate.
      * intros _. reflexivity.
  - eexists. split; [| split; [| split]].
    + unfold Schema.insert_user. rewrite Hok. simpl.
      apply trigger_for_others. left. apply String.eqb_neq. exact Hrole.
    + reflexivity.
    + intros Hc. apply String.eqb_neq in Hrole. contradiction.
    + intros _. reflexivity.
Qed.

Lemma create_default_client_folders_on_insert_witness :
  Schema.users_insert_ok Examples.example_client Examples.example_db = Ok tt /\
  exists d',
    Schema.insert_user Examples.example_client Examples.example_db = Ok d' /\
    List.length (Schema.client_folders d') = 4%nat.
Proof.
  split; [reflexivity |].
  destruct (create_default_client_folders_on_insert Examples.example_client Examples.example_db eq_refl)
    as [d' [Hins [_ [Hfour _]]]].
  exists d'. split; [exact Hins |].
  destruct (Hfour eq_refl "org-1" eq_refl) as [f1 [f2 [f3 [f4 [Hcf _]]]]].
  rewrite Hcf. reflexivity.
Defined.

(** ** Dashboard statistics *)

Lemma num_or_zero (n : nat) : num_or n 0 = n.
Proof. destruct n; reflexivity. Qed.

Lemma count_in_progress (rows : list Dashboard.status_row) :
  List.length (filter (fun r => Dashboard.status r =? "in_progress") rows)
  = count_occ string_dec (map Dashboard.status rows) "in_progress".
Proof.
  induction rows as [| r rows IH]; simpl; [reflexivity |].
  destruct (string_dec (Dashboard.status r) "in_progress") as [E | N].
  - rewrite E. simpl. rewrite IH. reflexivity.
  - apply String.eqb_neq in N. rewrite N. exact IH.
Qed.

(** C9.  Whenever [loadStats] computes statistics (a profile is present and
    the two queries resolved), the overdue count is the number of loaded
    requests whose status is in_progress, in the client branch and in the
    organization branch alike; the loaded rows carry the status only, so no
    due date enters the count, and neither do the tasks or the previous
    statistics. *)
Theorem overdue_items_counts_in_progress :
  forall (p : Dashboard.Profile) (requestsData tasksData : Dashboard.query_result)
         (st : Dashboard.state),
    Dashboard.overdueItems
      (Dashboard.stats
         (Dashboard.loadStats (Some p) (Some (requestsData, tasksData)) st))
    = Dashboard.in_progress_requests requestsData.
Proof.
  intros p rq tk st. unfold Dashboard.loadStats, Dashboard.in_progress_requests.
  destruct (Dashboard.role p =? "client"); simpl;
    unfold Dashboard.count_where; destruct (Dashboard.data rq) as [rows |];
    try reflexivity; rewrite num_or_zero; apply count_in_progress.
Qed.

(** ** Approvals *)

Section ApprovalUpdates.

Import Approvals.

Lemma loadApprovals_table (profile : option Profile) (error : option string)
    (pg : page) :
  table (loadApprovals profile error pg) = table pg
  /\ alerts (loadApprovals profile error pg) = alerts pg.
Proof.
  unfold loadApprovals.
  destruct profile as [p |]; [destruct (truthy (p_organization_id p)) |];
    try destruct (p_organization_id p); destruct error; simpl; split; reflexivity.
Qed.

Lemma find_update_eq_id (k : string) (patch : Approval -> Approval)
    (tbl : list Approval) :
  (forall a, id (patch a) = id a) ->
  find (fun a => id a =? k) (update_eq_id k patch tbl)
  = option_map patch (find (fun a => id a =? k) tbl).
Proof.
  intros Hid. induction tbl as [| a tbl IH]; simpl; [reflexivity |].
  destruct (id a =? k) eqn:E; simpl.
  - rewrite Hid, E. reflexivity.
  - rewrite E. exact IH.
Qed.

Lemma run_update_applied (p : Profile) (reload : option string) (k : string)
    (patch : Approval -> Approval) (log alert : string) (pg : page) :
  (forall a, id (patch a) = id a) ->
  let pg' := run_update p None reload k patch log alert pg in
  stored k pg' = option_map patch (stored k pg)
  /\ alerts pg' = alerts pg.
Proof.
  intros Hid. unfold run_update, stored.
  destruct (loadApprovals_table (Some p) reload
    {| table := update_eq_id k patch (table pg); approvals := approvals pg;
       loading := loading pg; filter_ := filter_ pg; processingId := None;
       alerts := alerts pg; console := console pg |}) as [Ht Ha].
  cbv zeta. rewrite Ht, Ha. simpl.
  split; [apply find_update_eq_id; exact Hid | reflexivity].
Qed.

Lemma run_update_refused (p : Profile) (e : string) (reload : option string)
    (k : string) (patch : Approval -> Approval) (log alert : string) (pg : page) :
  let pg' := run_update p (Some e) reload k patch log alert pg in
  table pg' = table pg /\ alerts pg' = (alerts pg ++ [alert])%list.
Proof. simpl. split; reflexivity. Qed.

End ApprovalUpdates.

(** C5, as stated, fails: an approval whose action is already set
    (rejected by rev-1) is approved again by rev-2 without any failure; the
    stored action, reviewer and time are overwritten and no alert is
    raised. *)
Lemma handleApprove_overwrites_reviewed :
  Approvals.action Examples.rejected_approval = Some "rejected" /\
  Approvals.stored "a-1"
    (Approvals.handleApprove (Some Examples.reviewer_two) "2024-02-02T08:00:00.000Z"
       None None "a-1" (Examples.page_with [Examples.rejected_approval]))
  = Some {| Approvals.id := "a-1"; Approvals.organization_id := "org-1";
            Approvals.approval_type := "document"; Approvals.related_id := "doc-1";
            Approvals.submitted_by := Some "u-2";
            Approvals.submitted_at := "2024-02-01T09:00:00.000Z";
            Approvals.reviewer_id := Some "rev-2";
            Approvals.reviewed_at := Some "2024-02-02T08:00:00.000Z";
            Approvals.action := Some "approved";
            Approvals.remarks := Some "illegible" |} /\
  Approvals.alerts
    (Approvals.handleApprove (Some Examples.reviewer_two) "2024-02-02T08:00:00.000Z"
       None None "a-1" (Examples.page_with [Examples.rejected_approval])) = [].
Proof. repeat split. Qed.

(** C5, amended.  [handleApprove] has no already-reviewed failure.  For a
    signed-in reviewer and a stored approval with the given id: when the
    backend reports no error on the update (whatever it answers to the
    reload that follows) the stored approval gets action approved,
    reviewed_at now and reviewer_id the reviewer, whatever its action was,
    its remarks are kept, it no longer counts as pending for the page, and
    no alert is raised; when the backend reports an
    error the table is unchanged and the failure alert is raised; without a
    profile the call does nothing.  Of two approve calls on the same
    approval both succeed, and the later call's reviewer and time are the
    ones stored. *)
Theorem handleApprove_sets_review :
  forall (p : Approvals.Profile) (now k : string) (reload : option string)
         (pg : Approvals.page) (a : Approvals.Approval),
    Approvals.stored k pg = Some a ->
    (exists a',
        Approvals.stored k (Approvals.handleApprove (Some p) now None reload k pg)
        = Some a' /\
        Approvals.action a' = Some "approved" /\
        Approvals.reviewed_at a' = Some now /\
        Approvals.reviewer_id a' = Some (Approvals.p_id p) /\
        Approvals.remarks a' = Approvals.remarks a /\
        Approvals.isPending a' = false /\
        Approvals.alerts (Approvals.handleApprove (Some p) now None reload k pg)
          = Approvals.alerts pg) /\
    (forall e,
        Approvals.table (Approvals.handleApprove (Some p) now (Some e) reload k pg)
          = Approvals.table pg /\
        Approvals.alerts (Approvals.handleApprove (Some p) now (Some e) reload k pg)
          = (Approvals.alerts pg ++ ["Failed to approve. Please try again."])%list) /\
    Approvals.handleApprove None now None reload k pg = pg /\
    (forall (p2 : Approvals.Profile) (now2 : string) (reload2 : option string),
        exists a2,
          Approvals.stored k
            (Approvals.handleApprove (Some p2) now2 None reload2 k
               (Approvals.handleApprove (Some p) now None reload k pg)) = Some a2 /\
          Approvals.action a2 = Some "approved" /\
          Approvals.reviewed_at a2 = Some now2 /\
          Approvals.reviewer_id a2 = Some (Approvals.p_id p2) /\
          Approvals.alerts
            (Approvals.handleApprove (Some p2) now2 None reload2 k
               (Approvals.handleApprove (Some p) now None reload k pg))
          = Approvals.alerts pg).
Proof.
  intros p now k reload pg a Hst.
  assert (Hid : forall n r x, Approvals.id (Approvals.approve_patch n r x) = Approvals.id x)
    by reflexivity.
  split; [| split; [| split]].
  - destruct (run_update_applied p reload k
                (Approvals.approve_patch now (Approvals.p_id p))
                "Error approving:" "Failed to approve. Please try again." pg (Hid _ _))
      as [H1 H2].
    exists (Approvals.approve_patch now (Approvals.p_id p) a).
    unfold Approvals.handleApprove. rewrite H1, H2, Hst.
    repeat split.
  - intros e. unfold Approvals.handleApprove. apply run_update_refused.
  - reflexivity.
  - intros p2 now2 reload2.
    destruct (run_update_applied p reload k
                (Approvals.approve_patch now (Approvals.p_id p))
                "Error approving:" "Failed to approve. Please try again." pg (Hid _ _))
      as [H1 H2].
    destruct (run_update_applied p2 reload2 k
                (Approvals.approve_patch now2 (Approvals.p_id p2))
                "Error approving:" "Failed to approve. Please try again."
                (Approvals.handleApprove (Some p) now None reload k pg) (Hid _ _))
      as [G1 G2].
    exists (Approvals.approve_patch now2 (Approvals.p_id p2)
              (Approvals.approve_patch now (Approvals.p_id p) a)).
    unfold Approvals.handleApprove in *. rewrite G1, G2, H1, H2, Hst.
    repeat split.
Qed.

Lemma handleApprove_sets_review_witness :
  Approvals.stored "a-1" (Examples.page_with [Examples.pending_approval])
    = Some Examples.pending_approval /\
  exists a2,
    Approvals.stored "a-1"
      (Approvals.handleApprove (Some Examples.reviewer_two) "2024-02-02T08:00:01.000Z"
         None None "a-1"
         (Approvals.handleApprove (Some Examples.reviewer_one)
            "2024-02-02T08:00:00.000Z" None None "a-1"
            (Examples.page_with [Examples.pending_approval]))) = Some a2 /\
    Approvals.reviewer_id a2 = Some "rev-2".
Proof.
  split; [reflexivity |].
  destruct (handleApprove_sets_review Examples.reviewer_one "2024-02-02T08:00:00.000Z"
              "a-1" None (Examples.page_with [Examples.pending_approval])
              Examples.pending_approval eq_refl) as [_ [_ [_ Htwo]]].
  destruct (Htwo Examples.reviewer_two "2024-02-02T08:00:01.000Z" None)
    as [a2 [Hs [_ [_ [Hr _]]]]].
  exists a2. split; [exact Hs | exact Hr].
Defined.

(** C7, as stated, fails: called with empty remarks, [handleReject] asks
    the reviewer; with the answer "blurred scan" the approval is rejected:
    the record changes and nothing fails. *)
Lemma handleReject_empty_remarks_prompted :
  Approvals.stored "a-1" (Examples.page_with [Examples.pending_approval])
    = Some Examples.pending_approval /\
  Approvals.stored "a-1"
    (Approvals.handleReject (Some Examples.reviewer_one) "2024-02-02T08:00:00.000Z"
       None None (Some "blurred scan") "a-1" (Some "")
       (Examples.page_with [Examples.pending_approval]))
  = Some {| Approvals.id := "a-1"; Approvals.organization_id := "org-1";
            Approvals.approval_type := "document"; Approvals.related_id := "doc-1";
            Approvals.submitted_by := Some "u-2";
            Approvals.submitted_at := "2024-02-01T09:00:00.000Z";
            Approvals.reviewer_id := Some "rev-1";
            Approvals.reviewed_at := Some "2024-02-02T08:00:00.000Z";
            Approvals.action := Some "rejected";
            Approvals.remarks := Some "blurred scan" |} /\
  Approvals.alerts
    (Approvals.handleReject (Some Examples.reviewer_one) "2024-02-02T08:00:00.000Z"
       None None (Some "blurred scan") "a-1" (Some "")
       (Examples.page_with [Examples.pending_approval])) = [].
Proof. repeat split. Qed.

(** C7, amended.  [handleReject] requires non-empty rejection remarks, taken
    from its argument or, when that is empty or absent, from the reviewer's
    answer to the prompt.  When both are empty the call returns without an
    error and leaves the page and the approval record unchanged.  Otherwise,
    for a signed-in reviewer, a stored approval with the given id and no
    backend error on the update (whatever the answer to the reload that
    follows), it sets action rejected together with the remarks,
    reviewed_at and reviewer_id, and raises no alert. *)
Theorem handleReject_requires_remarks :
  forall (p : Approvals.Profile) (now k : string) (prompted remarks : option string)
         (reload : option string) (pg : Approvals.page) (a : Approvals.Approval),
    Approvals.stored k pg = Some a ->
    (truthy (if truthy remarks then remarks else prompted) = false ->
     forall error,
       Approvals.handleReject (Some p) now error reload prompted k remarks pg = pg) /\
    (forall text,
        (if truthy remarks then remarks else prompted) = Some text ->
        text <> "" ->
        exists a',
          Approvals.stored k
            (Approvals.handleReject (Some p) now None reload prompted k remarks pg)
          = Some a' /\
          Approvals.action a' = Some "rejected" /\
          Approvals.remarks a' = Some text /\
          Approvals.reviewed_at a' = Some now /\
          Approvals.reviewer_id a' = Some (Approvals.p_id p) /\
          Approvals.alerts
            (Approvals.handleReject (Some p) now None reload prompted k remarks pg)
          = Approvals.alerts pg).
Proof.
  intros p now k prompted remarks reload pg a Hst. split.
  - intros Hempty error. unfold Approvals.handleReject.
    destruct (if truthy remarks then remarks else prompted) as [text |];
      [| reflexivity].
    rewrite Hempty. reflexivity.
  - intros text Htext Hne. unfold Approvals.handleReject. rewrite Htext.
    assert (Ht : truthy (Some text) = true).
    { simpl. apply String.eqb_neq in Hne. rewrite Hne. reflexivity. }
    rewrite Ht.
    destruct (run_update_applied p reload k
                (Approvals.reject_patch now (Approvals.p_id p) text)
                "Error rejecting:" "Failed to reject. Please try again." pg
                (fun x => eq_refl)) as [H1 H2].
    exists (Approvals.reject_patch now (Approvals.p_id p) text a).
    rewrite H1, H2, Hst. repeat split.
Qed.

Lemma handleReject_requires_remarks_witness :
  Approvals.stored "a-1" (Examples.page_with [Examples.pending_approval])
    = Some Examples.pending_approval /\
  Approvals.handleReject (Some Examples.reviewer_one) "2024-02-02T08:00:00.000Z"
    None None (Some "") "a-1" None (Examples.page_with [Examples.pending_approval])
  = Examples.page_with [Examples.pending_approval] /\
  exists a',
    Approvals.stored "a-1"
      (Approvals.handleReject (Some Examples.reviewer_one) "2024-02-02T08:00:00.000Z"
         None None None "a-1" (Some "wrong year")
         (Examples.page_with [Examples.pending_approval])) = Some a' /\
    Approvals.action a' = Some "rejected" /\
    Approvals.remarks a' = Some "wrong year".
Proof.
  split; [reflexivity |].
  destruct (handleReject_requires_remarks Examples.reviewer_one
              "2024-02-02T08:00:00.000Z" "a-1" (Some "") None None
              (Examples.page_with [Examples.pending_approval])
              Examples.pending_approval eq_refl) as [Hsilent _].
  split; [apply Hsilent; reflexivity |].
  destruct (handleReject_requires_remarks Examples.reviewer_one
              "2024-02-02T08:00:00.000Z" "a-1" None (Some "wrong year") None
              (Examples.page_with [Examples.pending_approval])
              Examples.pending_approval eq_refl) as [_ Hset].
  destruct (Hset "wrong year" eq_refl ltac:(discriminate))
    as [a' [Hs [Ha [Hr _]]]].
  exists a'. split; [exact Hs | split; [exact Ha | exact Hr]].
Defined.

(** ** The tasks table *)

Lemma tasks_row_ok_ignores_next_run_date (cols : Schema.tasks_columns)
    (v : option Schema.date) (row : Schema.tasks_row) :
  Schema.tasks_row_ok (Schema.tasks_defaults cols (Schema.set_next_run_date v row))
  = Schema.tasks_row_ok (Schema.tasks_defaults cols row).
Proof. reflexivity. Qed.

(** C8, as stated, fails on the schema: the tasks table accepts a one_time
    task that carries a next_run_date, and stores it. *)
Lemma one_time_task_with_next_run_date_accepted :
  Schema.t_task_type Examples.one_time_task_with_run_date = Some "one_time" /\
  Schema.insert_task Examples.defaults_left_out Examples.one_time_task_with_run_date []
  = Ok [Schema.tasks_defaults Examples.defaults_left_out
          Examples.one_time_task_with_run_date] /\
  Schema.t_next_run_date
    (Schema.tasks_defaults Examples.defaults_left_out Examples.one_time_task_with_run_date)
  = Some 19754%Z.
Proof. repeat split. Qed.

Lemma no_row_with_id (k : Schema.uuid) (tbl : list Schema.tasks_row) :
  Schema.uuid_in k (map Schema.t_id tbl) = false ->
  forall f : Schema.tasks_row -> Schema.tasks_row,
    map (fun r => if (Schema.t_id r =? k) then f r else r) tbl = tbl
    /\ filter (fun r => Schema.t_id r =? k) tbl = [].
Proof.
  intros H f. induction tbl as [| r tbl IH]; simpl; [split; reflexivity |].
  simpl in H. apply orb_false_iff in H as [Hr Ht].
  rewrite String.eqb_sym, Hr. destruct (IH Ht) as [IH1 IH2].
  rewrite IH1, IH2. split; reflexivity.
Qed.

(** C8, amended.  The tasks table does not tie next_run_date to task_type.
    Whether an INSERT is accepted never depends on the next_run_date it
    offers; an accepted INSERT stores the task type and the next_run_date it
    was given, so a task (one_time or not) has a null next_run_date exactly
    when the INSERT leaves it out, the column having no default; and an
    UPDATE of the stored task's next_run_date to any value is accepted. *)
Theorem tasks_next_run_date_unconstrained :
  forall (cols : Schema.tasks_columns) (row : Schema.tasks_row)
         (tbl tbl' : list Schema.tasks_row),
    Schema.insert_task cols row tbl = Ok tbl' ->
    (exists stored,
        tbl' = (tbl ++ [stored])%list /\
        Schema.t_task_type stored = Schema.t_task_type row /\
        Schema.t_next_run_date stored = Schema.t_next_run_date row) /\
    (forall v,
        Schema.insert_task cols (Schema.set_next_run_date v row) tbl
        = Ok (tbl ++ [Schema.tasks_defaults cols (Schema.set_next_run_date v row)])%list) /\
    (forall v,
        Schema.update_task_next_run_date (Schema.t_id row) v tbl'
        = Ok (tbl ++ [Schema.set_next_run_date v (Schema.tasks_defaults cols row)])%list).
Proof.
  intros cols row tbl tbl' H. unfold Schema.insert_task in H. cbv zeta in H.
  apply bind_ok in H as [[] [Hrow H]].
  apply bind_ok in H as [[] [Hpk H]].
  injection H as <-.
  apply guard_ok in Hpk. apply negb_true_iff in Hpk.
  change (Schema.t_id (Schema.tasks_defaults cols row)) with (Schema.t_id row) in Hpk.
  split; [| split].
  - exists (Schema.tasks_defaults cols row). repeat split.
  - intros v. unfold Schema.insert_task. cbv zeta.
    rewrite tasks_row_ok_ignores_next_run_date, Hrow.
    change (Schema.t_id (Schema.tasks_defaults cols (Schema.set_next_run_date v row)))
      with (Schema.t_id row).
    rewrite Hpk. reflexivity.
  - intros v. unfold Schema.update_task_next_run_date. cbv zeta.
    rewrite map_app, filter_app.
    destruct (no_row_with_id _ _ Hpk (Schema.set_next_run_date v)) as [Hmap _].
    rewrite Hmap.
    destruct (no_row_with_id _ _ Hpk (fun r => r)) as [_ Hfil].
    rewrite Hfil. simpl.
    change (Schema.t_id (Schema.tasks_defaults cols row)) with (Schema.t_id row).
    rewrite String.eqb_refl. simpl. rewrite String.eqb_refl. simpl.
    change (Schema.tasks_row_ok
              (Schema.set_next_run_date v (Schema.tasks_defaults cols row)))
      with (Schema.tasks_row_ok (Schema.tasks_defaults cols row)).
    rewrite Hrow. reflexivity.
Qed.

Lemma tasks_next_run_date_unconstrained_witness :
  Schema.insert_task Examples.defaults_left_out Examples.one_time_task []
  = Ok [Schema.tasks_defaults Examples.defaults_left_out Examples.one_time_task] /\
  Schema.update_task_next_run_date "t-1" (Some 19754%Z)
    [Schema.tasks_defaults Examples.defaults_left_out Examples.one_time_task]
  = Ok [Schema.set_next_run_date (Some 19754%Z)
          (Schema.tasks_defaults Examples.defaults_left_out Examples.one_time_task)].
Proof.
  split; [reflexivity |].
  destruct (tasks_next_run_date_unconstrained Examples.defaults_left_out
              Examples.one_time_task []
              [Schema.tasks_defaults Examples.defaults_left_out Examples.one_time_task]
              eq_refl) as [_ [_ Hupd]].
  exact (Hupd (Some 19754%Z)).
Defined.

(** ** The schedule calculator *)

Section NextOccurrence.

Import Schedule.

Variable ev : evaluator.

Lemma next_occurrence_some (r : rule) (after d : date) :
  next_occurrence ev r after = Ok (Some d) ->
  computed_next ev r after = Some d /\ after_end r d = false /\ (after < d)%Z.
Proof.
  unfold next_occurrence, computed_next.
  destruct (r_task_type r), (r_frequency r) as [f |]; try discriminate.
  destruct (start_after_end r); [discriminate |].
  destruct (after_end r (ev f (r_day_rule r) (r_start_date r) after)) eqn:Hend;
    [discriminate |].
  destruct (ev f (r_day_rule r) (r_start_date r) after <=? after)%Z eqn:Hmono;
    [discriminate |].
  intros H. injection H as <-. apply Z.leb_gt in Hmono.
  repeat split; assumption.
Qed.

Lemma next_occurrence_exhausted (r : rule) (after c : date) :
  well_formed r -> computed_next ev r after = Some c -> after_end r c = true ->
  next_occurrence ev r after = Ok None.
Proof.
  intros [Hrec [Hfreq Hstart]] Hc Hend. unfold next_occurrence, computed_next in *.
  rewrite Hrec, Hstart. destruct (r_frequency r) as [f |]; [| contradiction].
  injection Hc as Hc. rewrite Hc, Hend. reflexivity.
Qed.

End NextOccurrence.

(** C2.  For every recurrence rule with an end date, whatever the date
    arithmetic, [next_occurrence] never returns a date after the end date;
    and once the rule is exhausted, that is when the computed next date
    falls after the end date, it returns None. *)
Theorem next_occurrence_respects_end_date :
  forall (ev : Schedule.evaluator) (r : Schedule.rule) (after e : Schedule.date),
    Schedule.r_end_date r = Some e ->
    (forall d, Schedule.next_occurrence ev r after = Ok (Some d) -> (d <= e)%Z) /\
    (Schedule.well_formed r ->
     forall c, Schedule.computed_next ev r after = Some c -> (e < c)%Z ->
               Schedule.next_occurrence ev r after = Ok None).
Proof.
  intros ev r after e He. split.
  - intros d H. apply next_occurrence_some in H as [_ [Hend _]].
    unfold Schedule.after_end in Hend. rewrite He in Hend.
    apply Z.ltb_ge in Hend. exact Hend.
  - intros Hwf c Hc Hlt. apply (next_occurrence_exhausted ev r after c Hwf Hc).
    unfold Schedule.after_end. rewrite He. apply Z.ltb_lt. exact Hlt.
Qed.

Lemma next_occurrence_respects_end_date_witness :
  Schedule.next_occurrence Schedule.fixed_steps Examples.daily_week 19729%Z
    = Ok (Some 19730%Z) /\
  Schedule.next_occurrence Schedule.fixed_steps Examples.daily_week 19730%Z = Ok None.
Proof.
  split; [reflexivity |].
  destruct (next_occurrence_respects_end_date Schedule.fixed_steps Examples.daily_week
              19730%Z 19730%Z eq_refl) as [_ Hex].
  apply Hex with (c := 19731%Z).
  - split; [reflexivity | split; [discriminate | reflexivity]].
  - reflexivity.
  - reflexivity.
Defined.

(** ** The occurrence generator *)

Section OccurrenceGeneration.

Import Schema Generator.

Lemma same_key_holds (t : task) (d : date) (r : task_occurrences_row) :
  same_occurrence_key (occurrence_defaults false (occurrence_row t d)) r = holds (task_id t) d r.
Proof.
  unfold same_occurrence_key, holds. simpl.
  destruct (o_task_id r) as [y |], (o_occurrence_date r) as [e |]; simpl;
    try reflexivity.
  - rewrite String.eqb_sym, Z.eqb_sym. reflexivity.
  - rewrite andb_false_r. reflexivity.
Qed.

Lemma existsb_filter_nil {A} (p : A -> bool) (l : list A) :
  existsb p l = false <-> filter p l = [].
Proof.
  induction l as [| x l IH]; simpl; [tauto |].
  destruct (p x); simpl; [split; discriminate | exact IH].
Qed.

Lemma collision_iff (t : task) (d : date) (occs : list task_occurrences_row) :
  existsb (same_occurrence_key (occurrence_defaults false (occurrence_row t d))) occs = false
  <-> occurrences_of (task_id t) d occs = [].
Proof.
  unfold occurrences_of.
  rewrite <- existsb_filter_nil.
  assert (E : existsb (same_occurrence_key (occurrence_defaults false (occurrence_row t d))) occs
              = existsb (holds (task_id t) d) occs).
  { induction occs as [| r occs IH]; simpl; [reflexivity |].
    rewrite same_key_holds, IH. reflexivity. }
  rewrite E. tauto.
Qed.

(** Creating the occurrence never fails: it appends the row, or finds the
    key taken and leaves the table alone. *)
Lemma create_occurrence_cases (t : task) (d : date) (occs : list task_occurrences_row) :
  (occurrences_of (task_id t) d occs = [] /\
   create_occurrence t d occs
   = Ok (occs ++ [occurrence_defaults false (occurrence_row t d)])%list)
  \/
  (occurrences_of (task_id t) d occs <> [] /\ create_occurrence t d occs = Ok occs).
Proof.
  unfold create_occurrence, insert_task_occurrence. cbv zeta.
  change (is_some (o_occurrence_date (occurrence_defaults false (occurrence_row t d)))) with true.
  change (is_some (o_due_date (occurrence_defaults false (occurrence_row t d)))) with true.
  change (check_in (o_status (occurrence_defaults false (occurrence_row t d)))
            occurrence_status_values) with true.
  cbn [guard bind].
  destruct (existsb (same_occurrence_key (occurrence_defaults false (occurrence_row t d))) occs)
    eqn:Hex.
  - right. split; [| reflexivity].
    intros Hnil. apply collision_iff in Hnil. congruence.
  - left. split; [apply collision_iff; exact Hex | reflexivity].
Qed.

Lemma occurrences_of_app (k : uuid) (d : date) (a b : list task_occurrences_row) :
  occurrences_of k d (a ++ b)%list
  = (occurrences_of k d a ++ occurrences_of k d b)%list.
Proof. apply filter_app. Qed.

Lemma occurrences_of_new (t : task) (d : date) (k : uuid) (e : date) :
  occurrences_of k e [occurrence_defaults false (occurrence_row t d)]
  = if (task_id t =? k) && (d =? e)%Z
    then [occurrence_defaults false (occurrence_row t d)] else [].
Proof. reflexivity. Qed.

(** The UNIQUE constraint is kept by the creation step, and after it the
    key is held by exactly one row. *)
Lemma create_occurrence_unique (t : task) (d : date)
    (occs occs' : list task_occurrences_row) :
  unique_occurrences occs -> create_occurrence t d occs = Ok occs' ->
  unique_occurrences occs' /\ List.length (occurrences_of (task_id t) d occs') = 1%nat
  /\ create_occurrence t d occs' = Ok occs'.
Proof.
  intros Huniq Hc.
  destruct (create_occurrence_cases t d occs) as [[Hnil Hok] | [Hsome Hok]];
    rewrite Hok in Hc; injection Hc as <-.
  - assert (Hone : occurrences_of (task_id t) d
                     (occs ++ [occurrence_defaults false (occurrence_row t d)])%list
                   = [occurrence_defaults false (occurrence_row t d)]).
    { rewrite occurrences_of_app, Hnil, occurrences_of_new.
      rewrite String.eqb_refl, Z.eqb_refl. reflexivity. }
    split; [| split].
    + intros k e. rewrite occurrences_of_app, occurrences_of_new.
      destruct ((task_id t =? k) && (d =? e)%Z) eqn:Hke.
      * apply andb_true_iff in Hke as [Hk He].
        apply String.eqb_eq in Hk. apply Z.eqb_eq in He. subst k e.
        rewrite Hnil. simpl. lia.
      * rewrite app_nil_r. apply Huniq.
    + rewrite Hone. reflexivity.
    + destruct (create_occurrence_cases t d
                  (occs ++ [occurrence_defaults false (occurrence_row t d)])%list)
        as [[Hnil' _] | [_ Hok']]; [| exact Hok'].
      rewrite Hone in Hnil'. discriminate.
  - split; [exact Huniq | split; [| exact Hok]].
    specialize (Huniq (task_id t) d).
    destruct (occurrences_of (task_id t) d occs) as [| r [| r' rest]];
      [contradiction | reflexivity | simpl in Huniq; lia].
Qed.

End OccurrenceGeneration.

(** C3.  For a recurring task that is due (next_run_date d, not after the
    evaluation time) and whose schedule the calculator accepts, on a table
    that satisfies its UNIQUE constraint: the generator succeeds, and
    running it again for the same next_run_date succeeds too, without
    error, and leaves the table exactly as the first run left it; the table
    then holds exactly one occurrence for (task_id, d) and still satisfies
    the UNIQUE constraint. *)
Theorem generate_twice_one_occurrence :
  forall (ev : Schedule.evaluator) (now : Schedule.date) (t : Generator.task)
         (occs : list Schema.task_occurrences_row) (d : Schedule.date)
         (next : option Schedule.date),
    Schedule.r_task_type (Generator.task_rule t) = Schedule.recurring ->
    Generator.next_run_date t = Some d ->
    (d <= now)%Z ->
    Generator.unique_occurrences occs ->
    Schedule.next_occurrence ev (Generator.task_rule t) d = Ok next ->
    exists occs1,
      Generator.generate ev now t occs = Ok (Generator.set_next_run t next, occs1) /\
      Generator.generate ev now t occs1 = Ok (Generator.set_next_run t next, occs1) /\
      List.length (Schema.occurrences_of (Generator.task_id t) d occs1) = 1%nat /\
      Generator.unique_occurrences occs1.
Proof.
  intros ev now t occs d next Hrec Hrun Hdue Huniq Hnext.
  apply Z.leb_le in Hdue.
  destruct (create_occurrence_cases t d occs) as [[_ Hok] | [_ Hok]].
  - destruct (create_occurrence_unique t d occs _ Huniq Hok) as [Hu [Hone Hagain]].
    eexists. split; [| split; [| split]].
    + unfold Generator.generate. rewrite Hrec, Hrun, Hdue, Hok. simpl.
      rewrite Hnext. reflexivity.
    + unfold Generator.generate. rewrite Hrec, Hrun, Hdue, Hagain. simpl.
      rewrite Hnext. reflexivity.
    + exact Hone.
    + exact Hu.
  - destruct (create_occurrence_unique t d occs _ Huniq Hok) as [Hu [Hone Hagain]].
    exists occs. split; [| split; [| split]].
    + unfold Generator.generate. rewrite Hrec, Hrun, Hdue, Hok. simpl.
      rewrite Hnext. reflexivity.
    + unfold Generator.generate. rewrite Hrec, Hrun, Hdue, Hok. simpl.
      rewrite Hnext. reflexivity.
    + exact Hone.
    + exact Hu.
Qed.

Lemma generate_twice_one_occurrence_witness :
  exists occs1,
    Generator.generate Schedule.fixed_steps 19725%Z Examples.daily_task []
      = Ok (Generator.set_next_run Examples.daily_task (Some 19726%Z), occs1) /\
    Generator.generate Schedule.fixed_steps 19725%Z Examples.daily_task occs1
      = Ok (Generator.set_next_run Examples.daily_task (Some 19726%Z), occs1) /\
    List.length (Schema.occurrences_of "t-9" 19725%Z occs1) = 1%nat.
Proof.
  destruct (generate_twice_one_occurrence Schedule.fixed_steps 19725%Z
              Examples.daily_task [] 19725%Z (Some 19726%Z)
              eq_refl eq_refl (Z.le_refl _)
              (fun k d => Nat.le_0_l 1) eq_refl)
    as [occs1 [H1 [H2 [H3 _]]]].
  exists occs1. split; [exact H1 | split; [exact H2 | exact H3]].
Defined.

(** ** The reminder engine *)

Section ReminderRetries.

Import Reminders.

Variable backoff : backoff_policy.

Lemma status_eqb_eq (a b : status) : status_eqb a b = true <-> a = b.
Proof. destruct a, b; simpl; split; intros H; try reflexivity; discriminate. Qed.

Lemma due_pending (now : time) (r : reminder) : due now r = true -> state r = pending.
Proof.
  unfold due. intros H. apply andb_true_iff in H as [H _].
  apply status_eqb_eq. exact H.
Qed.

Ltac unfold_dispatch :=
  unfold dispatch, on_failure, retried, mark_sent.

Ltac split_failure r :=
  destruct (retry_count r <? max_retries r)%nat eqn:Hlt;
  [ apply Nat.ltb_lt in Hlt;
    destruct (S (retry_count r) <? max_retries r)%nat eqn:Hn;
    [ apply Nat.ltb_lt in Hn | apply Nat.ltb_ge in Hn ]
  | rewrite Hlt; apply Nat.ltb_ge in Hlt ].

(** One visit: the count never goes down, the limit is untouched, and the
    count is not taken above the limit. *)
Lemma dispatch_step (v : visit) (r : reminder) :
  (retry_count r <= retry_count (after (dispatch backoff v r)))%nat
  /\ max_retries (after (dispatch backoff v r)) = max_retries r
  /\ (retry_count (after (dispatch backoff v r))
      <= Nat.max (retry_count r) (max_retries r))%nat.
Proof.
  unfold_dispatch. destruct (due (at_time v) r).
  - destruct (answer v); [simpl; repeat split; lia |].
    split_failure r; simpl; repeat split; lia.
  - simpl. repeat split; lia.
Qed.

Lemma final_cons (v : visit) (vs : list visit) (r : reminder) :
  final backoff (v :: vs) r = final backoff vs (after (dispatch backoff v r)).
Proof.
  unfold final. simpl.
  destruct (run backoff vs (after (dispatch backoff v r))) as [[r' n] es].
  reflexivity.
Qed.

Lemma attempts_cons (v : visit) (vs : list visit) (r : reminder) :
  attempts backoff (v :: vs) r
  = ((if dispatched (dispatch backoff v r) then 1 else 0)
     + attempts backoff vs (after (dispatch backoff v r)))%nat.
Proof.
  unfold attempts. simpl.
  destruct (run backoff vs (after (dispatch backoff v r))) as [[r' n] es].
  reflexivity.
Qed.

Lemma final_app (vs1 vs2 : list visit) (r : reminder) :
  final backoff (vs1 ++ vs2) r = final backoff vs2 (final backoff vs1 r).
Proof.
  revert r. induction vs1 as [| v vs1 IH]; intros r; [reflexivity |].
  rewrite <- app_comm_cons, !final_cons. apply IH.
Qed.

Lemma final_bounds (vs : list visit) (r : reminder) :
  (retry_count r <= retry_count (final backoff vs r))%nat
  /\ max_retries (final backoff vs r) = max_retries r
  /\ (retry_count (final backoff vs r) <= Nat.max (retry_count r) (max_retries r))%nat.
Proof.
  revert r. induction vs as [| v vs IH]; intros r.
  - unfold final. simpl. repeat split; lia.
  - rewrite final_cons.
    destruct (dispatch_step v r) as [Hmono [Hmax Hle]].
    destruct (IH (after (dispatch backoff v r))) as [Hmono' [Hmax' Hle']].
    rewrite Hmax in Hle'.
    split; [lia | split; [congruence | lia]].
Qed.

(** A reminder within its limit stays within it. *)
Lemma final_within_limit (vs : list visit) (r : reminder) :
  within_limit r -> within_limit (final backoff vs r).
Proof.
  unfold within_limit. intros Hr.
  destruct (final_bounds vs r) as [_ [Hmax Hle]]. rewrite Hmax. lia.
Qed.

(** A reminder that is cancelled, or failed with its retries used up, is
    never dispatched again. *)
Lemma exhausted_not_due (now : time) (r : reminder) :
  exhausted r = true -> due now r = false.
Proof.
  unfold exhausted, due. destruct (state r); simpl; intros H;
    try reflexivity; discriminate.
Qed.

Lemma exhausted_run (vs : list visit) (r : reminder) :
  exhausted r = true -> run backoff vs r = (r, 0%nat, []).
Proof.
  intros H. induction vs as [| v vs IH]; [reflexivity |].
  simpl. unfold dispatch. rewrite (exhausted_not_due _ _ H). simpl.
  rewrite IH. reflexivity.
Qed.

(** The status turns to failed at a visit exactly when the sender is called,
    fails, and the count has reached the limit. *)
Lemma becomes_failed_iff (v : visit) (r : reminder) :
  (state r <> failed /\ state (after (dispatch backoff v r)) = failed)
  <->
  (dispatched (dispatch backoff v r) = true /\ answer v = DispatchFailure
   /\ (max_retries r <= retry_count (after (dispatch backoff v r)))%nat).
Proof.
  unfold_dispatch. destruct (due (at_time v) r) eqn:Hdue.
  - pose proof (due_pending _ _ Hdue) as Hp.
    destruct (answer v); [simpl |].
    + split; [intros [_ H]; discriminate | intros [_ [H _]]; discriminate].
    + split_failure r; simpl; rewrite ?Hp.
      * split; [intros [_ H]; discriminate | intros [_ [_ H]]; lia].
      * split; intros _; repeat split; try discriminate; lia.
      * split; intros _; repeat split; try discriminate; lia.
  - simpl. split; [intros [H1 H2]; contradiction | intros [H _]; discriminate].
Qed.

(** Within the limit, a count that has reached it equals it. *)
Lemma failed_at_limit (v : visit) (r : reminder) :
  within_limit r ->
  state r <> failed -> state (after (dispatch backoff v r)) = failed ->
  retry_count (after (dispatch backoff v r)) = max_retries r.
Proof.
  intros Hr Hnot Hfailed.
  destruct (proj1 (becomes_failed_iff v r) (conj Hnot Hfailed)) as [_ [_ Hreach]].
  destruct (dispatch_step v r) as [_ [_ Hle]].
  unfold within_limit in Hr. lia.
Qed.

(** What is left to call the sender for: nothing once the reminder is no
    longer pending; otherwise the retries left, and one call when none is
    left. *)
Lemma attempts_bounded (vs : list visit) (r : reminder) :
  (attempts backoff vs r
   <= if status_eqb (state r) pending
      then Nat.max 1 (max_retries r - retry_count r) else 0)%nat.
Proof.
  revert r. induction vs as [| v vs IH]; intros r.
  - unfold attempts. simpl. lia.
  - rewrite attempts_cons. specialize (IH (after (dispatch backoff v r))).
    revert IH. unfold_dispatch.
    destruct (due (at_time v) r) eqn:Hdue; cbn -[Nat.max Nat.sub Nat.ltb];
      [| intros IH; exact IH].
    pose proof (due_pending _ _ Hdue) as Hp. rewrite Hp. cbn -[Nat.max Nat.sub Nat.ltb].
    destruct (answer v); [cbn -[Nat.max Nat.sub Nat.ltb]; lia |].
    split_failure r; cbn -[Nat.max Nat.sub Nat.ltb]; rewrite ?Hp;
      cbn -[Nat.max Nat.sub Nat.ltb]; lia.
Qed.

End ReminderRetries.

(** C4.  For every reminder and every sequence of dispatch attempts, split
    anywhere into what has happened and what follows: retry_count never
    decreases, max_retries stays as it was, and no attempt takes
    retry_count above max_retries (it stays at most the larger of its first
    value and max_retries), so that a reminder within its limit stays
    within it, and the retry_count of a newly scheduled reminder never
    exceeds the max_retries it was given, 0 included; at
    every visit the status turns to failed exactly when the sender is
    called, fails, and retry_count has thereby reached max_retries, which
    it then equals for a reminder within its limit; once the reminder is
    cancelled, or failed with retry_count equal to max_retries, no later
    visit calls the sender or changes the reminder; altogether the sender
    is called at most max_retries - retry_count times, and once where no
    retry is left. *)
Theorem reminder_retries_bounded :
  forall (backoff : Reminders.backoff_policy) (r : Reminders.reminder)
         (vs1 vs2 : list Reminders.visit),
    ((Reminders.retry_count (Reminders.final backoff vs1 r)
      <= Reminders.retry_count (Reminders.final backoff (vs1 ++ vs2) r))%nat /\
     Reminders.max_retries (Reminders.final backoff (vs1 ++ vs2) r)
     = Reminders.max_retries r /\
     (Reminders.retry_count (Reminders.final backoff (vs1 ++ vs2) r)
      <= Nat.max (Reminders.retry_count r) (Reminders.max_retries r))%nat /\
     (Reminders.within_limit r ->
      (Reminders.retry_count (Reminders.final backoff (vs1 ++ vs2) r)
       <= Reminders.max_retries (Reminders.final backoff (vs1 ++ vs2) r))%nat) /\
     (forall n related to ch now limit vs,
         (Reminders.retry_count
            (Reminders.final backoff vs (Reminders.fresh n related to ch now limit))
          <= limit)%nat)) /\
    (forall v,
        ((Reminders.state (Reminders.final backoff vs1 r) <> Reminders.failed /\
          Reminders.state
            (Reminders.after (Reminders.dispatch backoff v (Reminders.final backoff vs1 r)))
          = Reminders.failed)
         <->
         (Reminders.dispatched
            (Reminders.dispatch backoff v (Reminders.final backoff vs1 r)) = true /\
          Reminders.answer v = Reminders.DispatchFailure /\
          (Reminders.max_retries r
           <= Reminders.retry_count
                (Reminders.after
                   (Reminders.dispatch backoff v (Reminders.final backoff vs1 r))))%nat)) /\
        (Reminders.within_limit r ->
         Reminders.state (Reminders.final backoff vs1 r) <> Reminders.failed ->
         Reminders.state
           (Reminders.after (Reminders.dispatch backoff v (Reminders.final backoff vs1 r)))
         = Reminders.failed ->
         Reminders.retry_count
           (Reminders.after (Reminders.dispatch backoff v (Reminders.final backoff vs1 r)))
         = Reminders.max_retries r)) /\
    (Reminders.exhausted (Reminders.final backoff vs1 r) = true ->
     Reminders.attempts backoff vs2 (Reminders.final backoff vs1 r) = 0%nat /\
     Reminders.final backoff (vs1 ++ vs2) r = Reminders.final backoff vs1 r) /\
    (Reminders.attempts backoff (vs1 ++ vs2) r
     <= Nat.max 1 (Reminders.max_retries r - Reminders.retry_count r))%nat.
Proof.
  intros backoff r vs1 vs2.
  destruct (final_bounds backoff vs1 r) as [_ [Hmax1 _]].
  split; [| split; [| split]].
  - destruct (final_bounds backoff (vs1 ++ vs2) r) as [_ [Hmax Hle]].
    split; [| split; [exact Hmax | split; [exact Hle | split]]].
    + rewrite final_app.
      apply (final_bounds backoff vs2 (Reminders.final backoff vs1 r)).
    + intros Hr. apply (final_within_limit backoff (vs1 ++ vs2) r Hr).
    + intros n related to ch now limit vs.
      destruct (final_bounds backoff vs (Reminders.fresh n related to ch now limit))
        as [_ [_ Hfresh]].
      simpl in Hfresh. exact Hfresh.
  - intros v. split.
    + rewrite <- Hmax1. apply becomes_failed_iff.
    + intros Hr Hnot Hfailed. rewrite <- Hmax1.
      apply failed_at_limit; [apply final_within_limit; exact Hr | exact Hnot | exact Hfailed].
  - intros Hex. rewrite final_app.
    pose proof (exhausted_run backoff vs2 _ Hex) as Hrun.
    split; [unfold Reminders.attempts; rewrite Hrun; reflexivity |].
    unfold Reminders.final at 1. rewrite Hrun. reflexivity.
  - pose proof (attempts_bounded backoff (vs1 ++ vs2) r) as H.
    destruct (Reminders.status_eqb (Reminders.state r) Reminders.pending); lia.
Qed.

(** Three failures use up three retries; and a reminder that is given no
    retry fails at its first failure, with its count still 0, one call to
    the sender and one escalation. *)
Lemma reminder_retries_bounded_witness :
  (Reminders.state (Reminders.final Examples.no_backoff Examples.failing_visits
                      Examples.email_reminder) = Reminders.failed /\
   Reminders.attempts Examples.no_backoff [Examples.late_visit]
     (Reminders.final Examples.no_backoff Examples.failing_visits Examples.email_reminder)
   = 0%nat) /\
  (Reminders.run Examples.no_backoff
     (Examples.failing_visits ++ [Examples.late_visit]) Examples.single_shot_reminder
   = (Reminders.retried Examples.single_shot_reminder 0 100%Z Reminders.failed,
      1%nat, [Reminders.Escalation 2]) /\
   (Reminders.attempts Examples.no_backoff
      (Examples.failing_visits ++ [Examples.late_visit]) Examples.single_shot_reminder
    <= 1)%nat).
Proof.
  split.
  - split; [reflexivity |].
    destruct (reminder_retries_bounded Examples.no_backoff Examples.email_reminder
                Examples.failing_visits [Examples.late_visit])
      as [_ [_ [Hex _]]].
    destruct (Hex eq_refl) as [Hzero _]. exact Hzero.
  - split; [reflexivity |].
    destruct (reminder_retries_bounded Examples.no_backoff Examples.single_shot_reminder
                Examples.failing_visits [Examples.late_visit])
      as [_ [_ [_ Hcalls]]].
    exact Hcalls.
Defined.

(** ** Re-requesting an item *)

Section ReRequest.

Import Items Requests.

Lemma step_keeps_id (it it' : item) (a : action) :
  step it a = Ok it' -> item_id it' = item_id it.
Proof.
  unfold step. destruct a; destruct (state it); simpl; intros H;
    try discriminate; injection H as <-; reflexivity.
Qed.

(** The step of an item of the list is the step of the list. *)
Lemma step_item_found (k : string) (a : action) (its : list item) (it it' : item) :
  find (has_id k) its = Some it -> step it a = Ok it' ->
  exists its',
    step_item k a its
    = Ok (its', {| old_state := state it; new_state := state it'; changed_item := k |})
    /\ find (has_id k) its' = Some it'
    /\ List.length its' = List.length its.
Proof.
  intros Hfind Hstep. induction its as [| x its IH]; [discriminate |].
  simpl in Hfind. unfold has_id in Hfind at 1. simpl.
  destruct (item_id x =? k) eqn:Hx.
  - injection Hfind as ->. rewrite Hstep. simpl.
    exists (it' :: its). split; [reflexivity | split; [| reflexivity]].
    simpl. unfold has_id at 1. rewrite (step_keeps_id _ _ _ Hstep), Hx. reflexivity.
  - destruct (IH Hfind) as [its' [Hs [Hf Hl]]]. rewrite Hs. simpl.
    exists (x :: its'). split; [reflexivity | split].
    + simpl. unfold has_id at 1. rewrite Hx. exact Hf.
    + simpl. rewrite Hl. reflexivity.
Qed.

End ReRequest.

Section FreshCycle.

Import Reminders.

(** Scheduling appends one reminder per channel, each pending, unsent and
    with retry_count 0, and leaves the reminders already stored as they
    are. *)
Lemma schedule_on_appends (chs : list channel) (related to : string) (now : time)
    (limit : nat) (s : store) :
  exists new,
    reminders (schedule_on chs related to now limit s) = (reminders s ++ new)%list
    /\ map via new = chs
    /\ Forall (fun m => retry_count m = 0%nat /\ state m = pending
                        /\ sent_at m = None /\ related_id m = related
                        /\ max_retries m = limit) new.
Proof.
  revert s. induction chs as [| ch chs IH]; intros s; simpl.
  - exists []. rewrite app_nil_r. repeat split. constructor.
  - destruct (IH {| reminders := (reminders s ++ [fresh (next_id s) related to ch now limit])%list;
                    next_id := S (next_id s) |}) as [new [Hr [Hv Hall]]].
    exists (fresh (next_id s) related to ch now limit :: new).
    simpl in Hr. rewrite Hr, <- app_assoc. simpl.
    split; [reflexivity | split; [rewrite Hv; reflexivity |]].
    constructor; [repeat split | exact Hall].
Qed.

End FreshCycle.

(** C6.  For every open request and every item of it that awaits review,
    the transition to re_requested goes through; the item is then
    re_requested with submitted_at null (and its request cycle one higher);
    and the reminder engine adds a fresh cycle for the item, one reminder
    per enabled channel, every one pending, unsent and with retry_count 0,
    while every reminder stored before, whatever its retry_count, is kept
    as it was: the fresh reminders are new ones.  With a channel enabled
    there is at least one. *)
Theorem re_request_schedules_fresh_cycle :
  forall (limit : nat) (now : Reminders.time) (r : Requests.request) (k : string)
         (reviewer : string) (reviewed : Items.time) (s : Reminders.store)
         (it : Items.item),
    Requests.closed r = false ->
    find (Items.has_id k) (Requests.items r) = Some it ->
    Items.awaiting_review (Items.state it) = true ->
    exists r' s' it' new,
      Lifecycle.transition limit now r k (Items.re_request reviewer reviewed) s
        = Ok (r', s') /\
      find (Items.has_id k) (Requests.items r') = Some it' /\
      Items.state it' = Items.re_requested /\
      Items.submitted_at it' = None /\
      Items.request_cycle it' = S (Items.request_cycle it) /\
      Reminders.reminders s' = (Reminders.reminders s ++ new)%list /\
      map Reminders.via new = Lifecycle.enabled_channels r /\
      Forall (fun m => Reminders.retry_count m = 0%nat
                       /\ Reminders.state m = Reminders.pending
                       /\ Reminders.sent_at m = None
                       /\ Reminders.related_id m = k
                       /\ Reminders.max_retries m = limit) new /\
      (Requests.any_channel r = true -> new <> []).
Proof.
  intros limit now r k reviewer reviewed s it Hopen Hfind Hwait.
  set (it' := {| Items.item_id := Items.item_id it;
                 Items.is_mandatory := Items.is_mandatory it;
                 Items.state := Items.re_requested; Items.submitted_at := None;
                 Items.reviewed_at := Some reviewed;
                 Items.reviewed_by := Some reviewer;
                 Items.request_cycle := S (Items.request_cycle it) |}).
  assert (Hstep : Items.step it (Items.re_request reviewer reviewed) = Ok it').
  { unfold Items.step. rewrite Hwait. reflexivity. }
  destruct (step_item_found k _ _ it it' Hfind Hstep) as [its' [Hs [Hf _]]].
  destruct (schedule_on_appends (Lifecycle.enabled_channels r) k
              (Requests.client_id r) now limit s) as [new [Hr [Hv Hall]]].
  exists (Requests.with_items r its'),
         (Reminders.schedule_on (Lifecycle.enabled_channels r) k
            (Requests.client_id r) now limit s),
         it', new.
  split; [| repeat split; try assumption].
  - unfold Lifecycle.transition, Requests.item_transition.
    rewrite Hopen, Hs. reflexivity.
  - intros Hch Hnil. rewrite Hnil in Hv. simpl in Hv.
    unfold Requests.any_channel in Hch. unfold Lifecycle.enabled_channels in Hv.
    destruct (Requests.enable_email r), (Requests.enable_whatsapp r),
      (Requests.enable_voice r); simpl in *; discriminate.
Qed.

Lemma re_request_schedules_fresh_cycle_witness :
  exists r' s',
    Lifecycle.transition 3 120%Z Examples.sent_request "item-a"
      (Items.re_request "rev-1" 120%Z) Examples.worn_out_store = Ok (r', s') /\
    List.length (Reminders.reminders s') = 3%nat.
Proof.
  destruct (re_request_schedules_fresh_cycle 3 120%Z Examples.sent_request "item-a"
              "rev-1" 120%Z Examples.worn_out_store Examples.item_a
              eq_refl eq_refl eq_refl)
    as [r' [s' [it' [new [Ht [_ [_ [_ [_ [Hr [Hv _]]]]]]]]]]].
  exists r', s'. split; [exact Ht |].
  rewrite Hr, length_app. simpl.
  rewrite <- (length_map Reminders.via), Hv. reflexivity.
Defined.

(** ** The status of a request *)

Section RequestStatus.

Import Items Requests.

Lemma with_items_same (r : request) : with_items r (items r) = r.
Proof. destruct r; reflexivity. Qed.

Lemma with_items_twice (r : request) (a b : list item) :
  with_items (with_items r a) b = with_items r b.
Proof. reflexivity. Qed.

Lemma derive_completed (its : list item) :
  derive its = completed <-> mandatory_approved its = true.
Proof.
  unfold derive. destruct (mandatory_approved its).
  - split; reflexivity.
  - destruct (none_received its); split; discriminate.
Qed.

Lemma derive_status_completed (r : request) :
  derive_status r = completed
  <-> is_cancelled r = false /\ sent_at r <> None /\ mandatory_approved (items r) = true.
Proof.
  unfold derive_status. destruct (is_cancelled r).
  - split; [discriminate | intros [H _]; discriminate].
  - destruct (sent_at r) as [t |].
    + rewrite derive_completed. split.
      * intros H. repeat split; [discriminate | exact H].
      * intros [_ [_ H]]. exact H.
    + split; [discriminate | intros [_ [H _]]; contradiction].
Qed.

Lemma mandatory_approved_spec (its : list item) :
  mandatory_approved its = true
  <-> (forall it, In it its -> is_mandatory it = true -> state it = approved).
Proof.
  unfold mandatory_approved. rewrite forallb_forall. split.
  - intros H it Hin Hm. specialize (H it Hin). rewrite Hm in H. simpl in H.
    destruct (state it); try discriminate. reflexivity.
  - intros H it Hin. destruct (is_mandatory it) eqn:Hm; [| reflexivity].
    rewrite (H it Hin Hm). reflexivity.
Qed.

(** An attempt, in functional form. *)
Lemma step_item_apply_in (k : string) (a : action) (its : list item) :
  match step_item k a its with
  | Ok res => fst res
  | Err _ => its
  end = apply_in k a its.
Proof.
  induction its as [| x its IH]; simpl; [reflexivity |].
  destruct (item_id x =? k).
  - destruct (step x a); reflexivity.
  - destruct (step_item k a its) as [res | e]; simpl in *; rewrite <- IH; reflexivity.
Qed.

Lemma attempt_apply_in (r : request) (k : string) (a : action) :
  attempt r (k, a) = if closed r then r else with_items r (apply_in k a (items r)).
Proof.
  unfold attempt, item_transition. simpl. destruct (closed r); [reflexivity |].
  rewrite <- step_item_apply_in.
  destruct (step_item k a (items r)) as [res | e]; simpl;
    [reflexivity | symmetry; apply with_items_same].
Qed.

Lemma attempt_flags (r : request) (ka : string * action) :
  is_cancelled (attempt r ka) = is_cancelled r /\ sent_at (attempt r ka) = sent_at r.
Proof.
  destruct ka as [k a]. rewrite attempt_apply_in.
  destruct (closed r); split; reflexivity.
Qed.

Lemma run_flags (kas : list (string * action)) (r : request) :
  is_cancelled (run r kas) = is_cancelled r /\ sent_at (run r kas) = sent_at r.
Proof.
  revert r. induction kas as [| ka kas IH]; intros r; [split; reflexivity |].
  simpl. destruct (IH (attempt r ka)) as [H1 H2].
  destruct (attempt_flags r ka) as [G1 G2]. split; congruence.
Qed.

(** *** Approvals in any order *)

Lemma apply_in_cons (k : string) (a : action) (x : item) (rest : list item) :
  apply_in k a (x :: rest)
  = if item_id x =? k then step_or_same x a :: rest else x :: apply_in k a rest.
Proof. simpl. unfold step_or_same. destruct (item_id x =? k), (step x a); reflexivity. Qed.

Lemma step_or_same_id (it : item) (a : action) : item_id (step_or_same it a) = item_id it.
Proof.
  unfold step_or_same. destruct (step it a) as [it' |] eqn:H; [| reflexivity].
  apply (step_keeps_id _ _ _ H).
Qed.

Lemma apply_in_commute (k1 k2 : string) (a : action) (its : list item) :
  apply_in k1 a (apply_in k2 a its) = apply_in k2 a (apply_in k1 a its).
Proof.
  induction its as [| x its IH]; [reflexivity |].
  rewrite !apply_in_cons.
  destruct (item_id x =? k1) eqn:H1, (item_id x =? k2) eqn:H2;
    rewrite !apply_in_cons, ?step_or_same_id, ?H1, ?H2; try reflexivity.
  rewrite IH. reflexivity.
Qed.

Lemma approve_keeps_approved (reviewer : string) (now : time) (it : item) :
  implb (is_mandatory it) (status_eqb (state it) approved) = true ->
  implb (is_mandatory (step_or_same it (approve reviewer now)))
        (status_eqb (state (step_or_same it (approve reviewer now))) approved) = true.
Proof.
  unfold step_or_same, step.
  destruct (awaiting_review (state it)); simpl; [| tauto].
  intros _. destruct (is_mandatory it); reflexivity.
Qed.

Lemma approve_keeps_mandatory_approved (k reviewer : string) (now : time)
    (its : list item) :
  mandatory_approved its = true ->
  mandatory_approved (apply_in k (approve reviewer now) its) = true.
Proof.
  unfold mandatory_approved. induction its as [| x its IH]; [reflexivity |].
  rewrite apply_in_cons. simpl. intros H. apply andb_true_iff in H as [Hx Hrest].
  destruct (item_id x =? k); simpl.
  - rewrite (approve_keeps_approved _ _ _ Hx), Hrest. reflexivity.
  - rewrite Hx, (IH Hrest). reflexivity.
Qed.

Lemma closed_with_items (r : request) (its : list item) :
  closed (with_items r its)
  = is_cancelled r || (is_some (sent_at r) && mandatory_approved its).
Proof.
  unfold closed, derive_status, derive. simpl.
  destruct (is_cancelled r); [reflexivity |].
  destruct (sent_at r); simpl; [| reflexivity].
  destruct (mandatory_approved its); [reflexivity |].
  destruct (none_received its); reflexivity.
Qed.

Lemma closed_status (r : request) :
  is_cancelled r = false -> closed r = true -> derive_status r = completed.
Proof.
  unfold closed. intros Hc. unfold derive_status. rewrite Hc.
  destruct (sent_at r); [| discriminate].
  unfold derive. destruct (mandatory_approved (items r)); [reflexivity |].
  destruct (none_received (items r)); discriminate.
Qed.

Lemma closed_attempt (r : request) (ka : string * action) :
  closed r = true -> attempt r ka = r.
Proof. destruct ka as [k a]. rewrite attempt_apply_in. intros ->. reflexivity. Qed.

Lemma same_outcome_refl (r : request) : same_outcome r r.
Proof. left. reflexivity. Qed.

Lemma same_outcome_trans (r1 r2 r3 : request) :
  same_outcome r1 r2 -> same_outcome r2 r3 -> same_outcome r1 r3.
Proof.
  intros [-> | [H1 [H2 H3]]] [<- | [G1 [G2 G3]]].
  - left. reflexivity.
  - right. repeat split; assumption.
  - right. repeat split; assumption.
  - right. repeat split; try assumption. congruence.
Qed.

Lemma same_outcome_attempt (r1 r2 : request) (ka : string * action) :
  same_outcome r1 r2 -> same_outcome (attempt r1 ka) (attempt r2 ka).
Proof.
  intros [-> | [H1 [H2 H3]]]; [left; reflexivity |].
  rewrite (closed_attempt _ ka H1), (closed_attempt _ ka H2).
  right. repeat split; assumption.
Qed.

Lemma same_outcome_run (kas : list (string * action)) (r1 r2 : request) :
  same_outcome r1 r2 -> same_outcome (run r1 kas) (run r2 kas).
Proof.
  revert r1 r2. induction kas as [| ka kas IH]; intros r1 r2 H; [exact H |].
  simpl. apply IH, same_outcome_attempt, H.
Qed.

Lemma items_with_items (r : request) (its : list item) : items (with_items r its) = its.
Proof. reflexivity. Qed.

Lemma open_not_cancelled (r : request) : closed r = false -> is_cancelled r = false.
Proof.
  unfold closed, derive_status. destruct (is_cancelled r); [discriminate | reflexivity].
Qed.

Lemma closed_items_status (r : request) (its : list item) :
  is_cancelled r = false -> closed (with_items r its) = true ->
  derive_status (with_items r its) = completed.
Proof. intros Hc H. apply closed_status; [exact Hc | exact H]. Qed.

Lemma closed_after_approve (r : request) (its : list item) (k reviewer : string)
    (now : time) :
  is_cancelled r = false -> closed (with_items r its) = true ->
  closed (with_items r (apply_in k (approve reviewer now) its)) = true.
Proof.
  intros Hc. rewrite !closed_with_items, Hc. simpl orb.
  destruct (is_some (sent_at r)); simpl andb; [| discriminate].
  apply approve_keeps_mandatory_approved.
Qed.

(** Two approvals, in either order. *)
Lemma approvals_swap (reviewer : string) (now : time) (k1 k2 : string) (r : request) :
  same_outcome
    (attempt (attempt r (k1, approve reviewer now)) (k2, approve reviewer now))
    (attempt (attempt r (k2, approve reviewer now)) (k1, approve reviewer now)).
Proof.
  rewrite (attempt_apply_in r k1), (attempt_apply_in r k2).
  destruct (closed r) eqn:Hr.
  - rewrite !attempt_apply_in, Hr. left. reflexivity.
  - pose proof (open_not_cancelled r Hr) as Hc.
    rewrite !attempt_apply_in, !items_with_items, !with_items_twice.
    destruct (closed (with_items r (apply_in k1 (approve reviewer now) (items r)))) eqn:C1,
             (closed (with_items r (apply_in k2 (approve reviewer now) (items r)))) eqn:C2.
    + right. split; [exact C1 | split; [exact C2 |]].
      rewrite !closed_items_status; try assumption. reflexivity.
    + right.
      assert (C : closed (with_items r (apply_in k1 (approve reviewer now)
                                          (apply_in k2 (approve reviewer now) (items r))))
                  = true).
      { rewrite apply_in_commute. apply closed_after_approve; assumption. }
      split; [exact C1 | split; [exact C |]].
      rewrite !closed_items_status; try assumption. reflexivity.
    + right.
      assert (C : closed (with_items r (apply_in k2 (approve reviewer now)
                                          (apply_in k1 (approve reviewer now) (items r))))
                  = true).
      { rewrite apply_in_commute. apply closed_after_approve; assumption. }
      split; [exact C | split; [exact C2 |]].
      rewrite !closed_items_status; try assumption. reflexivity.
    + left. rewrite apply_in_commute. reflexivity.
Qed.

Lemma approvals_permuted (reviewer : string) (now : time) (ks ks' : list string) :
  Permutation ks ks' ->
  forall r1 r2, same_outcome r1 r2 ->
    same_outcome (run r1 (approvals reviewer now ks)) (run r2 (approvals reviewer now ks')).
Proof.
  induction 1 as [| k l l' _ IH | k1 k2 l | l l' l'' _ IH1 _ IH2]; intros r1 r2 H.
  - exact H.
  - simpl. apply IH, same_outcome_attempt, H.
  - simpl. apply same_outcome_run.
    apply same_outcome_trans
      with (attempt (attempt r1 (k1, approve reviewer now)) (k2, approve reviewer now)).
    + apply approvals_swap.
    + apply same_outcome_attempt, same_outcome_attempt, H.
  - apply same_outcome_trans with (run r2 (approvals reviewer now l')).
    + apply IH1, H.
    + apply IH2, same_outcome_refl.
Qed.

Lemma same_outcome_status (r1 r2 : request) :
  same_outcome r1 r2 -> derive_status r1 = derive_status r2.
Proof. intros [-> | [_ [_ H]]]; [reflexivity | exact H]. Qed.

(** *** Reaching and keeping completed *)

Lemma mandatory_approved_filter (its : list item) :
  mandatory_approved its
  = forallb (fun it => status_eqb (state it) approved) (filter is_mandatory its).
Proof.
  unfold mandatory_approved. induction its as [| x its IH]; [reflexivity |].
  simpl. destruct (is_mandatory x); simpl; rewrite IH; reflexivity.
Qed.

Lemma step_keeps_mandatory (it it' : item) (a : action) :
  step it a = Ok it' -> is_mandatory it' = is_mandatory it.
Proof.
  unfold step. destruct a; destruct (state it); simpl; intros H;
    try discriminate; injection H as <-; reflexivity.
Qed.

(** Only an approval makes an item approved. *)
Lemma step_to_approved (it it' : item) (a : action) :
  step it a = Ok it' -> state it' = approved ->
  exists reviewer now, a = approve reviewer now.
Proof.
  unfold step. destruct a as [t | | who t | who t | who t]; destruct (state it); simpl;
    intros H; try discriminate; injection H as <-; simpl; intros Hs;
    try discriminate; exists who, t; reflexivity.
Qed.

Lemma approved_of_eqb (s : Items.status) : status_eqb s approved = true -> s = approved.
Proof. destruct s; simpl; intros H; try discriminate; reflexivity. Qed.

(** An attempt that makes every mandatory item approved is the approval of
    a mandatory item. *)
Lemma apply_in_reaches (k : string) (a : action) (its : list item) :
  mandatory_approved its = false ->
  mandatory_approved (apply_in k a its) = true ->
  (exists reviewer now, a = approve reviewer now)
  /\ (exists it, In it (apply_in k a its) /\ item_id it = k
                 /\ is_mandatory it = true /\ state it = approved).
Proof.
  unfold mandatory_approved.
  induction its as [| x its IH]; [simpl; discriminate |].
  rewrite apply_in_cons. intros Hbefore Hafter.
  destruct (item_id x =? k) eqn:Hk.
  - simpl in Hbefore, Hafter. apply andb_true_iff in Hafter as [Hx' Hrest].
    rewrite Hrest, andb_true_r in Hbefore.
    unfold step_or_same in *.
    destruct (step x a) as [x' | e] eqn:Hstep; [| congruence].
    rewrite (step_keeps_mandatory _ _ _ Hstep) in Hx'.
    destruct (is_mandatory x) eqn:Hm; [| discriminate].
    simpl in Hx'. apply approved_of_eqb in Hx'.
    split; [exact (step_to_approved _ _ _ Hstep Hx') |].
    exists x'. split; [left; reflexivity |].
    split; [| split; [| exact Hx']].
    + rewrite (step_keeps_id _ _ _ Hstep). apply String.eqb_eq. exact Hk.
    + rewrite (step_keeps_mandatory _ _ _ Hstep). exact Hm.
  - simpl in Hbefore, Hafter. apply andb_true_iff in Hafter as [Hx Hrest].
    rewrite Hx in Hbefore. simpl in Hbefore.
    destruct (IH Hbefore Hrest) as [Ha [it [Hin Hit]]].
    split; [exact Ha |]. exists it. split; [right; exact Hin | exact Hit].
Qed.

Lemma completed_by_approval (r : request) (k : string) (a : action) :
  derive_status r <> completed ->
  derive_status (attempt r (k, a)) = completed ->
  (exists reviewer now, a = approve reviewer now)
  /\ (exists it, In it (items (attempt r (k, a))) /\ item_id it = k
                 /\ is_mandatory it = true /\ state it = approved).
Proof.
  intros Hnot Hdone.
  destruct (attempt_flags r (k, a)) as [Hc Hs].
  apply derive_status_completed in Hdone as [Hc' [Hs' Hm']].
  rewrite Hc in Hc'. rewrite Hs in Hs'.
  assert (Hm : mandatory_approved (items r) = false).
  { destruct (mandatory_approved (items r)) eqn:E; [| reflexivity].
    exfalso. apply Hnot. apply derive_status_completed. repeat split; assumption. }
  assert (Hopen : closed r = false).
  { rewrite <- (with_items_same r) at 1. rewrite closed_with_items, Hc', Hm.
    rewrite andb_false_r. reflexivity. }
  revert Hm'. rewrite attempt_apply_in, Hopen, items_with_items.
  apply apply_in_reaches. exact Hm.
Qed.

Lemma completed_kept (r : request) (kas : list (string * action)) :
  derive_status r = completed -> run r kas = r.
Proof.
  intros Hdone.
  assert (Hclosed : closed r = true) by (unfold closed; rewrite Hdone; reflexivity).
  induction kas as [| ka kas IH]; [reflexivity |].
  simpl. rewrite (closed_attempt r ka Hclosed). exact IH.
Qed.

Lemma run_app (r : request) (kas kas' : list (string * action)) :
  run r (kas ++ kas') = run (run r kas) kas'.
Proof. apply fold_left_app. Qed.

End RequestStatus.

(** C1, as stated, fails for a request that was never sent: the client
    submits the only mandatory item and a reviewer approves it, so that
    every mandatory item is approved, and the status is still draft; it is
    cancelled, and no more completed, once the request is cancelled. *)
Lemma unsent_request_never_completed :
  (forall it,
      In it (Requests.items (Requests.run Examples.draft_request
                               Examples.submit_and_approve)) ->
      Items.is_mandatory it = true -> Items.state it = Items.approved) /\
  Requests.derive_status
    (Requests.run Examples.draft_request Examples.submit_and_approve)
  = Requests.draft /\
  Requests.derive_status
    (Requests.run Examples.draft_request Examples.submit_and_approve)
  <> Requests.completed /\
  (exists r',
      Requests.cancel (Requests.run Examples.draft_request Examples.submit_and_approve)
      = Ok r' /\
      Requests.items r'
      = Requests.items (Requests.run Examples.draft_request Examples.submit_and_approve) /\
      Requests.derive_status r' = Requests.cancelled).
Proof.
  split; [| split; [reflexivity | split; [discriminate |]]].
  - intros it [<- | []] _. reflexivity.
  - eexists. split; [reflexivity | split; reflexivity].
Qed.

(** C1, amended.  For every Data Request and every sequence of attempted
    checklist-item transitions, none of which sends or cancels the request:
    the derived status is completed if and only if the request has been
    sent, is not cancelled, and every mandatory item is approved.  The
    other items play no part: any item list with the same mandatory items
    gives the same answer.  The status becomes completed at a transition
    only when that transition is the approval of a mandatory item, and once
    completed no further attempt changes the request.  If further items are
    approved, the status reached does not depend on the order in which they
    are approved. *)
Theorem request_completed_iff_sent_and_mandatory_approved :
  forall (r : Requests.request) (kas : list (string * Items.action)),
    (Requests.sent_at (Requests.run r kas) = Requests.sent_at r /\
     Requests.is_cancelled (Requests.run r kas) = Requests.is_cancelled r) /\
    (Requests.derive_status (Requests.run r kas) = Requests.completed
     <->
     (Requests.sent_at r <> None /\ Requests.is_cancelled r = false /\
      (forall it, In it (Requests.items (Requests.run r kas)) ->
                  Items.is_mandatory it = true -> Items.state it = Items.approved))) /\
    (forall its',
        filter Items.is_mandatory its'
        = filter Items.is_mandatory (Requests.items (Requests.run r kas)) ->
        (Requests.derive_status (Requests.with_items (Requests.run r kas) its')
         = Requests.completed
         <-> Requests.derive_status (Requests.run r kas) = Requests.completed)) /\
    (forall k a,
        Requests.derive_status (Requests.run r kas) <> Requests.completed ->
        Requests.derive_status (Requests.run r (kas ++ [(k, a)])) = Requests.completed ->
        (exists reviewer now, a = Items.approve reviewer now) /\
        (exists it,
            In it (Requests.items (Requests.run r (kas ++ [(k, a)]))) /\
            Items.item_id it = k /\ Items.is_mandatory it = true /\
            Items.state it = Items.approved)) /\
    (Requests.derive_status (Requests.run r kas) = Requests.completed ->
     forall kas', Requests.run r (kas ++ kas') = Requests.run r kas) /\
    (forall (reviewer : string) (now : Items.time) (ks ks' : list string),
        Permutation ks ks' ->
        Requests.derive_status
          (Requests.run (Requests.run r kas) (Requests.approvals reviewer now ks'))
        = Requests.derive_status
            (Requests.run (Requests.run r kas) (Requests.approvals reviewer now ks))).
Proof.
  intros r kas. destruct (run_flags kas r) as [Hc Hs].
  split; [split; assumption |]. split; [| split; [| split; [| split]]].
  - rewrite derive_status_completed, Hc, Hs, <- mandatory_approved_spec.
    split; [intros [H1 [H2 H3]] | intros [H1 [H2 H3]]]; repeat split; assumption.
  - intros its' Hsame.
    rewrite !derive_status_completed. simpl.
    rewrite (mandatory_approved_filter its'), Hsame, <- mandatory_approved_filter.
    reflexivity.
  - intros k a Hnot Hdone. rewrite run_app in Hdone |- *. simpl in Hdone |- *.
    apply completed_by_approval; assumption.
  - intros Hdone kas'. rewrite run_app. apply completed_kept. exact Hdone.
  - intros reviewer now ks ks' Hp. symmetry.
    apply same_outcome_status, approvals_permuted;
      [exact Hp | apply same_outcome_refl].
Qed.

(** A sent request whose mandatory item is approved is completed, the
    optional item not having been received. *)
Lemma request_completed_iff_sent_and_mandatory_approved_witness :
  Requests.is_cancelled Examples.sent_request = false /\
  Requests.derive_status
    (Requests.run Examples.sent_request [("item-a", Items.approve "rev-1" 130%Z)])
  = Requests.completed.
Proof.
  split; [reflexivity |].
  destruct (request_completed_iff_sent_and_mandatory_approved Examples.sent_request
              [("item-a", Items.approve "rev-1" 130%Z)])
    as [_ [[_ Hdone] _]].
  apply Hdone. split; [discriminate | split; [reflexivity |]].
  intros it Hin Hm.
  destruct Hin as [<- | [<- | []]]; [reflexivity | discriminate Hm].
Defined.

(** * Further properties of the schema and of the pages *)

(** ** The users table and its trigger keep the constraints *)

Section SchemaConsistency.

Import Schema SchemaInvariants.

Lemma uuid_in_spec (x : uuid) (xs : list uuid) : uuid_in x xs = true <-> In x xs.
Proof.
  unfold uuid_in. rewrite existsb_exists. split.
  - intros [y [Hin Heq]]. apply String.eqb_eq in Heq. subst y. exact Hin.
  - intros Hin. exists x. split; [exact Hin | apply String.eqb_refl].
Qed.

Lemma uuid_in_false (x : uuid) (xs : list uuid) : uuid_in x xs = false -> ~ In x xs.
Proof.
  intros H Hin. apply uuid_in_spec in Hin. rewrite Hin in H. discriminate.
Qed.

Lemma fk_ok_more (x : option uuid) (keys more : list uuid) :
  fk_ok x keys = true -> fk_ok x (keys ++ more) = true.
Proof.
  destruct x as [v |]; simpl; [| reflexivity].
  intros H. apply uuid_in_spec. apply in_or_app. left.
  apply uuid_in_spec. exact H.
Qed.

Lemma NoDup_snoc {A} (l : list A) (x : A) : NoDup l -> ~ In x l -> NoDup (l ++ [x]).
Proof.
  intros Hl Hx. induction Hl as [| y l Hy Hl IH]; simpl.
  - constructor; [intros [] | constructor].
  - constructor.
    + intros Hin. apply in_app_or in Hin as [Hin | [Heq | []]].
      * contradiction.
      * subst y. apply Hx. left. reflexivity.
    + apply IH. intros Hin. apply Hx. right. exact Hin.
Qed.

(** The fields of an accepted row. *)
Lemma users_insert_ok_inv (NEW : users_row) (d : db) :
  users_insert_ok NEW d = Ok tt ->
  uuid_in (u_id NEW) (map u_id (users d)) = false
  /\ uuid_in (u_id NEW) (auth_users d) = true
  /\ fk_ok (u_organization_id NEW) (organizations d) = true
  /\ existsb (String.eqb (u_email NEW)) (map u_email (users d)) = false
  /\ text_in (u_role NEW) user_roles = true.
Proof.
  unfold users_insert_ok. intros H.
  apply bind_ok in H as [[] [H1 H]]. apply bind_ok in H as [[] [H2 H]].
  apply bind_ok in H as [[] [H3 H]]. apply bind_ok in H as [[] [H4 H5]].
  apply guard_ok in H1, H2, H3, H4, H5.
  apply negb_true_iff in H1, H4. repeat split; assumption.
Qed.

Lemma insert_user_result (NEW : users_row) (d d' : db) :
  insert_user NEW d = Ok d' ->
  users_insert_ok NEW d = Ok tt
  /\ auth_users d' = auth_users d /\ organizations d' = organizations d
  /\ users d' = (users d ++ [NEW])%list
  /\ (client_folders d' = client_folders d
      \/ client_folders d'
         = (client_folders d
            ++ [default_folder NEW 1; default_folder NEW 2;
                default_folder NEW 3; default_folder NEW 4])%list).
Proof.
  intros H. unfold insert_user in H.
  apply bind_ok in H as [[] [Hok H]]. split; [exact Hok |].
  destruct ((u_role NEW =? "client") && is_some (u_organization_id NEW)) eqn:Hc.
  - apply andb_true_iff in Hc as [Hr Ho]. apply String.eqb_eq in Hr.
    rewrite (trigger_for_client NEW d Hok Hr Ho) in H. injection H as <-.
    simpl. repeat split. right. reflexivity.
  - assert (Hn : u_role NEW <> "client" \/ u_organization_id NEW = None).
    { apply andb_false_iff in Hc as [Hr | Ho].
      - left. apply String.eqb_neq. exact Hr.
      - right. destruct (u_organization_id NEW); [discriminate | reflexivity]. }
    rewrite (trigger_for_others NEW d Hn) in H. injection H as <-.
    simpl. repeat split. left. reflexivity.
Qed.

Lemma default_folder_ok (NEW : users_row) (d d' : db) (i : nat) :
  In i [1; 2; 3; 4]%nat ->
  organizations d' = organizations d ->
  users d' = (users d ++ [NEW])%list ->
  fk_ok (u_organization_id NEW) (organizations d) = true ->
  folder_ok d' (default_folder NEW i).
Proof.
  intros Hi Ho Hu Hfk. unfold folder_ok. rewrite Ho, Hu.
  assert (Hnew : fk_ok (Some (u_id NEW)) (map u_id (users d ++ [NEW])) = true).
  { simpl. apply uuid_in_spec. rewrite map_app. apply in_or_app. right. left.
    reflexivity. }
  simpl in Hi.
  destruct Hi as [<- | [<- | [<- | [<- | []]]]]; repeat split; assumption.
Qed.

End SchemaConsistency.

(** X1.  An accepted INSERT INTO users, trigger included, keeps the
    constraints of the two tables: ids and emails stay unique, every user
    has a known id, an existing organization (if any) and one of the five
    roles, and every folder, the default ones included, has a name, an
    allowed folder type and references that resolve. *)
Theorem insert_user_keeps_consistency :
  forall (NEW : Schema.users_row) (d d' : Schema.db),
    SchemaInvariants.consistent d ->
    Schema.insert_user NEW d = Ok d' ->
    SchemaInvariants.consistent d'.
Proof.
  intros NEW d d' [Hids [Hemails [Husers Hfolders]]] Hins.
  destruct (insert_user_result NEW d d' Hins) as [Hok [Ha [Ho [Hu Hcf]]]].
  destruct (users_insert_ok_inv NEW d Hok) as [Hid [Hauth [Hfk [Hemail Hrole]]]].
  unfold SchemaInvariants.consistent. rewrite Hu, !map_app. simpl.
  split; [| split; [| split]].
  - apply NoDup_snoc; [exact Hids | apply uuid_in_false; exact Hid].
  - apply NoDup_snoc; [exact Hemails | apply uuid_in_false; exact Hemail].
  - apply Forall_app. split.
    + eapply Forall_impl; [| exact Husers].
      intros u [H1 [H2 H3]]. unfold SchemaInvariants.user_ok. rewrite Ha, Ho.
      repeat split; assumption.
    + constructor; [| constructor].
      unfold SchemaInvariants.user_ok. rewrite Ha, Ho. repeat split; assumption.
  - assert (Hold : Forall (SchemaInvariants.folder_ok d') (Schema.client_folders d)).
    { eapply Forall_impl; [| exact Hfolders].
      intros f [H1 [H2 [H3 [H4 H5]]]]. unfold SchemaInvariants.folder_ok.
      rewrite Ho, Hu, map_app.
      repeat split; try assumption; apply fk_ok_more; assumption. }
    destruct Hcf as [-> | ->]; [exact Hold |].
    apply Forall_app. split; [exact Hold |].
    repeat constructor; apply (default_folder_ok NEW d d'); simpl; auto.
Qed.

Lemma insert_user_keeps_consistency_witness :
  exists d',
    Schema.insert_user Examples.example_client Examples.example_db = Ok d' /\
    SchemaInvariants.consistent d'.
Proof.
  eexists. split; [reflexivity |].
  apply (insert_user_keeps_consistency Examples.example_client Examples.example_db);
    [| reflexivity].
  repeat split; simpl.
  - constructor; [intros [] | constructor].
  - constructor; [intros [] | constructor].
  - repeat constructor.
  - constructor.
Defined.

(** ** The occurrences table *)

Section OccurrenceInserts.

Import Schema.

Lemma insert_task_occurrence_ok (named : bool) (row : task_occurrences_row)
    (tbl tbl' : list task_occurrences_row) :
  insert_task_occurrence named row tbl = Ok tbl' ->
  tbl' = (tbl ++ [occurrence_defaults named row])%list
  /\ existsb (same_occurrence_key (occurrence_defaults named row)) tbl = false.
Proof.
  unfold insert_task_occurrence. cbv zeta. intros H.
  apply bind_ok in H as [[] [_ H]]. apply bind_ok in H as [[] [_ H]].
  apply bind_ok in H as [[] [_ H]]. apply bind_ok in H as [[] [Hu H]].
  apply guard_ok in Hu. apply negb_true_iff in Hu.
  injection H as <-. split; [reflexivity | exact Hu].
Qed.

Lemma same_key_of_holds (named : bool) (row r : task_occurrences_row) (k : uuid)
    (e : date) :
  holds k e (occurrence_defaults named row) = true -> holds k e r = true ->
  same_occurrence_key (occurrence_defaults named row) r = true.
Proof.
  unfold holds, same_occurrence_key. simpl.
  destruct (o_task_id row) as [x |], (o_occurrence_date row) as [a |],
    (o_task_id r) as [y |], (o_occurrence_date r) as [b |]; simpl;
    try discriminate; try (rewrite ?andb_false_r; discriminate).
  intros H1 H2. apply andb_true_iff in H1 as [Hx Ha], H2 as [Hy Hb].
  apply String.eqb_eq in Hx, Hy. apply Z.eqb_eq in Ha, Hb. subst.
  rewrite String.eqb_refl, Z.eqb_refl. reflexivity.
Qed.

End OccurrenceInserts.

(** X2.  UNIQUE(task_id, occurrence_date) does not reach rows without a
    task: [task_id] is nullable and a NULL equals nothing, so an occurrence
    row with no task_id (dates given, the status allowed if one is written)
    is accepted on every table, also when the very same row is already
    there, any number of times. *)
Theorem occurrence_without_task_never_collides :
  forall (named : bool) (row : Schema.task_occurrences_row)
         (tbl : list Schema.task_occurrences_row),
    Schema.o_task_id row = None ->
    is_some (Schema.o_occurrence_date row) = true ->
    is_some (Schema.o_due_date row) = true ->
    (named = true ->
     check_in (Schema.o_status row) Schema.occurrence_status_values = true) ->
    Schema.insert_task_occurrence named row tbl
      = Ok (tbl ++ [Schema.occurrence_defaults named row])%list /\
    Schema.insert_task_occurrence named row
      (tbl ++ [Schema.occurrence_defaults named row])%list
      = Ok (tbl ++ [Schema.occurrence_defaults named row;
                    Schema.occurrence_defaults named row])%list.
Proof.
  intros named row tbl Htask Hdate Hdue Hstatus.
  assert (Hany : forall t, Schema.insert_task_occurrence named row t
                           = Ok (t ++ [Schema.occurrence_defaults named row])%list).
  { intros t. unfold Schema.insert_task_occurrence. cbv zeta.
    replace (is_some (Schema.o_occurrence_date (Schema.occurrence_defaults named row)))
      with true by (symmetry; exact Hdate).
    replace (is_some (Schema.o_due_date (Schema.occurrence_defaults named row)))
      with true by (symmetry; exact Hdue).
    replace (check_in (Schema.o_status (Schema.occurrence_defaults named row))
               Schema.occurrence_status_values) with true
      by (simpl; destruct named; [symmetry; apply Hstatus |]; reflexivity).
    replace (existsb (Schema.same_occurrence_key (Schema.occurrence_defaults named row)) t)
      with false; [reflexivity |].
    symmetry. induction t as [| r t IH]; [reflexivity |].
    simpl. rewrite IH. unfold Schema.same_occurrence_key. simpl. rewrite Htask.
    reflexivity. }
  split; [apply Hany |].
  rewrite Hany, <- app_assoc. reflexivity.
Qed.

Lemma occurrence_without_task_never_collides_witness :
  Schema.insert_task_occurrence false MoreExamples.bare_occurrence
    [Schema.occurrence_defaults false MoreExamples.bare_occurrence]
  = Ok [Schema.occurrence_defaults false MoreExamples.bare_occurrence;
        Schema.occurrence_defaults false MoreExamples.bare_occurrence].
Proof.
  destruct (occurrence_without_task_never_collides false
              MoreExamples.bare_occurrence [] eq_refl eq_refl eq_refl
              ltac:(discriminate))
    as [_ H].
  exact H.
Defined.

(** X3.  Once an occurrence of a task on a date is stored, every further
    INSERT for the same task and date is refused, whatever its other
    columns, and the same row offered again is refused with the violation
    of the UNIQUE constraint: at the table a duplicate is an error. *)
Theorem duplicate_occurrence_refused :
  forall (named : bool) (row : Schema.task_occurrences_row)
         (tbl tbl' : list Schema.task_occurrences_row) (k : Schema.uuid),
    Schema.o_task_id row = Some k ->
    Schema.insert_task_occurrence named row tbl = Ok tbl' ->
    Schema.insert_task_occurrence named row tbl'
      = Err (Schema.unique_violation "task_occurrences_task_id_occurrence_date_key") /\
    (forall named2 row2 tbl'',
        Schema.o_task_id row2 = Some k ->
        Schema.o_occurrence_date row2 = Schema.o_occurrence_date row ->
        Schema.insert_task_occurrence named2 row2 tbl' <> Ok tbl'').
Proof.
  intros named row tbl tbl' k Htask Hins.
  pose proof Hins as Hins0.
  unfold Schema.insert_task_occurrence in Hins. cbv zeta in Hins.
  apply bind_ok in Hins as [[] [H1 H]]. apply bind_ok in H as [[] [H2 H]].
  apply bind_ok in H as [[] [H3 H]]. apply bind_ok in H as [[] [H4 H]].
  injection H as <-.
  pose proof H1 as H1r.
  apply guard_ok in H1. simpl in H1.
  destruct (Schema.o_occurrence_date row) as [dt |] eqn:Hdate; [| discriminate].
  assert (Hself : forall named2 row2,
             Schema.o_task_id row2 = Some k ->
             Schema.o_occurrence_date row2 = Some dt ->
             existsb (Schema.same_occurrence_key (Schema.occurrence_defaults named2 row2))
                     (tbl ++ [Schema.occurrence_defaults named row]) = true).
  { intros named2 row2 Ht2 Hd2. rewrite existsb_app. apply orb_true_iff. right. simpl.
    unfold Schema.same_occurrence_key. simpl. rewrite Ht2, Hd2, Htask, Hdate.
    rewrite String.eqb_refl, Z.eqb_refl. reflexivity. }
  split.
  - unfold Schema.insert_task_occurrence. cbv zeta. rewrite H1r, H2, H3.
    cbn [bind]. rewrite (Hself named row Htask Hdate). reflexivity.
  - intros named2 row2 tbl'' Ht2 Hd2 Hins2.
    apply insert_task_occurrence_ok in Hins2 as [_ Hno].
    rewrite (Hself named2 row2 Ht2 Hd2) in Hno. discriminate.
Qed.

Lemma duplicate_occurrence_refused_witness :
  Schema.insert_task_occurrence false MoreExamples.first_occurrence
    [Schema.occurrence_defaults false MoreExamples.first_occurrence]
  = Err (Schema.unique_violation "task_occurrences_task_id_occurrence_date_key") /\
  Schema.insert_task_occurrence true MoreExamples.repeated_occurrence
    [Schema.occurrence_defaults false MoreExamples.first_occurrence]
  <> Ok [Schema.occurrence_defaults false MoreExamples.first_occurrence;
         Schema.occurrence_defaults true MoreExamples.repeated_occurrence].
Proof.
  destruct (duplicate_occurrence_refused false MoreExamples.first_occurrence []
              [Schema.occurrence_defaults false MoreExamples.first_occurrence] "t-9"
              eq_refl eq_refl) as [H1 H2].
  split; [exact H1 | apply H2; reflexivity].
Defined.

(** X4.  Every accepted INSERT INTO task_occurrences keeps the table free
    of duplicates: if no (task_id, occurrence_date) is held by two rows
    before, none is after. *)
Theorem insert_task_occurrence_keeps_unique :
  forall (named : bool) (row : Schema.task_occurrences_row)
         (tbl tbl' : list Schema.task_occurrences_row),
    Generator.unique_occurrences tbl ->
    Schema.insert_task_occurrence named row tbl = Ok tbl' ->
    Generator.unique_occurrences tbl'.
Proof.
  intros named row tbl tbl' Huniq Hins.
  apply insert_task_occurrence_ok in Hins as [-> Hno].
  intros k e. unfold Schema.occurrences_of. rewrite filter_app, length_app. simpl.
  destruct (Schema.holds k e (Schema.occurrence_defaults named row)) eqn:Hh; simpl.
  - assert (Hnil : filter (Schema.holds k e) tbl = []).
    { apply existsb_filter_nil.
      destruct (existsb (Schema.holds k e) tbl) eqn:Hex; [| reflexivity].
      apply existsb_exists in Hex as [r [Hin Hr]].
      assert (Hc : existsb (Schema.same_occurrence_key
                              (Schema.occurrence_defaults named row)) tbl
                   = true).
      { apply existsb_exists. exists r. split; [exact Hin |].
        apply (same_key_of_holds named row r k e Hh Hr). }
      rewrite Hc in Hno. discriminate. }
    rewrite Hnil. simpl. lia.
  - rewrite Nat.add_0_r. apply Huniq.
Qed.

Lemma insert_task_occurrence_keeps_unique_witness :
  Schema.insert_task_occurrence false MoreExamples.first_occurrence []
    = Ok [Schema.occurrence_defaults false MoreExamples.first_occurrence] /\
  (List.length
     (Schema.occurrences_of "t-9" 19725%Z
        [Schema.occurrence_defaults false MoreExamples.first_occurrence]) <= 1)%nat.
Proof.
  split; [reflexivity |].
  apply (insert_task_occurrence_keeps_unique false MoreExamples.first_occurrence [] _
           (fun k d => Nat.le_0_l 1) eq_refl).
Defined.

(** ** The tasks table *)

Section TaskInserts.

Import Schema.

Lemma check_in_some (x : option string) (vs : list string) (v : string) :
  x = Some v -> check_in x vs = true -> In v vs.
Proof.
  intros -> H. simpl in H. unfold text_in in H.
  apply existsb_exists in H as [y [Hin Heq]].
  apply String.eqb_eq in Heq. subst y. exact Hin.
Qed.

Lemma tasks_row_ok_inv (row : tasks_row) :
  tasks_row_ok row = Ok tt ->
  is_some (t_name row) = true /\ is_some (t_task_type row) = true
  /\ check_in (t_task_type row) task_type_values = true
  /\ check_in (t_schedule_frequency row) schedule_frequency_values = true
  /\ check_in (t_priority row) priority_values = true
  /\ check_in (t_status row) task_status_values = true.
Proof.
  unfold tasks_row_ok. intros H.
  apply bind_ok in H as [[] [H1 H]]. apply bind_ok in H as [[] [H2 H]].
  apply bind_ok in H as [[] [H3 H]]. apply bind_ok in H as [[] [H4 H]].
  apply bind_ok in H as [[] [H5 H6]].
  apply guard_ok in H1, H2, H3, H4, H5, H6. repeat split; assumption.
Qed.

Lemma tasks_rows_ok_all (rows : list tasks_row) :
  Forall (fun r => tasks_row_ok r = Ok tt) rows -> tasks_rows_ok rows = Ok tt.
Proof.
  induction 1 as [| r rows Hr _ IH]; simpl; [reflexivity |].
  rewrite Hr. simpl. exact IH.
Qed.

End TaskInserts.

(** X5.  An accepted INSERT INTO tasks stores a row that meets the row
    constraints: it has a name, a task type that is one_time or recurring,
    a priority that is NULL or among low, medium, high, and a status that is
    NULL or of the allowed list.  The DEFAULT reaches only a column the
    INSERT leaves out: priority is then medium and status not_started; a
    column the INSERT names is stored as written, so that a NULL written
    there is stored as NULL.  The INSERT appends that one row, and the ids
    of the table stay unique. *)
Theorem insert_task_stores_valid_row :
  forall (cols : Schema.tasks_columns) (row : Schema.tasks_row)
         (tbl tbl' : list Schema.tasks_row),
    NoDup (map Schema.t_id tbl) ->
    Schema.insert_task cols row tbl = Ok tbl' ->
    exists stored,
      tbl' = (tbl ++ [stored])%list /\
      NoDup (map Schema.t_id tbl') /\
      Schema.tasks_row_ok stored = Ok tt /\
      Schema.t_name stored = Schema.t_name row /\ Schema.t_name row <> None /\
      (Schema.t_task_type stored = Some "one_time"
       \/ Schema.t_task_type stored = Some "recurring") /\
      (forall p, Schema.t_priority stored = Some p -> In p Schema.priority_values) /\
      (Schema.names_priority cols = false -> Schema.t_priority stored = Some "medium") /\
      (Schema.names_priority cols = true ->
       Schema.t_priority stored = Schema.t_priority row) /\
      (forall s, Schema.t_status stored = Some s -> In s Schema.task_status_values) /\
      (Schema.names_status cols = false ->
       Schema.t_status stored = Some "not_started") /\
      (Schema.names_status cols = true -> Schema.t_status stored = Schema.t_status row).
Proof.
  intros cols row tbl tbl' Hnd H. unfold Schema.insert_task in H. cbv zeta in H.
  apply bind_ok in H as [[] [Hrow H]]. apply bind_ok in H as [[] [Hpk H]].
  injection H as <-. apply guard_ok in Hpk. apply negb_true_iff in Hpk.
  destruct (tasks_row_ok_inv _ Hrow) as [Hn [Ht [Htt [_ [Hp Hs]]]]].
  exists (Schema.tasks_defaults cols row).
  split; [reflexivity |]. split.
  { rewrite map_app. apply NoDup_snoc; [exact Hnd | apply uuid_in_false; exact Hpk]. }
  split; [exact Hrow |]. split; [reflexivity |]. split.
  { simpl in Hn. destruct (Schema.t_name row); discriminate. }
  split.
  { simpl in Ht, Htt. simpl. destruct (Schema.t_task_type row) as [ty |]; [| discriminate].
    pose proof (check_in_some _ _ ty eq_refl Htt) as Hin. simpl in Hin.
    destruct Hin as [<- | [<- | []]]; [left | right]; reflexivity. }
  split; [intros q Hq; apply (check_in_some _ _ q Hq Hp) |].
  split; [intros Hc; simpl; rewrite Hc; reflexivity |].
  split; [intros Hc; simpl; rewrite Hc; reflexivity |].
  split; [intros q Hq; apply (check_in_some _ _ q Hq Hs) |].
  split; intros Hc; simpl; rewrite Hc; reflexivity.
Qed.

Lemma insert_task_stores_valid_row_witness :
  (exists stored,
      Schema.insert_task Examples.defaults_left_out MoreExamples.recurring_task_row []
      = Ok [stored] /\
      Schema.t_priority stored = Some "medium" /\
      Schema.t_status stored = Some "not_started") /\
  (exists stored,
      Schema.insert_task Examples.defaults_named MoreExamples.recurring_task_row []
      = Ok [stored] /\
      Schema.t_priority stored = None /\
      Schema.t_status stored = None).
Proof.
  split.
  - destruct (insert_task_stores_valid_row Examples.defaults_left_out
                MoreExamples.recurring_task_row [] _ (NoDup_nil _) eq_refl)
      as [stored [Ht [_ [_ [_ [_ [_ [_ [Hp [_ [_ [Hs _]]]]]]]]]]]].
    exists stored. simpl in Ht. injection Ht as <-.
    split; [reflexivity | split; [apply Hp | apply Hs]; reflexivity].
  - destruct (insert_task_stores_valid_row Examples.defaults_named
                MoreExamples.recurring_task_row [] _ (NoDup_nil _) eq_refl)
      as [stored [Ht [_ [_ [_ [_ [_ [_ [_ [Hp [_ [_ Hs]]]]]]]]]]]].
    exists stored. simpl in Ht. injection Ht as <-.
    split; [reflexivity | split; [rewrite Hp | rewrite Hs]; reflexivity].
Defined.

(** X6.  On a tasks table whose rows satisfy the row constraints, an UPDATE
    of next_run_date is always accepted, for any id and any value: it
    changes next_run_date of the rows with that id and nothing else, keeps
    the ids and the validity of the table, and with an id that no row has
    it succeeds and leaves the table as it was. *)
Theorem update_next_run_date_accepted :
  forall (k : Schema.uuid) (v : option Schema.date) (tbl : list Schema.tasks_row),
    SchemaInvariants.tasks_valid tbl ->
    exists tbl',
      Schema.update_task_next_run_date k v tbl = Ok tbl' /\
      tbl' = map (fun r => if (Schema.t_id r =? k)
                           then Schema.set_next_run_date v r else r) tbl /\
      map Schema.t_id tbl' = map Schema.t_id tbl /\
      SchemaInvariants.tasks_valid tbl' /\
      (Schema.uuid_in k (map Schema.t_id tbl) = false -> tbl' = tbl).
Proof.
  intros k v tbl Hvalid.
  set (f := fun r => if (Schema.t_id r =? k) then Schema.set_next_run_date v r else r).
  assert (Hv' : SchemaInvariants.tasks_valid (map f tbl)).
  { unfold SchemaInvariants.tasks_valid in *. apply Forall_map.
    eapply Forall_impl; [| exact Hvalid].
    intros r Hr. unfold f. destruct (Schema.t_id r =? k); exact Hr. }
  exists (map f tbl). split; [| split; [reflexivity | split; [| split; [exact Hv' |]]]].
  - unfold Schema.update_task_next_run_date. cbv zeta. fold f.
    rewrite tasks_rows_ok_all; [reflexivity |].
    unfold SchemaInvariants.tasks_valid in Hv'.
    apply Forall_forall. intros r Hin. apply filter_In in Hin as [Hin _].
    rewrite Forall_forall in Hv'. apply Hv'. exact Hin.
  - rewrite map_map. apply map_ext. intros r. unfold f.
    destruct (Schema.t_id r =? k); reflexivity.
  - intros Hno. destruct (no_row_with_id k tbl Hno (Schema.set_next_run_date v))
      as [Hmap _]. exact Hmap.
Qed.

Lemma update_next_run_date_accepted_witness :
  Schema.update_task_next_run_date "t-404" None
    [Schema.tasks_defaults Examples.defaults_left_out MoreExamples.recurring_task_row]
  = Ok [Schema.tasks_defaults Examples.defaults_left_out MoreExamples.recurring_task_row].
Proof.
  assert (Hvalid : SchemaInvariants.tasks_valid
                     [Schema.tasks_defaults Examples.defaults_left_out
                        MoreExamples.recurring_task_row]).
  { constructor; [reflexivity | constructor]. }
  destruct (update_next_run_date_accepted "t-404" None
              [Schema.tasks_defaults Examples.defaults_left_out
                 MoreExamples.recurring_task_row] Hvalid)
    as [tbl' [Hupd [_ [_ [_ Hsame]]]]].
  rewrite Hupd, (Hsame eq_refl). reflexivity.
Defined.

(** ** The dashboard's other counters *)

Section DashboardCounters.

Import Dashboard DashboardView.

Lemma count_status (s : string) (rs : list status_row) :
  List.length (filter (fun r => status r =? s) rs)
  = count_occ string_dec (map status rs) s.
Proof.
  induction rs as [| r rs IH]; simpl; [reflexivity |].
  destruct (string_dec (status r) s) as [E | N].
  - rewrite E, String.eqb_refl. simpl. rewrite IH. reflexivity.
  - apply String.eqb_neq in N. rewrite N. exact IH.
Qed.

Lemma count_either (a b : string) (rs : list status_row) :
  a <> b ->
  List.length (filter (fun r => (status r =? a) || (status r =? b)) rs)
  = (count_occ string_dec (map status rs) a
     + count_occ string_dec (map status rs) b)%nat.
Proof.
  intros Hab. induction rs as [| r rs IH]; simpl; [reflexivity |].
  destruct (string_dec (status r) a) as [Ea | Na],
           (string_dec (status r) b) as [Eb | Nb].
  - congruence.
  - rewrite Ea, String.eqb_refl. simpl. rewrite IH. reflexivity.
  - rewrite Eb, String.eqb_refl, orb_true_r. simpl. rewrite IH. lia.
  - apply String.eqb_neq in Na, Nb. rewrite Na, Nb. simpl. exact IH.
Qed.

Lemma count_where_rows (p : status_row -> bool) (q : query_result) :
  count_where p q = List.length (filter p (rows q)).
Proof.
  unfold count_where, rows. destruct (data q); [apply num_or_zero | reflexivity].
Qed.

Lemma three_counts (a b c : string) (l : list string) :
  a <> b -> a <> c -> b <> c ->
  (count_occ string_dec l a + count_occ string_dec l b + count_occ string_dec l c
   <= List.length l)%nat.
Proof.
  intros Hab Hac Hbc. induction l as [| x l IH]; simpl; [lia |].
  destruct (string_dec x a), (string_dec x b), (string_dec x c);
    try congruence; lia.
Qed.

End DashboardCounters.

(** X7.  In the statistics [loadStats] computes, for a client and for the
    organization alike: pending requests are the loaded requests that are
    sent or in_progress, completed the ones that are completed; so the
    overdue count never exceeds the pending count (every "overdue" request
    is counted as pending too), and pending plus completed never exceeds
    the number of requests loaded. *)
Theorem dashboard_request_counters :
  forall (p : Dashboard.Profile) (requestsData tasksData : Dashboard.query_result)
         (st : Dashboard.state),
    Dashboard.pendingRequests
      (Dashboard.stats (Dashboard.loadStats (Some p) (Some (requestsData, tasksData)) st))
    = (DashboardView.with_status "sent" requestsData
       + DashboardView.with_status "in_progress" requestsData)%nat /\
    Dashboard.completedRequests
      (Dashboard.stats (Dashboard.loadStats (Some p) (Some (requestsData, tasksData)) st))
    = DashboardView.with_status "completed" requestsData /\
    (Dashboard.overdueItems
       (Dashboard.stats (Dashboard.loadStats (Some p) (Some (requestsData, tasksData)) st))
     <= Dashboard.pendingRequests
          (Dashboard.stats
             (Dashboard.loadStats (Some p) (Some (requestsData, tasksData)) st)))%nat /\
    (Dashboard.pendingRequests
       (Dashboard.stats (Dashboard.loadStats (Some p) (Some (requestsData, tasksData)) st))
     + Dashboard.completedRequests
         (Dashboard.stats
            (Dashboard.loadStats (Some p) (Some (requestsData, tasksData)) st))
     <= List.length (DashboardView.rows requestsData))%nat.
Proof.
  intros p rq tk st.
  assert (Hp : Dashboard.pendingRequests
                 (Dashboard.stats (Dashboard.loadStats (Some p) (Some (rq, tk)) st))
               = (DashboardView.with_status "sent" rq
                  + DashboardView.with_status "in_progress" rq)%nat).
  { unfold Dashboard.loadStats. destruct (Dashboard.role p =? "client"); simpl;
      rewrite count_where_rows; apply count_either; discriminate. }
  assert (Hc : Dashboard.completedRequests
                 (Dashboard.stats (Dashboard.loadStats (Some p) (Some (rq, tk)) st))
               = DashboardView.with_status "completed" rq).
  { unfold Dashboard.loadStats. destruct (Dashboard.role p =? "client"); simpl;
      rewrite count_where_rows; apply count_status. }
  assert (Ho : Dashboard.overdueItems
                 (Dashboard.stats (Dashboard.loadStats (Some p) (Some (rq, tk)) st))
               = DashboardView.with_status "in_progress" rq).
  { unfold Dashboard.loadStats. destruct (Dashboard.role p =? "client"); simpl;
      rewrite count_where_rows; apply count_status. }
  rewrite Hp, Hc, Ho. repeat split; [lia |].
  unfold DashboardView.with_status.
  rewrite <- (length_map Dashboard.status (DashboardView.rows rq)).
  apply three_counts; discriminate.
Qed.

(** X8.  For the same loaded tasks, the active-task count of an
    organization profile is the count of a client profile plus the number
    of tasks not yet started: a client's count takes in_progress tasks
    only, the organization's takes not_started ones as well. *)
Theorem active_tasks_by_role :
  forall (client staff : Dashboard.Profile)
         (requestsData tasksData : Dashboard.query_result) (st : Dashboard.state),
    Dashboard.role client = "client" ->
    Dashboard.role staff <> "client" ->
    Dashboard.activeTasks
      (Dashboard.stats (Dashboard.loadStats (Some client) (Some (requestsData, tasksData)) st))
    = DashboardView.with_status "in_progress" tasksData /\
    Dashboard.activeTasks
      (Dashboard.stats (Dashboard.loadStats (Some staff) (Some (requestsData, tasksData)) st))
    = (Dashboard.activeTasks
         (Dashboard.stats
            (Dashboard.loadStats (Some client) (Some (requestsData, tasksData)) st))
       + DashboardView.with_status "not_started" tasksData)%nat.
Proof.
  intros client staff rq tk st Hc Hs.
  apply String.eqb_neq in Hs.
  unfold Dashboard.loadStats. rewrite Hc, Hs. simpl.
  rewrite !count_where_rows. split; [apply count_status |].
  rewrite count_status. apply count_either. discriminate.
Qed.

Lemma active_tasks_by_role_witness :
  Dashboard.activeTasks
    (Dashboard.stats
       (Dashboard.loadStats (Some MoreExamples.manager_profile)
          (Some (MoreExamples.loaded_requests, MoreExamples.loaded_tasks))
          Dashboard.initial_state))
  = (Dashboard.activeTasks
       (Dashboard.stats
          (Dashboard.loadStats (Some MoreExamples.client_profile)
             (Some (MoreExamples.loaded_requests, MoreExamples.loaded_tasks))
             Dashboard.initial_state))
     + 2)%nat.
Proof.
  destruct (active_tasks_by_role MoreExamples.client_profile MoreExamples.manager_profile
              MoreExamples.loaded_requests MoreExamples.loaded_tasks
              Dashboard.initial_state eq_refl ltac:(discriminate)) as [_ H].
  exact H.
Defined.

(** X9.  [loadStats] always ends the loading state.  Without a profile, or
    when the pair of queries is rejected, the statistics shown stay as they
    were; and a response whose data is null counts as no rows: when both
    responses are null all four counters are 0, whatever was shown
    before. *)
Theorem loadStats_edge_cases :
  forall (profile : option Dashboard.Profile)
         (responses : option (Dashboard.query_result * Dashboard.query_result))
         (st : Dashboard.state),
    Dashboard.loading (Dashboard.loadStats profile responses st) = false /\
    (profile = None \/ responses = None ->
     Dashboard.stats (Dashboard.loadStats profile responses st) = Dashboard.stats st) /\
    (forall p,
        profile = Some p ->
        responses = Some ({| Dashboard.data := None |}, {| Dashboard.data := None |}) ->
        Dashboard.stats (Dashboard.loadStats profile responses st)
        = {| Dashboard.pendingRequests := 0; Dashboard.completedRequests := 0;
             Dashboard.overdueItems := 0; Dashboard.activeTasks := 0 |}).
Proof.
  intros profile responses st. split; [| split].
  - unfold Dashboard.loadStats. destruct profile as [p |]; [| reflexivity].
    destruct responses as [[rq tk] |]; [| reflexivity].
    destruct (Dashboard.role p =? "client"); reflexivity.
  - intros [-> | ->]; [reflexivity |].
    destruct profile; reflexivity.
  - intros p -> ->. unfold Dashboard.loadStats.
    destruct (Dashboard.role p =? "client"); reflexivity.
Qed.

Lemma loadStats_edge_cases_witness :
  Dashboard.stats
    (Dashboard.loadStats (Some MoreExamples.client_profile) None Dashboard.initial_state)
  = Dashboard.stats Dashboard.initial_state.
Proof.
  destruct (loadStats_edge_cases (Some MoreExamples.client_profile) None
              Dashboard.initial_state) as [_ [H _]].
  apply H. right. reflexivity.
Defined.

(** ** The approvals list *)

Section ApprovalsList.

Import Approvals ApprovalsView.

Lemma loadApprovals_org (p : Profile) (org : string) (pg : page) :
  p_organization_id p = Some org -> org <> "" ->
  table (loadApprovals (Some p) None pg) = table pg
  /\ approvals (loadApprovals (Some p) None pg)
     = let mine := filter (fun a => organization_id a =? org) (table pg) in
       if filter_ pg =? "pending" then
         filter (fun a => negb (is_some (action a))) mine
       else if negb (filter_ pg =? "all") then
         filter (fun a => opt_eqb String.eqb (action a) (Some (filter_ pg))) mine
       else mine.
Proof.
  intros Horg Hne. unfold loadApprovals. rewrite Horg. simpl truthy.
  apply String.eqb_neq in Hne. rewrite Hne. simpl. split; reflexivity.
Qed.

(** The query failed: the state is the one before, with loading off and a
    line on the console. *)
Lemma loadApprovals_error (p : Profile) (org e : string) (pg : page) :
  p_organization_id p = Some org -> org <> "" ->
  loadApprovals (Some p) (Some e) pg
  = {| table := table pg; approvals := approvals pg; loading := false;
       filter_ := filter_ pg; processingId := processingId pg;
       alerts := alerts pg;
       console := (console pg ++ ["Error loading approvals:"])%list |}.
Proof.
  intros Horg Hne. unfold loadApprovals. rewrite Horg. simpl truthy.
  apply String.eqb_neq in Hne. rewrite Hne. reflexivity.
Qed.

Lemma loadApprovals_loading (p : Profile) (error : option string) (pg : page) :
  loading (loadApprovals (Some p) error pg) = false.
Proof.
  unfold loadApprovals.
  destruct (truthy (p_organization_id p)); try destruct (p_organization_id p);
    destruct error; reflexivity.
Qed.

(** What the answered query loads. *)
Lemma loadApprovals_members (p : Profile) (org : string) (pg : page) (a : Approval) :
  p_organization_id p = Some org -> org <> "" ->
  In a (approvals (loadApprovals (Some p) None pg))
  <->
  (In a (table pg) /\ organization_id a = org /\
   (filter_ pg = "pending" -> action a = None) /\
   (filter_ pg <> "pending" -> filter_ pg <> "all" -> action a = Some (filter_ pg))).
Proof.
  intros Horg Hne.
  destruct (loadApprovals_org p org pg Horg Hne) as [_ Ha].
  rewrite Ha. cbv zeta.
  destruct (filter_ pg =? "pending") eqn:Hp.
  - apply String.eqb_eq in Hp. rewrite !filter_In, String.eqb_eq. split.
    + intros [[Hin Ho] Hact].
      repeat split; try assumption.
      * intros _. destruct (action a); [discriminate | reflexivity].
      * intros Hnp. contradiction.
    + intros [Hin [Ho [Hact _]]]. rewrite (Hact Hp). repeat split; assumption.
  - apply String.eqb_neq in Hp.
    destruct (filter_ pg =? "all") eqn:Hall; simpl negb; cbv iota.
    + apply String.eqb_eq in Hall. rewrite filter_In, String.eqb_eq. split.
      * intros [Hin Ho]. repeat split; try assumption; intros; contradiction.
      * intros [Hin [Ho _]]. split; assumption.
    + apply String.eqb_neq in Hall. rewrite !filter_In, String.eqb_eq. split.
      * intros [[Hin Ho] Hact]. repeat split; try assumption.
        -- intros; contradiction.
        -- intros _ _. destruct (action a) as [v |]; [| discriminate].
           simpl in Hact. apply String.eqb_eq in Hact. rewrite Hact. reflexivity.
      * intros [Hin [Ho [_ Hact]]]. rewrite (Hact Hp Hall). simpl.
        rewrite String.eqb_refl. repeat split; assumption.
Qed.

Lemma update_eq_id_ids (k : string) (patch : Approval -> Approval) (tbl : list Approval) :
  (forall a, id (patch a) = id a) ->
  map id (update_eq_id k patch tbl) = map id tbl
  /\ filter (fun a => negb (id a =? k)) (update_eq_id k patch tbl)
     = filter (fun a => negb (id a =? k)) tbl.
Proof.
  intros Hid. induction tbl as [| a tbl [IH1 IH2]]; [split; reflexivity |].
  simpl. destruct (id a =? k) eqn:E; simpl.
  - rewrite Hid, E, IH1, IH2. simpl. split; reflexivity.
  - rewrite E, IH1, IH2. simpl. split; reflexivity.
Qed.

Lemma updated_rows_patched (k : string) (patch : Approval -> Approval)
    (tbl : list Approval) (a : Approval) :
  (forall x, id (patch x) = id x) ->
  In a (update_eq_id k patch tbl) -> id a = k -> exists x, a = patch x.
Proof.
  intros Hid Hin Hk. unfold update_eq_id in Hin.
  apply in_map_iff in Hin as [x [Hx _]].
  destruct (id x =? k) eqn:E.
  - exists x. symmetry. exact Hx.
  - subst a. apply String.eqb_neq in E. contradiction.
Qed.

Lemma run_update_table (p : Profile) (error reload : option string) (k : string)
    (patch : Approval -> Approval) (log alert : string) (pg : page) :
  table (run_update p error reload k patch log alert pg)
  = match error with
    | None => update_eq_id k patch (table pg)
    | Some _ => table pg
    end.
Proof.
  unfold run_update. destruct error; [reflexivity |].
  destruct (loadApprovals_table (Some p) reload
    {| table := update_eq_id k patch (table pg); approvals := approvals pg;
       loading := loading pg; filter_ := filter_ pg; processingId := None;
       alerts := alerts pg; console := console pg |}) as [Ht _].
  exact Ht.
Qed.

End ApprovalsList.

(** X10.  [loadApprovals], for a profile with an organization, never
    changes the table, raises no alert and always ends the loading state.
    When the backend answers the query without error, the page loads
    exactly the approvals of that organization that match the filter: with
    "pending" those whose action is null, with "all" every one, with any
    other filter those whose action equals it; under the pending filter
    every loaded row is rendered as pending, so the pending counter equals
    the length of the list.  When the backend reports an error, the page
    keeps the list it had, and with it the pending counter, and logs the
    failure to the console. *)
Theorem loadApprovals_filters :
  forall (p : Approvals.Profile) (org : string) (error : option string)
         (pg : Approvals.page),
    Approvals.p_organization_id p = Some org ->
    org <> "" ->
    Approvals.table (Approvals.loadApprovals (Some p) error pg) = Approvals.table pg /\
    Approvals.alerts (Approvals.loadApprovals (Some p) error pg) = Approvals.alerts pg /\
    Approvals.loading (Approvals.loadApprovals (Some p) error pg) = false /\
    (error = None ->
     (forall a,
         In a (Approvals.approvals (Approvals.loadApprovals (Some p) error pg))
         <->
         (In a (Approvals.table pg) /\ Approvals.organization_id a = org /\
          (Approvals.filter_ pg = "pending" -> Approvals.action a = None) /\
          (Approvals.filter_ pg <> "pending" -> Approvals.filter_ pg <> "all" ->
           Approvals.action a = Some (Approvals.filter_ pg)))) /\
     (Approvals.filter_ pg = "pending" ->
      ApprovalsView.pendingCount (Approvals.loadApprovals (Some p) error pg)
      = List.length (Approvals.approvals (Approvals.loadApprovals (Some p) error pg)))) /\
    (forall e,
        error = Some e ->
        Approvals.approvals (Approvals.loadApprovals (Some p) error pg)
        = Approvals.approvals pg /\
        ApprovalsView.pendingCount (Approvals.loadApprovals (Some p) error pg)
        = ApprovalsView.pendingCount pg /\
        Approvals.console (Approvals.loadApprovals (Some p) error pg)
        = (Approvals.console pg ++ ["Error loading approvals:"])%list).
Proof.
  intros p org error pg Horg Hne.
  destruct (loadApprovals_table (Some p) error pg) as [Ht Hal].
  split; [exact Ht | split; [exact Hal | split; [apply loadApprovals_loading |]]].
  split.
  - intros ->. split.
    + intros a. apply loadApprovals_members; assumption.
    + intros Hp. unfold ApprovalsView.pendingCount.
      destruct (loadApprovals_org p org pg Horg Hne) as [_ Ha].
      rewrite Ha. cbv zeta.
      apply String.eqb_eq in Hp. rewrite Hp.
      f_equal. apply forallb_filter_id. apply forallb_forall.
      intros a Hin. apply filter_In in Hin as [_ Hact].
      destruct (Approvals.action a); [discriminate | reflexivity].
  - intros e ->. rewrite (loadApprovals_error p org e pg Horg Hne).
    repeat split.
Qed.

Lemma loadApprovals_filters_witness :
  ApprovalsView.pendingCount
    (Approvals.loadApprovals (Some Examples.reviewer_one) None MoreExamples.pending_page)
  = 2%nat /\
  Approvals.approvals
    (Approvals.loadApprovals (Some Examples.reviewer_one) (Some "timeout")
       MoreExamples.stale_page)
  = [Examples.pending_approval].
Proof.
  destruct (loadApprovals_filters Examples.reviewer_one "org-1" None
              MoreExamples.pending_page eq_refl ltac:(discriminate))
    as [_ [_ [_ [H _]]]].
  destruct (H eq_refl) as [_ Hcount].
  split; [rewrite (Hcount eq_refl); reflexivity |].
  destruct (loadApprovals_filters Examples.reviewer_one "org-1" (Some "timeout")
              MoreExamples.stale_page eq_refl ltac:(discriminate))
    as [_ [_ [_ [_ Herr]]]].
  destruct (Herr "timeout" eq_refl) as [Hkept _]. exact Hkept.
Defined.

(** X11.  With the pending filter on, once [handleApprove] or
    [handleReject] (with remarks) has gone through for an id and the list
    has been loaded again, no approval with that id is in the list the page
    shows: the Approve and Reject buttons for it are gone. *)
Theorem reviewed_approval_leaves_pending_list :
  forall (p : Approvals.Profile) (org now k : string) (pg : Approvals.page),
    Approvals.p_organization_id p = Some org ->
    org <> "" ->
    Approvals.filter_ pg = "pending" ->
    (forall a,
        In a (Approvals.approvals
                (Approvals.handleApprove (Some p) now None None k pg)) ->
        Approvals.id a <> k) /\
    (forall text a,
        text <> "" ->
        In a (Approvals.approvals
                (Approvals.handleReject (Some p) now None None None k (Some text) pg)) ->
        Approvals.id a <> k).
Proof.
  intros p org now k pg Horg Hne Hp.
  assert (Hgen : forall patch log alert a,
             (forall x, Approvals.id (patch x) = Approvals.id x) ->
             (forall x, Approvals.action (patch x) <> None) ->
             In a (Approvals.approvals
                     (Approvals.run_update p None None k patch log alert pg)) ->
             Approvals.id a <> k).
  { intros patch log alert a Hid Hact Hin Hk.
    unfold Approvals.run_update in Hin.
    apply (loadApprovals_members p org _ a Horg Hne) in Hin as [Hin [_ [Hnull _]]].
    simpl in Hin, Hnull.
    specialize (Hnull Hp).
    destruct (updated_rows_patched k patch _ a Hid Hin Hk) as [x ->].
    exact (Hact x Hnull). }
  split.
  - intros a Hin. unfold Approvals.handleApprove in Hin.
    apply (Hgen (Approvals.approve_patch now (Approvals.p_id p)) _ _ a
             (fun x => eq_refl)) in Hin; [exact Hin |].
    intros x. discriminate.
  - intros text a Htext Hin. apply String.eqb_neq in Htext.
    assert (Hrej : Approvals.handleReject (Some p) now None None None k (Some text) pg
                   = Approvals.run_update p None None k
                       (Approvals.reject_patch now (Approvals.p_id p) text)
                       "Error rejecting:" "Failed to reject. Please try again." pg).
    { unfold Approvals.handleReject, truthy. rewrite Htext. simpl negb. cbv iota.
      rewrite Htext. reflexivity. }
    rewrite Hrej in Hin.
    apply (Hgen (Approvals.reject_patch now (Approvals.p_id p) text) _ _ a
             (fun x => eq_refl)) in Hin; [exact Hin |].
    intros x. discriminate.
Qed.

Lemma reviewed_approval_leaves_pending_list_witness :
  Approvals.approvals
    (Approvals.handleApprove (Some Examples.reviewer_one) "2024-02-02T08:00:00.000Z"
       None None "a-1" MoreExamples.pending_page)
  = [MoreExamples.other_pending_approval] /\
  forall a,
    In a (Approvals.approvals
            (Approvals.handleApprove (Some Examples.reviewer_one)
               "2024-02-02T08:00:00.000Z" None None "a-1" MoreExamples.pending_page)) ->
    Approvals.id a <> "a-1".
Proof.
  split; [reflexivity |].
  destruct (reviewed_approval_leaves_pending_list Examples.reviewer_one "org-1"
              "2024-02-02T08:00:00.000Z" "a-1" MoreExamples.pending_page
              eq_refl ltac:(discriminate) eq_refl) as [H _].
  exact H.
Defined.

Section ApprovalHandlers.

Import Approvals.

Lemma handleReject_cases (profile : option Profile) (now : string)
    (error reload prompted : option string) (k : string) (remarks : option string)
    (pg : page) :
  handleReject profile now error reload prompted k remarks pg = pg
  \/ exists p text,
       profile = Some p /\
       handleReject profile now error reload prompted k remarks pg
       = run_update p error reload k (reject_patch now (p_id p) text)
           "Error rejecting:" "Failed to reject. Please try again." pg.
Proof.
  unfold handleReject. destruct profile as [p |]; [| left; reflexivity].
  destruct (if truthy remarks then remarks else prompted) as [text |];
    [| left; reflexivity].
  destruct (truthy (Some text)); [| left; reflexivity].
  right. exists p, text. split; reflexivity.
Qed.

Lemma handleReject_with_remarks (p : Profile) (now : string)
    (error reload : option string) (k text : string) (pg : page) :
  text <> "" ->
  handleReject (Some p) now error reload None k (Some text) pg
  = run_update p error reload k (reject_patch now (p_id p) text)
      "Error rejecting:" "Failed to reject. Please try again." pg.
Proof.
  intros Htext. apply String.eqb_neq in Htext.
  unfold handleReject, truthy. rewrite Htext. simpl negb. cbv iota.
  rewrite Htext. reflexivity.
Qed.

Lemma run_update_frame (p : Profile) (error reload : option string) (k : string)
    (patch : Approval -> Approval) (log alert : string) (pg : page) :
  (forall a, id (patch a) = id a) ->
  map id (table (run_update p error reload k patch log alert pg)) = map id (table pg)
  /\ filter (fun a => negb (id a =? k))
            (table (run_update p error reload k patch log alert pg))
     = filter (fun a => negb (id a =? k)) (table pg).
Proof.
  intros Hid. rewrite run_update_table. destruct error; [split; reflexivity |].
  apply update_eq_id_ids. exact Hid.
Qed.

End ApprovalHandlers.

(** X12.  [handleApprove] and [handleReject], whatever their arguments and
    whatever the backend answers, never add or remove an approval and never
    touch an approval with another id: the ids of the table stay as they
    are, in order, and the rows whose id differs from the one given are
    unchanged. *)
Theorem approval_handlers_touch_only_their_id :
  forall (profile : option Approvals.Profile) (now : string)
         (error reload prompted : option string) (k : string)
         (remarks : option string) (pg : Approvals.page),
    (map Approvals.id
         (Approvals.table (Approvals.handleApprove profile now error reload k pg))
     = map Approvals.id (Approvals.table pg) /\
     filter (fun a => negb (Approvals.id a =? k))
            (Approvals.table (Approvals.handleApprove profile now error reload k pg))
     = filter (fun a => negb (Approvals.id a =? k)) (Approvals.table pg)) /\
    (map Approvals.id
         (Approvals.table
            (Approvals.handleReject profile now error reload prompted k remarks pg))
     = map Approvals.id (Approvals.table pg) /\
     filter (fun a => negb (Approvals.id a =? k))
            (Approvals.table
               (Approvals.handleReject profile now error reload prompted k remarks pg))
     = filter (fun a => negb (Approvals.id a =? k)) (Approvals.table pg)).
Proof.
  intros profile now error reload prompted k remarks pg. split.
  - unfold Approvals.handleApprove. destruct profile as [p |]; [| split; reflexivity].
    apply run_update_frame. reflexivity.
  - destruct (handleReject_cases profile now error reload prompted k remarks pg)
      as [-> | [p [text [_ ->]]]]; [split; reflexivity |].
    apply run_update_frame. reflexivity.
Qed.

(** X13.  The two handlers compose by last write on action, reviewer and
    time, but not on remarks: rejecting an approval and then approving it
    stores action approved with the second reviewer and still the remarks
    of the rejection; approving and then rejecting stores action rejected
    with the rejection's remarks.  The answers to the reloads play no
    part. *)
Theorem approve_and_reject_compose :
  forall (p1 p2 : Approvals.Profile) (now1 now2 k text : string)
         (reload1 reload2 : option string)
         (pg : Approvals.page) (a : Approvals.Approval),
    Approvals.stored k pg = Some a ->
    text <> "" ->
    (exists a',
        Approvals.stored k
          (Approvals.handleApprove (Some p2) now2 None reload2 k
             (Approvals.handleReject (Some p1) now1 None reload1 None k (Some text) pg))
        = Some a' /\
        Approvals.action a' = Some "approved" /\
        Approvals.reviewer_id a' = Some (Approvals.p_id p2) /\
        Approvals.reviewed_at a' = Some now2 /\
        Approvals.remarks a' = Some text) /\
    (exists a',
        Approvals.stored k
          (Approvals.handleReject (Some p2) now2 None reload2 None k (Some text)
             (Approvals.handleApprove (Some p1) now1 None reload1 k pg))
        = Some a' /\
        Approvals.action a' = Some "rejected" /\
        Approvals.reviewer_id a' = Some (Approvals.p_id p2) /\
        Approvals.reviewed_at a' = Some now2 /\
        Approvals.remarks a' = Some text).
Proof.
  intros p1 p2 now1 now2 k text reload1 reload2 pg a Hst Htext.
  split.
  - rewrite (handleReject_with_remarks p1 now1 None reload1 k text pg Htext).
    unfold Approvals.handleApprove.
    destruct (run_update_applied p1 reload1 k
                (Approvals.reject_patch now1 (Approvals.p_id p1) text)
                "Error rejecting:" "Failed to reject. Please try again." pg
                (fun x => eq_refl)) as [H1 _].
    destruct (run_update_applied p2 reload2 k
                (Approvals.approve_patch now2 (Approvals.p_id p2))
                "Error approving:" "Failed to approve. Please try again."
                (Approvals.run_update p1 None reload1 k
                   (Approvals.reject_patch now1 (Approvals.p_id p1) text)
                   "Error rejecting:" "Failed to reject. Please try again." pg)
                (fun x => eq_refl)) as [G1 _].
    eexists. rewrite G1, H1, Hst. simpl. repeat split.
  - rewrite (handleReject_with_remarks p2 now2 None reload2 k text _ Htext).
    unfold Approvals.handleApprove.
    destruct (run_update_applied p1 reload1 k
                (Approvals.approve_patch now1 (Approvals.p_id p1))
                "Error approving:" "Failed to approve. Please try again." pg
                (fun x => eq_refl)) as [H1 _].
    destruct (run_update_applied p2 reload2 k
                (Approvals.reject_patch now2 (Approvals.p_id p2) text)
                "Error rejecting:" "Failed to reject. Please try again."
                (Approvals.run_update p1 None reload1 k
                   (Approvals.approve_patch now1 (Approvals.p_id p1))
                   "Error approving:" "Failed to approve. Please try again." pg)
                (fun x => eq_refl)) as [G1 _].
    eexists. rewrite G1, H1, Hst. simpl. repeat split.
Qed.

Lemma approve_and_reject_compose_witness :
  exists a',
    Approvals.stored "a-1"
      (Approvals.handleApprove (Some Examples.reviewer_two) "2024-02-03T08:00:00.000Z"
         None None "a-1"
         (Approvals.handleReject (Some Examples.reviewer_one) "2024-02-02T08:00:00.000Z"
            None None None "a-1" (Some "wrong year") MoreExamples.pending_page))
    = Some a' /\
    Approvals.action a' = Some "approved" /\
    Approvals.remarks a' = Some "wrong year".
Proof.
  destruct (approve_and_reject_compose Examples.reviewer_one Examples.reviewer_two
              "2024-02-02T08:00:00.000Z" "2024-02-03T08:00:00.000Z" "a-1" "wrong year"
              None None MoreExamples.pending_page Examples.pending_approval
              eq_refl ltac:(discriminate))
    as [[a' [Hs [Ha [_ [_ Hr]]]]] _].
  exists a'. split; [exact Hs | split; [exact Ha | exact Hr]].
Defined.

(** ** The reminders list *)

Section RemindersListFacts.

Import RemindersList.

Lemma loadReminders_loaded (p : Approvals.Profile) (org : string) (pg : page) :
  Approvals.p_organization_id p = Some org -> org <> "" ->
  loadReminders (Some p) None pg
  = set_loaded pg
      (let q0 := filter (fun r => organization_id r =? org) (reminders_table pg) in
       let q1 := if negb (statusFilter pg =? "all")
                 then filter (fun r => status r =? statusFilter pg) q0 else q0 in
       if negb (channelFilter pg =? "all")
       then filter (fun r => channel r =? channelFilter pg) q1 else q1).
Proof.
  intros Horg Hne. unfold loadReminders. rewrite Horg. simpl truthy.
  apply String.eqb_neq in Hne. rewrite Hne. reflexivity.
Qed.

Lemma filter_all {A} (p : A -> bool) (l : list A) :
  (forall x, In x l -> p x = true) -> filter p l = l.
Proof.
  intros H. apply forallb_filter_id. apply forallb_forall. exact H.
Qed.

Lemma filter_none {A} (p : A -> bool) (l : list A) :
  (forall x, In x l -> p x = false) -> filter p l = [].
Proof.
  intros H. induction l as [| x l IH]; [reflexivity |].
  simpl. rewrite (H x (or_introl eq_refl)). apply IH.
  intros y Hy. apply H. right. exact Hy.
Qed.

Lemma status_counts (l : list row) (a b c : string) :
  a <> b -> a <> c -> b <> c ->
  (List.length (filter (fun r => (status r =? a)%string) l)
   + List.length (filter (fun r => (status r =? b)%string) l)
   + List.length (filter (fun r => (status r =? c)%string) l) <= List.length l)%nat.
Proof.
  intros Hab Hac Hbc. induction l as [| r l IH]; simpl; [lia |].
  destruct (status r =? a) eqn:Ea, (status r =? b) eqn:Eb, (status r =? c) eqn:Ec;
    simpl; try lia;
    repeat match goal with
           | H : (_ =? _) = true |- _ => apply String.eqb_eq in H
           end; congruence.
Qed.

Lemma NoDup_map_injective {A B} (f : A -> B) (l : list A) (x y : A) :
  NoDup (map f l) -> In x l -> In y l -> f x = f y -> x = y.
Proof.
  induction l as [| z l IH]; simpl; intros Hnd Hx Hy Hf; [contradiction |].
  inversion Hnd as [| ? ? Hz Hnd']; subst.
  destruct Hx as [-> | Hx], Hy as [-> | Hy].
  - reflexivity.
  - exfalso. apply Hz. rewrite Hf. apply in_map. exact Hy.
  - exfalso. apply Hz. rewrite <- Hf. apply in_map. exact Hx.
  - apply IH; assumption.
Qed.

End RemindersListFacts.

(** X14.  [loadReminders], for a profile with an organization and no
    backend error, loads exactly the reminders of that organization that
    match the status filter and the channel filter (each unless it is
    "all").  The three counters above the list are taken from the loaded
    list: together they never exceed its length, and with a status filter
    on, the counter of that status is the length of the list and the other
    counters are 0. *)
Theorem loadReminders_filters_and_counters :
  forall (p : Approvals.Profile) (org : string) (pg : RemindersList.page),
    Approvals.p_organization_id p = Some org ->
    org <> "" ->
    (forall r,
        In r (RemindersList.reminders (RemindersList.loadReminders (Some p) None pg))
        <->
        (In r (RemindersList.reminders_table pg) /\
         RemindersList.organization_id r = org /\
         (RemindersList.statusFilter pg <> "all" ->
          RemindersList.status r = RemindersList.statusFilter pg) /\
         (RemindersList.channelFilter pg <> "all" ->
          RemindersList.channel r = RemindersList.channelFilter pg))) /\
    (RemindersList.pending (RemindersList.stats (RemindersList.loadReminders (Some p) None pg))
     + RemindersList.sent (RemindersList.stats (RemindersList.loadReminders (Some p) None pg))
     + RemindersList.failed (RemindersList.stats (RemindersList.loadReminders (Some p) None pg))
     <= List.length
          (RemindersList.reminders (RemindersList.loadReminders (Some p) None pg)))%nat /\
    (RemindersList.statusFilter pg <> "all" ->
     forall s,
       List.length
         (filter (fun r => RemindersList.status r =? s)
                 (RemindersList.reminders (RemindersList.loadReminders (Some p) None pg)))
       = if RemindersList.statusFilter pg =? s
         then List.length
                (RemindersList.reminders (RemindersList.loadReminders (Some p) None pg))
         else 0%nat).
Proof.
  intros p org pg Horg Hne.
  assert (Hmem : forall r,
             In r (RemindersList.reminders (RemindersList.loadReminders (Some p) None pg))
             <->
             (In r (RemindersList.reminders_table pg) /\
              RemindersList.organization_id r = org /\
              (RemindersList.statusFilter pg <> "all" ->
               RemindersList.status r = RemindersList.statusFilter pg) /\
              (RemindersList.channelFilter pg <> "all" ->
               RemindersList.channel r = RemindersList.channelFilter pg))).
  { intros r. rewrite (loadReminders_loaded p org pg Horg Hne).
    unfold RemindersList.set_loaded. cbn [RemindersList.reminders]. cbv zeta.
    destruct (RemindersList.statusFilter pg =? "all") eqn:Hs,
             (RemindersList.channelFilter pg =? "all") eqn:Hc; simpl negb; cbv iota;
      rewrite ?filter_In, ?String.eqb_eq.
    - apply String.eqb_eq in Hs, Hc. tauto.
    - apply String.eqb_eq in Hs. apply String.eqb_neq in Hc. tauto.
    - apply String.eqb_neq in Hs. apply String.eqb_eq in Hc. tauto.
    - apply String.eqb_neq in Hs, Hc. tauto. }
  split; [exact Hmem | split].
  - unfold RemindersList.stats. cbn [RemindersList.pending RemindersList.sent
                                      RemindersList.failed].
    apply status_counts; discriminate.
  - intros Hs s.
    destruct (RemindersList.statusFilter pg =? s) eqn:E.
    + apply String.eqb_eq in E. f_equal. apply filter_all.
      intros r Hin. apply Hmem in Hin as [_ [_ [Hst _]]].
      rewrite (Hst Hs), E. apply String.eqb_refl.
    + apply String.eqb_neq in E. rewrite filter_none; [reflexivity |].
      intros r Hin. apply Hmem in Hin as [_ [_ [Hst _]]].
      apply String.eqb_neq. rewrite (Hst Hs). exact E.
Qed.

Lemma loadReminders_filters_and_counters_witness :
  RemindersList.stats
    (RemindersList.loadReminders (Some Examples.reviewer_one) None
       MoreExamples.reminders_page)
  = {| RemindersList.pending := 0; RemindersList.sent := 0; RemindersList.failed := 2 |}
  /\
  List.length
    (filter (fun r => RemindersList.status r =? "pending")
            (RemindersList.reminders
               (RemindersList.loadReminders (Some Examples.reviewer_one) None
                  MoreExamples.reminders_page)))
  = 0%nat.
Proof.
  split; [reflexivity |].
  destruct (loadReminders_filters_and_counters Examples.reviewer_one "org-1"
              MoreExamples.reminders_page eq_refl ltac:(discriminate))
    as [_ [_ H]].
  rewrite (H ltac:(discriminate) "pending"). reflexivity.
Defined.

(** X15.  [getUserName] never shows an empty name: it answers "Unknown" for
    a null or empty id, for an id no loaded user has and for a user whose
    name is empty, and otherwise the full name of the first loaded user
    with that id. *)
Theorem getUserName_never_empty :
  forall (us : list RemindersList.User) (userId : option string),
    RemindersList.getUserName us userId <> "" /\
    (RemindersList.getUserName us userId = "Unknown" \/
     exists k u,
       userId = Some k /\ k <> "" /\
       find (fun u => RemindersList.id u =? k) us = Some u /\
       RemindersList.full_name u <> "" /\
       RemindersList.getUserName us userId = RemindersList.full_name u) /\
    (forall k, userId = Some k ->
               find (fun u => RemindersList.id u =? k) us = None ->
               RemindersList.getUserName us userId = "Unknown").
Proof.
  intros us userId. unfold RemindersList.getUserName.
  destruct userId as [k |]; simpl truthy.
  - destruct (k =? "") eqn:Hk; simpl negb; cbv iota.
    + split; [discriminate | split; [left; reflexivity | reflexivity]].
    + destruct (find (fun u => RemindersList.id u =? k) us) as [u |] eqn:Hf.
      * destruct (RemindersList.full_name u =? "") eqn:Hn; simpl negb; cbv iota.
        -- split; [discriminate | split; [left; reflexivity |]].
           intros k' Hk' H. injection Hk' as <-. rewrite Hf in H. discriminate.
        -- apply String.eqb_neq in Hn, Hk.
           split; [exact Hn | split].
           ++ right. exists k, u. repeat split; assumption.
           ++ intros k' Hk' H. injection Hk' as <-. rewrite Hf in H. discriminate.
      * split; [discriminate | split; [left; reflexivity | reflexivity]].
  - split; [discriminate | split; [left; reflexivity |]].
    intros k H. discriminate.
Qed.

Lemma getUserName_never_empty_witness :
  RemindersList.getUserName
    [{| RemindersList.id := "u-2"; RemindersList.full_name := "Client";
        RemindersList.email := "client@firm.example" |}] (Some "u-9")
  = "Unknown".
Proof.
  destruct (getUserName_never_empty
              [{| RemindersList.id := "u-2"; RemindersList.full_name := "Client";
                  RemindersList.email := "client@firm.example" |}] (Some "u-9"))
    as [_ [_ H]].
  apply (H "u-9"); reflexivity.
Defined.

Lemma getUserName_fallback (us : list RemindersList.User) (k : string) :
  (find (fun x => RemindersList.id x =? k) us = None ->
   RemindersList.getUserName us (Some k) = "Unknown") /\
  (forall w, k <> "" ->
             find (fun x => RemindersList.id x =? k) us = Some w ->
             RemindersList.full_name w <> "" ->
             RemindersList.getUserName us (Some k) = RemindersList.full_name w).
Proof.
  unfold RemindersList.getUserName. simpl truthy. split.
  - intros ->. destruct (k =? ""); reflexivity.
  - intros w Hk -> Hn. apply String.eqb_neq in Hk, Hn. rewrite Hk, Hn. reflexivity.
Qed.

(** X16.  The names the reminders page shows come from the active users of
    the profile's organization only.  With unique user ids: a recipient who
    is inactive, or belongs to another organization or to none, is shown as
    "Unknown" although the users table has the row; an active user of the
    organization with a non-empty id and name is shown by full name. *)
Theorem recipient_names_from_active_users :
  forall (p : Approvals.Profile) (org : string) (pg : RemindersList.page)
         (u : Schema.users_row),
    Approvals.p_organization_id p = Some org ->
    org <> "" ->
    NoDup (map Schema.u_id (RemindersList.users_table pg)) ->
    In u (RemindersList.users_table pg) ->
    (Schema.u_is_active u = false \/ Schema.u_organization_id u <> Some org ->
     RemindersList.getUserName
       (RemindersList.users (RemindersList.loadUsers (Some p) false pg))
       (Some (Schema.u_id u)) = "Unknown") /\
    (Schema.u_is_active u = true -> Schema.u_organization_id u = Some org ->
     Schema.u_id u <> "" -> Schema.u_full_name u <> "" ->
     RemindersList.getUserName
       (RemindersList.users (RemindersList.loadUsers (Some p) false pg))
       (Some (Schema.u_id u)) = Schema.u_full_name u).
Proof.
  intros p org pg u Horg Hne Hnd Hin.
  set (keep := fun x : Schema.users_row =>
                 opt_eqb String.eqb (Schema.u_organization_id x) (Some org)
                 && Schema.u_is_active x).
  set (view := fun x : Schema.users_row =>
                 {| RemindersList.id := Schema.u_id x;
                    RemindersList.full_name := Schema.u_full_name x;
                    RemindersList.email := Schema.u_email x |}).
  assert (Hload : RemindersList.users (RemindersList.loadUsers (Some p) false pg)
                  = map view (filter keep (RemindersList.users_table pg))).
  { unfold RemindersList.loadUsers. rewrite Horg. simpl truthy.
    apply String.eqb_neq in Hne. rewrite Hne. reflexivity. }
  assert (Hfind : forall w,
             find (fun x => RemindersList.id x =? Schema.u_id u)
                  (map view (filter keep (RemindersList.users_table pg))) = Some w ->
             keep u = true /\ w = view u).
  { intros w Hw. apply find_some in Hw as [Hw Hid].
    apply in_map_iff in Hw as [x [<- Hx]]. apply filter_In in Hx as [Hx Hk].
    simpl in Hid. apply String.eqb_eq in Hid.
    assert (x = u) by (apply (NoDup_map_injective Schema.u_id _ x u Hnd Hx Hin Hid)).
    subst x. split; [exact Hk | reflexivity]. }
  assert (Hkeep : keep u = true <->
                  Schema.u_organization_id u = Some org /\ Schema.u_is_active u = true).
  { unfold keep. rewrite andb_true_iff.
    destruct (Schema.u_organization_id u) as [o |]; simpl.
    - rewrite String.eqb_eq. split; intros [H1 H2]; split; try exact H2.
      + rewrite H1. reflexivity.
      + injection H1 as H1. exact H1.
    - split; intros [H1 H2]; discriminate. }
  rewrite Hload. split.
  - intros Hout.
    destruct (getUserName_fallback
                (map view (filter keep (RemindersList.users_table pg)))
                (Schema.u_id u)) as [Hnone _].
    apply Hnone.
    destruct (find (fun x => RemindersList.id x =? Schema.u_id u)
                   (map view (filter keep (RemindersList.users_table pg))))
      as [w |] eqn:Hw; [| reflexivity].
    destruct (Hfind w eq_refl) as [Hk _]. apply Hkeep in Hk as [Ho Ha].
    destruct Hout as [Hi | Hno]; [congruence | contradiction].
  - intros Ha Ho Hid Hname.
    destruct (getUserName_fallback
                (map view (filter keep (RemindersList.users_table pg)))
                (Schema.u_id u)) as [_ Hsome].
    apply (Hsome (view u)); [exact Hid | | exact Hname].
    destruct (find (fun x => RemindersList.id x =? Schema.u_id u)
                   (map view (filter keep (RemindersList.users_table pg))))
      as [w |] eqn:Hw.
    + destruct (Hfind w eq_refl) as [_ ->]. reflexivity.
    + exfalso.
      assert (Hv : In (view u) (map view (filter keep (RemindersList.users_table pg)))).
      { apply in_map. apply filter_In. split; [exact Hin |].
        apply Hkeep. split; assumption. }
      pose proof (find_none _ _ Hw (view u) Hv) as Hno. simpl in Hno.
      rewrite String.eqb_refl in Hno. discriminate Hno.
Qed.

Lemma recipient_names_from_active_users_witness :
  RemindersList.getUserName
    (RemindersList.users
       (RemindersList.loadUsers (Some Examples.reviewer_one) false
          MoreExamples.reminders_page)) (Some "u-3") = "Unknown"
  /\
  RemindersList.getUserName
    (RemindersList.users
       (RemindersList.loadUsers (Some Examples.reviewer_one) false
          MoreExamples.reminders_page)) (Some "u-2") = "Client".
Proof.
  assert (Hnd : NoDup (map Schema.u_id
                         (RemindersList.users_table MoreExamples.reminders_page))).
  { simpl. constructor.
    - intros [H | []]. discriminate H.
    - constructor; [intros [] | constructor]. }
  split.
  - destruct (recipient_names_from_active_users Examples.reviewer_one "org-1"
                MoreExamples.reminders_page MoreExamples.inactive_client
                eq_refl ltac:(discriminate) Hnd (or_intror (or_introl eq_refl)))
      as [H _].
    apply H. left. reflexivity.
  - destruct (recipient_names_from_active_users Examples.reviewer_one "org-1"
                MoreExamples.reminders_page Examples.example_client
                eq_refl ltac:(discriminate) Hnd (or_introl eq_refl))
      as [_ H].
    apply H; [reflexivity | reflexivity | discriminate | discriminate].
Defined.

(** X17.  The Retries cell and the Retry button.  The maximum shown is
    never 0: a max_retries that is missing, NULL or 0 is shown, and used,
    as 3.  Retry is offered only for a failed reminder whose shown count is
    below the shown maximum, and for every such reminder whose row carries
    a retry_count, a number or NULL.  A row without a retry_count column,
    as every row of the reminders table that the migration declares, shows
    0 / 3 and is never offered Retry, whatever its status. *)
Theorem retries_cell_and_retry_button :
  forall (r : RemindersPage.Reminder),
    snd (RemindersPage.retries_cell r) <> 0%Z /\
    (RemindersPage.showRetry r = true <->
     RemindersPage.status r = "failed" /\
     RemindersPage.retry_count r <> js_undefined /\
     (fst (RemindersPage.retries_cell r) < snd (RemindersPage.retries_cell r))%Z) /\
    (RemindersPage.retry_count r = js_undefined ->
     fst (RemindersPage.retries_cell r) = 0%Z /\ RemindersPage.showRetry r = false) /\
    (forall st,
        RemindersPage.retries_cell (RemindersPage.of_migration st) = (0%Z, 3%Z) /\
        RemindersPage.showRetry (RemindersPage.of_migration st) = false).
Proof.
  intros r. unfold RemindersPage.retries_cell, RemindersPage.showRetry.
  cbn [fst snd].
  assert (Hmax : number_or (RemindersPage.max_retries r) 3 <> 0%Z).
  { unfold number_or. destruct (RemindersPage.max_retries r) as [| | m];
      try discriminate.
    destruct (m =? 0)%Z eqn:Hm; [discriminate | apply Z.eqb_neq; exact Hm]. }
  split; [exact Hmax |]. split; [| split].
  - rewrite andb_true_iff, String.eqb_eq.
    destruct (RemindersPage.retry_count r) as [| | n]; cbn [less_than number_or].
    + split; [intros [_ H]; discriminate | intros [_ [H _]]; contradiction].
    + rewrite Z.ltb_lt. split.
      * intros [Hs Hlt]. split; [exact Hs | split; [discriminate | exact Hlt]].
      * intros [Hs [_ Hlt]]. split; assumption.
    + rewrite Z.ltb_lt.
      assert (Hn : (if (n =? 0)%Z then 0%Z else n) = n).
      { destruct (n =? 0)%Z eqn:E; [apply Z.eqb_eq in E; congruence | reflexivity]. }
      rewrite Hn. split.
      * intros [Hs Hlt]. split; [exact Hs | split; [discriminate | exact Hlt]].
      * intros [Hs [_ Hlt]]. split; assumption.
  - intros ->. cbn [less_than number_or]. split; [reflexivity | apply andb_false_r].
  - intros st. split; [reflexivity | apply andb_false_r].
Qed.

Lemma retries_cell_and_retry_button_witness :
  RemindersPage.retries_cell (RemindersPage.of_migration "failed") = (0%Z, 3%Z) /\
  RemindersPage.showRetry (RemindersPage.of_migration "failed") = false /\
  RemindersPage.showRetry
    {| RemindersPage.status := "failed"; RemindersPage.retry_count := js_null;
       RemindersPage.max_retries := js_num 0 |} = true.
Proof.
  destruct (retries_cell_and_retry_button (RemindersPage.of_migration "failed"))
    as [_ [_ [_ H]]].
  destruct (H "failed") as [Hcell Hbutton].
  split; [exact Hcell | split; [exact Hbutton |]].
  destruct (retries_cell_and_retry_button
              {| RemindersPage.status := "failed"; RemindersPage.retry_count := js_null;
                 RemindersPage.max_retries := js_num 0 |}) as [_ [Hiff _]].
  apply Hiff. split; [reflexivity | split; [discriminate | reflexivity]].
Defined.

(** ** The dashboard's heading *)

(** X18.  The subtitle and the statistics of the dashboard agree on the
    five roles the schema allows: [isAdmin] holds exactly for the roles
    that get the organization branch of [loadStats], that is for every role
    but client.  Whatever the role, a profile told it sees the organization
    overview never gets the client's statistics. *)
Theorem subtitle_matches_statistics :
  forall (p : Dashboard.Profile),
    (DashboardView.isAdmin (Some p) = true -> Dashboard.role p <> "client") /\
    (text_in (Dashboard.role p) Schema.user_roles = true ->
     DashboardView.isAdmin (Some p) = negb (Dashboard.role p =? "client")).
Proof.
  intros p. unfold DashboardView.isAdmin. split.
  - intros H Hc. rewrite Hc in H. discriminate H.
  - intros Hrole. unfold text_in, Schema.user_roles in Hrole. simpl in Hrole.
    repeat rewrite orb_true_iff in Hrole.
    destruct Hrole as [H | [H | [H | [H | [H | H]]]]];
      try discriminate H; apply String.eqb_eq in H; rewrite H; reflexivity.
Qed.

Lemma subtitle_matches_statistics_witness :
  DashboardView.isAdmin (Some MoreExamples.manager_profile) = true /\
  DashboardView.isAdmin (Some MoreExamples.client_profile) = false.
Proof.
  destruct (subtitle_matches_statistics MoreExamples.manager_profile) as [_ Hm].
  destruct (subtitle_matches_statistics MoreExamples.client_profile) as [_ Hc].
  split; [rewrite (Hm eq_refl) | rewrite (Hc eq_refl)]; reflexivity.
Defined.

Lemma before_at_no_at (s : string) : DashboardView.before_at_free (DashboardView.before_at s).
Proof.
  induction s as [| c s IH]; simpl; [exact I |].
  destruct (Ascii.eqb c "@"%char) eqn:E; simpl; [exact I |].
  split; [| exact IH]. intros Hc. subst c. discriminate E.
Qed.

(** X19.  The greeting never has an empty name: it shows the full name when
    there is one, otherwise the part of the email before its first [@]
    when that part is not empty (and it then contains no [@]), and "there"
    in every other case, a missing profile included. *)
Theorem welcome_name_never_empty :
  forall (profile : option DashboardView.Person),
    DashboardView.welcome_name profile <> "" /\
    (forall x n, profile = Some x -> DashboardView.full_name x = Some n -> n <> "" ->
                 DashboardView.welcome_name profile = n) /\
    (forall x e, profile = Some x ->
                 truthy (DashboardView.full_name x) = false ->
                 DashboardView.email x = Some e ->
                 DashboardView.before_at e <> "" ->
                 DashboardView.welcome_name profile = DashboardView.before_at e /\
                 DashboardView.before_at_free (DashboardView.welcome_name profile)) /\
    (profile = None -> DashboardView.welcome_name profile = "there").
Proof.
  intros profile. split; [| split; [| split]].
  - unfold DashboardView.welcome_name.
    destruct profile as [[[n |] [e |]] |]; simpl;
      repeat match goal with
             | |- context [?a =? ""] => destruct (a =? "") eqn:?; simpl
             end;
      try discriminate;
      match goal with
      | H : (?a =? "") = false |- ?a <> "" => apply String.eqb_neq; exact H
      end.
  - intros x n -> Hn Hne. unfold DashboardView.welcome_name. rewrite Hn. simpl.
    apply String.eqb_neq in Hne. rewrite Hne. reflexivity.
  - intros x e -> Hn He Hl.
    assert (Hw : DashboardView.welcome_name (Some x) = DashboardView.before_at e).
    { unfold DashboardView.welcome_name. rewrite He. simpl option_map.
      apply String.eqb_neq in Hl.
      destruct (DashboardView.full_name x) as [n |]; simpl in *.
      - destruct (n =? ""); [| discriminate]. simpl. rewrite Hl. reflexivity.
      - rewrite Hl. reflexivity. }
    split; [exact Hw | rewrite Hw; apply before_at_no_at].
  - intros ->. reflexivity.
Qed.

Lemma welcome_name_never_empty_witness :
  DashboardView.welcome_name
    (Some {| DashboardView.full_name := Some "";
             DashboardView.email := Some "client@firm.example" |})
  = "client".
Proof.
  destruct (welcome_name_never_empty
              (Some {| DashboardView.full_name := Some "";
                       DashboardView.email := Some "client@firm.example" |}))
    as [_ [_ [H _]]].
  destruct (H _ "client@firm.example" eq_refl eq_refl eq_refl) as [Hw _];
    [discriminate | exact Hw].
Defined.
